(** * ReadingDeclaration: task persistence and validation core

    A shallow embedding of the JavaScript sources of the reading-declaration
    application (task model, input validator, storage manager, task manager)
    together with the properties stated about them.

    Conventions.
    - A JavaScript string is the list of its UTF-16 code units ([list N]).
    - A regular-expression object is its pattern, its flags and its mutable
      [lastIndex]; matching is a backtracking matcher that follows the
      ECMAScript pattern semantics for the constructs the sources use.
    - An object is the ordered list of its own properties.
    - Code that may throw runs in an exception monad; [try]/[catch] is
      [try_catch]. *)

From Stdlib Require Import NArith ZArith String Ascii List Bool Lia.
From stdpp Require Import base option list gmap.

Set Default Proof Using "Type".
Set Warnings "-register-all".
Open Scope N_scope.

(* ===================================================================== *)
(** * The JavaScript built-ins the sources rely on                        *)
(* ===================================================================== *)

Module JS.

(** ** Strings *)

Abbreviation jsstring := (list N).

(** A string literal of the sources whose characters are all ASCII. *)
Definition str (s : string) : jsstring :=
  map N_of_ascii (list_ascii_of_string s).
Arguments str : simpl never.

Definition in_range (lo hi c : N) : bool := (lo <=? c) && (c <=? hi).

(** ECMAScript [WhiteSpace] and [LineTerminator] code points: what
    [String.prototype.trim] strips and what [\s] matches. *)
Definition is_space (c : N) : bool :=
  in_range 9 13 c || (c =? 32) || (c =? 160) || (c =? 5760)
  || in_range 8192 8202 c || (c =? 8232) || (c =? 8233) || (c =? 8239)
  || (c =? 8287) || (c =? 12288) || (c =? 65279).

Definition is_line_terminator (c : N) : bool :=
  (c =? 10) || (c =? 13) || (c =? 8232) || (c =? 8233).

(** [\w]: the 63 characters [A-Za-z0-9_]. *)
Definition is_word (c : N) : bool :=
  in_range 48 57 c || in_range 65 90 c || (c =? 95) || in_range 97 122 c.

Fixpoint drop_space (s : jsstring) : jsstring :=
  match s with
  | c :: t => if is_space c then drop_space t else s
  | [] => []
  end.

(** [String.prototype.trim]. *)
Definition trim (s : jsstring) : jsstring :=
  rev (drop_space (rev (drop_space s))).

(** ** Regular expressions *)

Inductive citem : Type :=
  | CChar (c : N)
  | CRange (lo hi : N)
  | CWord
  | CSpace.

Inductive regex : Type :=
  | Eps
  | Chr (c : N)
  | AnyChar
  | CharSet (negated : bool) (items : list citem)
  | Seq (r1 r2 : regex)
  | Alt (r1 r2 : regex)
  | Star (r : regex)
  | NegLook (r : regex)
  | WordB
  | Bos
  | Eos.

Definition Plus (r : regex) : regex := Seq r (Star r).
Definition Opt (r : regex) : regex := Alt r Eps.

(** The literal characters of a pattern, in sequence. *)
Fixpoint Lit (s : jsstring) : regex :=
  match s with
  | [] => Eps
  | [c] => Chr c
  | c :: t => Seq (Chr c) (Lit t)
  end.

Fixpoint Seqs (rs : list regex) : regex :=
  match rs with
  | [] => Eps
  | [r] => r
  | r :: t => Seq r (Seqs t)
  end.

(** [Canonicalize] of the pattern semantics without the [u] flag.  Every
    pattern of the sources that carries the [i] flag is written with ASCII
    characters only, and [Canonicalize] never maps a character outside ASCII
    to one inside, so upper-casing the ASCII letters decides every comparison
    those patterns make. *)
Definition canon (ic : bool) (c : N) : N :=
  if ic && in_range 97 122 c then c - 32 else c.

Definition swapcase (c : N) : N :=
  if in_range 97 122 c then c - 32
  else if in_range 65 90 c then c + 32 else c.

Definition citem_has (it : citem) (c : N) : bool :=
  match it with
  | CChar a => a =? c
  | CRange lo hi => in_range lo hi c
  | CWord => is_word c
  | CSpace => is_space c
  end.

(** A class contains [c] when one of its members canonicalizes like [c]. *)
Definition citem_match (ic : bool) (it : citem) (c : N) : bool :=
  citem_has it c || (ic && citem_has it (swapcase c)).

Definition charset_match (ic negated : bool) (items : list citem) (c : N) : bool :=
  xorb negated (existsb (fun it => citem_match ic it c) items).

(** A position in the subject string: the code unit before it (none at the
    start) and what is left. *)
Record pos : Type := Pos { before : option N; rest : jsstring }.

Definition is_word_opt (o : option N) : bool :=
  match o with Some c => is_word c | None => false end.

Definition step_char (ok : N → bool) (k : pos → option pos) (p : pos) : option pos :=
  match rest p with
  | c :: t => if ok c then k (Pos (Some c) t) else None
  | [] => None
  end.

(** The greedy star of a matcher [m]: one more iteration if it consumes
    something, else the rest of the pattern.  The counter [n] is at least
    the number of code units left, which bounds the iterations. *)
Fixpoint star_loop (m : (pos → option pos) → pos → option pos)
  (k : pos → option pos) (n : nat) (p : pos) {struct n} : option pos :=
  match n with
  | O => k p
  | S n' =>
      match m (fun q => if (length (rest q) <? length (rest p))%nat
                        then star_loop m k n' q else None) p with
      | Some q => Some q
      | None => k p
      end
  end.

(** The backtracking matcher, in continuation-passing style as in the
    standard. *)
Fixpoint rmatch (ic : bool) (r : regex) (k : pos → option pos) (p : pos)
  {struct r} : option pos :=
  match r with
  | Eps => k p
  | Chr a => step_char (fun c => canon ic a =? canon ic c) k p
  | AnyChar => step_char (fun c => negb (is_line_terminator c)) k p
  | CharSet negated items => step_char (charset_match ic negated items) k p
  | Seq r1 r2 => rmatch ic r1 (rmatch ic r2 k) p
  | Alt r1 r2 =>
      match rmatch ic r1 k p with
      | Some q => Some q
      | None => rmatch ic r2 k p
      end
  | Star r1 => star_loop (rmatch ic r1) k (length (rest p)) p
  | NegLook r1 =>
      match rmatch ic r1 Some p with
      | Some _ => None
      | None => k p
      end
  | WordB =>
      if xorb (is_word_opt (before p)) (is_word_opt (head (rest p)))
      then k p else None
  | Bos => match before p with None => k p | Some _ => None end
  | Eos => match rest p with [] => k p | _ :: _ => None end
  end.

(** The match that starts exactly at [p], as the number of code units it
    consumes. *)
Definition match_here (ic : bool) (r : regex) (p : pos) : option nat :=
  match rmatch ic r Some p with
  | Some q => Some (length (rest p) - length (rest q))%nat
  | None => None
  end.

(** The leftmost match at or after [p], which sits at index [i]: its start
    and end indices. *)
Fixpoint find_from (ic : bool) (r : regex) (b : option N) (s : jsstring)
  (i : nat) {struct s} : option (nat * nat) :=
  match match_here ic r (Pos b s) with
  | Some n => Some (i, (i + n)%nat)
  | None =>
      match s with
      | [] => None
      | c :: t => find_from ic r (Some c) t (S i)
      end
  end.

(** A [RegExp] object. *)
Record RegExp : Type := mkRegExp {
  pattern : regex;
  ignoreCase : bool;
  global : bool;
  lastIndex : nat
}.

Definition set_lastIndex (re : RegExp) (i : nat) : RegExp :=
  mkRegExp (pattern re) (ignoreCase re) (global re) i.

Definition position_at (s : jsstring) (i : nat) : pos :=
  Pos (last (take i s)) (drop i s).

(** [RegExp.prototype.exec] as far as [test] and [replace] observe it: the
    search starts at [lastIndex] when the object is global and at 0
    otherwise; a global object remembers where the match ended and forgets it
    on failure. *)
Definition exec (re : RegExp) (s : jsstring) : option (nat * nat) * RegExp :=
  let start := if global re then lastIndex re else O in
  if (length s <? start)%nat then
    (None, if global re then set_lastIndex re 0 else re)
  else
    match find_from (ignoreCase re) (pattern re)
            (before (position_at s start)) (rest (position_at s start)) start with
    | Some (i, e) => (Some (i, e), if global re then set_lastIndex re e else re)
    | None => (None, if global re then set_lastIndex re 0 else re)
    end.

(** [RegExp.prototype.test]. *)
Definition test (re : RegExp) (s : jsstring) : bool * RegExp :=
  let '(m, re') := exec re s in
  (match m with Some _ => true | None => false end, re').

(** [String.prototype.replace] with a global pattern and a replacement
    without [$]: every match, searched left to right from the end of the
    previous one, is replaced; after an empty match the search moves one
    code unit on.  [skip] counts the code units of the current match that
    are still to be dropped. *)
Fixpoint replace_go (ic : bool) (r : regex) (rep : jsstring) (skip : nat)
  (b : option N) (s : jsstring) {struct s} : jsstring :=
  match skip with
  | S k =>
      match s with
      | [] => []
      | c :: t => replace_go ic r rep k (Some c) t
      end
  | O =>
      match match_here ic r (Pos b s) with
      | Some (S k) =>
          rep ++ match s with
                 | [] => []
                 | c :: t => replace_go ic r rep k (Some c) t
                 end
      | Some O =>
          rep ++ match s with
                 | [] => []
                 | c :: t => c :: replace_go ic r rep O (Some c) t
                 end
      | None =>
          match s with
          | [] => []
          | c :: t => c :: replace_go ic r rep O (Some c) t
          end
      end
  end.

(** [s.replace(re, rep)].  A global pattern starts from [lastIndex = 0] and
    leaves it at 0; a pattern that is not global replaces its first match and
    keeps its [lastIndex]. *)
Definition replace (s : jsstring) (re : RegExp) (rep : jsstring)
  : jsstring * RegExp :=
  if global re then
    (replace_go (ignoreCase re) (pattern re) rep O None s, set_lastIndex re 0)
  else
    (match find_from (ignoreCase re) (pattern re) None s O with
     | Some (i, e) => take i s ++ rep ++ drop e s
     | None => s
     end, re).

(** A regular-expression literal: evaluating it makes a fresh object. *)
Definition literal (r : regex) (ic g : bool) : RegExp := mkRegExp r ic g 0.

(** ** Values and objects *)

(** A time value: milliseconds since the epoch, or none for [NaN] (an
    invalid date). *)
Abbreviation timevalue := (option Z).

(** The values that can sit in a property of a task object.  A number is
    kept as the literal it was read from: the sources compute with no
    number they read. *)
Inductive value : Type :=
  | VUndef
  | VNull
  | VBool (b : bool)
  | VNum (literal : jsstring)
  | VStr (s : jsstring)
  | VDate (tv : timevalue)
  | VArr (items : list value)
  | VObj (props : list (jsstring * value)).

(** An object: its own properties, in order. *)
Abbreviation object := (list (jsstring * value)).

Fixpoint get (o : object) (k : jsstring) : value :=
  match o with
  | [] => VUndef
  | (k', v) :: o' => if decide (k' = k) then v else get o' k
  end.

(** Assignment to a property: an existing key keeps its place. *)
Fixpoint set (o : object) (k : jsstring) (v : value) : object :=
  match o with
  | [] => [(k, v)]
  | (k', v') :: o' =>
      if decide (k' = k) then (k, v) :: o' else (k', v') :: set o' k v
  end.

(** [{...a, ...b}] on objects. *)
Definition merge (a b : object) : object :=
  fold_left (fun o kv => set o (fst kv) (snd kv)) b a.

(** The mantissa of a number literal has no digit from 1 to 9. *)
Fixpoint zero_literal (s : jsstring) : bool :=
  match s with
  | [] => true
  | c :: t =>
      if (c =? 101) || (c =? 69) then true
      else negb (in_range 49 57 c) && zero_literal t
  end.

(** [ToBoolean]. *)
Definition truthy (v : value) : bool :=
  match v with
  | VUndef | VNull => false
  | VBool b => b
  | VNum l => negb (zero_literal l)
  | VStr s => match s with [] => false | _ => true end
  | VDate _ | VArr _ | VObj _ => true
  end.

(** [v === s] for a string [s]. *)
Definition is_string (v : value) (s : jsstring) : bool :=
  match v with
  | VStr s' => bool_decide (s' = s)
  | _ => false
  end.

(** ** Exceptions *)

Inductive exn : Type := TypeError | SyntaxError | DOMException | Error (msg : jsstring).

Inductive result (A : Type) : Type :=
  | Ret (a : A)
  | Throw (e : exn).
Arguments Ret {A} a.
Arguments Throw {A} e.

Definition bind {A B} (m : result A) (f : A → result B) : result B :=
  match m with
  | Ret a => f a
  | Throw e => Throw e
  end.

Definition try_catch {A} (m : result A) (handler : exn → result A) : result A :=
  match m with
  | Ret a => Ret a
  | Throw e => handler e
  end.

Fixpoint mapM {A B} (f : A → result B) (l : list A) : result (list B) :=
  match l with
  | [] => Ret []
  | a :: t => bind (f a) (fun b => bind (mapM f t) (fun bs => Ret (b :: bs)))
  end.

(** ** Dates *)

Definition TimeClip (tv : timevalue) : timevalue :=
  match tv with
  | Some t => if (Z.abs t <=? 8640000000000000)%Z then Some t else None
  | None => None
  end.

(** Days since the epoch of a proleptic Gregorian date, and back. *)
Definition days_from_civil (y m d : Z) : Z :=
  let y := if (m <=? 2)%Z then (y - 1)%Z else y in
  let era := (y / 400)%Z in
  let yoe := (y - era * 400)%Z in
  let doy := ((153 * (if (2 <? m)%Z then m - 3 else m + 9) + 2) / 5 + d - 1)%Z in
  let doe := (yoe * 365 + yoe / 4 - yoe / 100 + doy)%Z in
  (era * 146097 + doe - 719468)%Z.

Definition civil_from_days (z : Z) : Z * Z * Z :=
  let z := (z + 719468)%Z in
  let era := (z / 146097)%Z in
  let doe := (z - era * 146097)%Z in
  let yoe := ((doe - doe / 1460 + doe / 36524 - doe / 146096) / 365)%Z in
  let doy := (doe - (365 * yoe + yoe / 4 - yoe / 100))%Z in
  let mp := ((5 * doy + 2) / 153)%Z in
  let d := (doy - (153 * mp + 2) / 5 + 1)%Z in
  let m := if (mp <? 10)%Z then (mp + 3)%Z else (mp - 9)%Z in
  let y := (yoe + era * 400)%Z in
  (if (m <=? 2)%Z then (y + 1)%Z else y, m, d).

(** The last [w] decimal digits of [z]. *)
Fixpoint pad (w : nat) (z : Z) : jsstring :=
  match w with
  | O => []
  | S w' => pad w' (z / 10) ++ [48 + Z.to_N (z mod 10)]
  end.

(** [Date.prototype.toISOString] of a valid time value. *)
Definition toISOString (t : Z) : jsstring :=
  let day := (t / 86400000)%Z in
  let ms := (t mod 86400000)%Z in
  let '(y, m, d) := civil_from_days day in
  (if (0 <=? y)%Z && (y <=? 9999)%Z then pad 4 y
   else (if (y <? 0)%Z then 45 else 43) :: pad 6 (Z.abs y))
  ++ [45] ++ pad 2 m ++ [45] ++ pad 2 d ++ [84]
  ++ pad 2 (ms / 3600000) ++ [58] ++ pad 2 (ms / 60000 mod 60) ++ [58]
  ++ pad 2 (ms / 1000 mod 60) ++ [46] ++ pad 3 (ms mod 1000) ++ [90].

Fixpoint number_of (acc : Z) (s : jsstring) : option Z :=
  match s with
  | [] => Some acc
  | c :: t =>
      if in_range 48 57 c then number_of (acc * 10 + Z.of_N (c - 48)) t
      else None
  end.

Definition digits (s : jsstring) : option Z :=
  match s with [] => None | _ => number_of 0 s end.

(** The fields of [YYYY-MM-DDTHH:mm:ss.sssZ] after the year. *)
Definition parse_after_year (y : Z) (s : jsstring) : timevalue :=
  match s with
  | [45; m1; m2; 45; d1; d2; 84; h1; h2; 58; n1; n2; 58; s1; s2; 46;
     f1; f2; f3; 90] =>
      m ← digits [m1; m2]; d ← digits [d1; d2]; h ← digits [h1; h2];
      n ← digits [n1; n2]; sec ← digits [s1; s2]; f ← digits [f1; f2; f3];
      if bool_decide (civil_from_days (days_from_civil y m d) = (y, m, d))
         && (h <=? 24)%Z && (n <=? 59)%Z && (sec <=? 59)%Z
         && ((h <? 24)%Z || ((n =? 0)%Z && (sec =? 0)%Z && (f =? 0)%Z))
      then Some (days_from_civil y m d * 86400000 + h * 3600000
                 + n * 60000 + sec * 1000 + f)%Z
      else None
  | _ => None
  end.

(** [Date.parse] on the format that [toISOString] writes, with a four-digit
    or a signed six-digit year.  What an engine makes of any other string is
    implementation-defined or depends on the local time zone; it is an
    invalid date here, and no statement below depends on it. *)
Definition Date_parse (s : jsstring) : timevalue :=
  TimeClip
    match s with
    | 43 :: y1 :: y2 :: y3 :: y4 :: y5 :: y6 :: t =>
        y ← digits [y1; y2; y3; y4; y5; y6]; parse_after_year y t
    | 45 :: y1 :: y2 :: y3 :: y4 :: y5 :: y6 :: t =>
        y ← digits [y1; y2; y3; y4; y5; y6];
        if (y =? 0)%Z then None else parse_after_year (- y) t
    | y1 :: y2 :: y3 :: y4 :: t =>
        y ← digits [y1; y2; y3; y4]; parse_after_year y t
    | _ => None
    end.

(** An integer literal as a number. *)
Definition integer_literal (l : jsstring) : option Z :=
  match l with
  | 45 :: t => Z.opp <$> digits t
  | _ => digits l
  end.

(** The time value of [new Date(v)].  A date gives its own time value, a
    string is parsed, [undefined] is [NaN], [null] and the booleans are 0
    and 1.  Numbers other than integer literals, arrays and nested objects
    never occur in what the sources store; the engine would convert them
    through [ToPrimitive], here they give an invalid date. *)
Definition new_Date (v : value) : timevalue :=
  match v with
  | VDate tv => TimeClip tv
  | VStr s => Date_parse s
  | VUndef => None
  | VNull => Some 0%Z
  | VBool b => Some (if b then 1 else 0)%Z
  | VNum l => TimeClip (integer_literal l)
  | VArr _ | VObj _ => None
  end.

(** ** JSON *)

Definition hex_digit (n : N) : N := if n <? 10 then 48 + n else 87 + n.

Definition unicode_escape (c : N) : jsstring :=
  [92; 117; hex_digit (c / 4096); hex_digit (c / 256 mod 16);
   hex_digit (c / 16 mod 16); hex_digit (c mod 16)].

(** [QuoteJSONString] without the surrounding quotes: the short escapes,
    [\uXXXX] for the other control characters and for a surrogate that is
    not part of a pair. *)
Fixpoint quote_body (s : jsstring) : jsstring :=
  match s with
  | [] => []
  | c :: t =>
      if c =? 34 then 92 :: 34 :: quote_body t
      else if c =? 92 then 92 :: 92 :: quote_body t
      else if c =? 8 then 92 :: 98 :: quote_body t
      else if c =? 12 then 92 :: 102 :: quote_body t
      else if c =? 10 then 92 :: 110 :: quote_body t
      else if c =? 13 then 92 :: 114 :: quote_body t
      else if c =? 9 then 92 :: 116 :: quote_body t
      else if c <? 32 then unicode_escape c ++ quote_body t
      else if in_range 55296 56319 c then
        match t with
        | c2 :: t2 =>
            if in_range 56320 57343 c2 then c :: c2 :: quote_body t2
            else unicode_escape c ++ quote_body t
        | [] => unicode_escape c
        end
      else if in_range 56320 57343 c then unicode_escape c ++ quote_body t
      else c :: quote_body t
  end.

Definition quote (s : jsstring) : jsstring := [34] ++ quote_body s ++ [34].

Fixpoint join (sep : jsstring) (l : list jsstring) : jsstring :=
  match l with
  | [] => []
  | [x] => x
  | x :: t => x ++ sep ++ join sep t
  end.

(** [JSON.stringify(v)] without indentation; none when the result is
    [undefined].  In an array [undefined] is written [null], in an object
    the property is left out; a date is written through its [toJSON]. *)
Fixpoint stringify (v : value) : option jsstring :=
  match v with
  | VUndef => None
  | VNull => Some (str "null")
  | VBool b => Some (if b then str "true" else str "false")
  | VNum l => Some l
  | VStr s => Some (quote s)
  | VDate tv =>
      Some (match TimeClip tv with
            | Some t => quote (toISOString t)
            | None => str "null"
            end)
  | VArr items =>
      Some ([91] ++ join [44]
              ((fix each (l : list value) : list jsstring :=
                  match l with
                  | [] => []
                  | x :: t => default (str "null") (stringify x) :: each t
                  end) items) ++ [93])
  | VObj props =>
      Some ([123] ++ join [44]
              ((fix each (l : list (jsstring * value)) : list jsstring :=
                  match l with
                  | [] => []
                  | (k, x) :: t =>
                      match stringify x with
                      | Some j => (quote k ++ [58] ++ j) :: each t
                      | None => each t
                      end
                  end) props) ++ [125])
  end.

Definition is_json_space (c : N) : bool :=
  (c =? 32) || (c =? 9) || (c =? 10) || (c =? 13).

Fixpoint skip_ws (s : jsstring) : jsstring :=
  match s with
  | c :: t => if is_json_space c then skip_ws t else s
  | [] => []
  end.

Definition hex_value (c : N) : option N :=
  if in_range 48 57 c then Some (c - 48)
  else if in_range 97 102 c then Some (c - 87)
  else if in_range 65 70 c then Some (c - 55)
  else None.

(** The characters of a string literal after its opening quote, and what
    follows the closing quote. *)
Fixpoint parse_string (s : jsstring) : option (jsstring * jsstring) :=
  match s with
  | [] => None
  | 34 :: t => Some ([], t)
  | 92 :: 117 :: a :: b :: c :: d :: t =>
      a ← hex_value a; b ← hex_value b; c ← hex_value c; d ← hex_value d;
      '(r, t') ← parse_string t;
      Some ((a * 4096 + b * 256 + c * 16 + d) :: r, t')
  | 92 :: e :: t =>
      c ← (if e =? 34 then Some 34 else if e =? 92 then Some 92
           else if e =? 47 then Some 47 else if e =? 98 then Some 8
           else if e =? 102 then Some 12 else if e =? 110 then Some 10
           else if e =? 114 then Some 13 else if e =? 116 then Some 9
           else None);
      '(r, t') ← parse_string t;
      Some (c :: r, t')
  | c :: t =>
      if (c <? 32) || (c =? 92) then None
      else '(r, t') ← parse_string t; Some (c :: r, t')
  end.

Fixpoint take_digits (s : jsstring) : jsstring * jsstring :=
  match s with
  | c :: t =>
      if in_range 48 57 c then let '(d, r) := take_digits t in (c :: d, r)
      else ([], s)
  | [] => ([], [])
  end.

(** A number literal: [-? (0 | [1-9][0-9]* ) (. [0-9]+)? ([eE] [+-]? [0-9]+)?]. *)
Definition parse_number (s : jsstring) : option (jsstring * jsstring) :=
  let '(sign, s1) := match s with 45 :: t => ([45], t) | _ => ([], s) end in
  let '(int, s2) := take_digits s1 in
  match int with
  | [] => None
  | d :: ds =>
      if (d =? 48) && negb (bool_decide (ds = [])) then None
      else
        '(frac, s3) ←
          match s2 with
          | 46 :: t =>
              let '(f, r) := take_digits t in
              match f with [] => None | _ => Some (46 :: f, r) end
          | _ => Some ([], s2)
          end;
        '(exp, s4) ←
          match s3 with
          | e :: t =>
              if (e =? 101) || (e =? 69) then
                let '(sg, t1) :=
                  match t with
                  | c :: t' => if (c =? 43) || (c =? 45) then ([c], t') else ([], t)
                  | [] => ([], t)
                  end in
                let '(x, r) := take_digits t1 in
                match x with [] => None | _ => Some (e :: sg ++ x, r) end
              else Some ([], s3)
          | [] => Some ([], s3)
          end;
        Some (sign ++ int ++ frac ++ exp, s4)
  end.

Definition expect (lit : string) (v : value) (s : jsstring)
  : option (value * jsstring) :=
  if bool_decide (take (length (str lit)) s = str lit)
  then Some (v, drop (length (str lit)) s) else None.

(** The recursive-descent parser; [fuel] bounds the depth of the calls. *)
Fixpoint parse_value (fuel : nat) (s : jsstring) : option (value * jsstring) :=
  match fuel with
  | O => None
  | S fuel =>
      match skip_ws s with
      | [] => None
      | c :: t =>
          if c =? 110 then expect "null" VNull (c :: t)
          else if c =? 116 then expect "true" (VBool true) (c :: t)
          else if c =? 102 then expect "false" (VBool false) (c :: t)
          else if c =? 34 then '(x, r) ← parse_string t; Some (VStr x, r)
          else if c =? 91 then
            match skip_ws t with
            | 93 :: r => Some (VArr [], r)
            | _ => '(l, r) ← parse_elements fuel t; Some (VArr l, r)
            end
          else if c =? 123 then
            match skip_ws t with
            | 125 :: r => Some (VObj [], r)
            | _ => '(o, r) ← parse_members fuel [] t; Some (VObj o, r)
            end
          else '(l, r) ← parse_number (c :: t); Some (VNum l, r)
      end
  end
with parse_elements (fuel : nat) (s : jsstring) : option (list value * jsstring) :=
  match fuel with
  | O => None
  | S fuel =>
      '(v, r) ← parse_value fuel s;
      match skip_ws r with
      | 44 :: r' => '(l, r'') ← parse_elements fuel r'; Some (v :: l, r'')
      | 93 :: r' => Some ([v], r')
      | _ => None
      end
  end
with parse_members (fuel : nat) (acc : object) (s : jsstring)
  : option (object * jsstring) :=
  match fuel with
  | O => None
  | S fuel =>
      match skip_ws s with
      | 34 :: t =>
          '(k, r) ← parse_string t;
          match skip_ws r with
          | 58 :: r1 =>
              '(v, r2) ← parse_value fuel r1;
              match skip_ws r2 with
              | 44 :: r3 => parse_members fuel (set acc k v) r3
              | 125 :: r3 => Some (set acc k v, r3)
              | _ => None
              end
          | _ => None
          end
      | _ => None
      end
  end.

(** [JSON.parse(text)]: the value, or a [SyntaxError]. *)
Definition JSON_parse (text : jsstring) : result value :=
  match parse_value (2 * length text + 2) text with
  | Some (v, r) => match skip_ws r with [] => Ret v | _ => Throw SyntaxError end
  | None => Throw SyntaxError
  end.

End JS.

Import JS.

#[export] Instance result_ret : MRet result := @Ret.
#[export] Instance result_bind : MBind result := fun A B f m => JS.bind m f.

(* ===================================================================== *)
(** * js/input-validator.js: class InputValidator                        *)
(* ===================================================================== *)

Module InputValidator.

Record rule : Type := mkRule {
  required : bool;
  minLength : option nat;
  maxLength : option nat;
  rpattern : option RegExp;
  sanitize : bool
}.

(** An instance: the rules per field and the pattern objects, which carry
    their [lastIndex] from one call to the next. *)
Record t : Type := mkValidator {
  validationRules : gmap jsstring rule;
  xssPatterns : list RegExp
}.

Definition not_char (c : string) : regex := CharSet true [CChar (hd 0 (str c))].
Definition spaces : regex := Star (CharSet false [CSpace]).

(** The pattern [<name\b[^<]* (?: (?!<\/name>) <[^<]* )* <\/name>]
    (written here with spaces between its parts). *)
Definition element_pattern (name : string) : regex :=
  Seqs [ Lit (str "<" ++ str name); WordB; Star (not_char "<");
         Star (Seqs [ NegLook (Lit (str "</" ++ str name ++ str ">"));
                      Chr 60; Star (not_char "<") ]);
         Lit (str "</" ++ str name ++ str ">") ].

(** The pattern [<name\b[^>]* >]. *)
Definition tag_pattern (name : string) : regex :=
  Seqs [ Lit (str "<" ++ str name); WordB; Star (not_char ">"); Chr 62 ].

Definition xss_sources : list regex :=
  [ element_pattern "script";
    element_pattern "iframe";
    element_pattern "object";
    element_pattern "embed";
    tag_pattern "link";
    tag_pattern "meta";
    Lit (str "javascript:");
    Lit (str "vbscript:");
    Lit (str "data:text/html");
    Seqs [ Lit (str "on"); Plus (CharSet false [CWord]); spaces; Chr 61 ] ].

(** The character classes of [allowedPatterns]. *)
Definition author_chars : list citem :=
  [ CRange 12352 12447; CRange 12448 12543; CRange 19968 40879;
    CRange 13312 19903; CRange 97 122; CRange 65 90; CRange 48 57;
    CSpace; CChar 45; CChar 46; CChar 44 ].

Definition bookTitle_chars : list citem :=
  [ CRange 12352 12447; CRange 12448 12543; CRange 19968 40879;
    CRange 13312 19903; CRange 97 122; CRange 65 90; CRange 48 57;
    CSpace; CChar 45; CChar 46; CChar 44; CChar 33; CChar 63; CChar 58;
    CChar 59; CChar 40; CChar 41; CChar 91; CChar 93; CChar 123; CChar 125;
    CChar 12300; CChar 12301; CChar 12302; CChar 12303; CChar 12296;
    CChar 12297; CChar 12298; CChar 12299; CChar 12304; CChar 12305;
    CChar 12308; CChar 12309; CChar 12539; CChar 65374; CChar 12540;
    CChar 65281; CChar 65311; CChar 12301; CChar 65288; CChar 65289 ].

Definition only (items : list citem) : RegExp :=
  literal (Seqs [Bos; Plus (CharSet false items); Eos]) false false.

Definition allowedPatterns (fieldName : jsstring) : option RegExp :=
  if decide (fieldName = str "bookTitle") then Some (only bookTitle_chars)
  else if decide (fieldName = str "author") then Some (only author_chars)
  else None.

(** [constructor()] *)
Definition new : t :=
  mkValidator
    (<[str "bookTitle" := mkRule true (Some 1%nat) (Some 100%nat) None true]>
       (<[str "author" := mkRule false (Some 0%nat) (Some 50%nat) None true]> ∅))
    (map (fun r => literal r true true) xss_sources).

(** [escapeHtml(text)]: the text is stored in a text node of a detached
    element and read back as markup, which escapes [&], [<], [>] and the
    no-break space, and nothing else. *)
Definition escape_text_char (c : N) : jsstring :=
  if c =? 38 then str "&amp;"
  else if c =? 60 then str "&lt;"
  else if c =? 62 then str "&gt;"
  else if c =? 160 then str "&nbsp;"
  else [c].

Definition escapeHtml (text : jsstring) : jsstring :=
  flat_map escape_text_char text.

(** The loop [for (const pattern of this.xssPatterns)
    sanitized = sanitized.replace(pattern, '')]. *)
Fixpoint replace_each (pats : list RegExp) (s : jsstring)
  : jsstring * list RegExp :=
  match pats with
  | [] => (s, [])
  | re :: rest =>
      let '(s1, re1) := replace s re [] in
      let '(s2, rest2) := replace_each rest s1 in
      (s2, re1 :: rest2)
  end.

(** [sanitizeInput(input)] on a string. *)
Definition sanitizeInput (this : t) (input : jsstring) : jsstring * t :=
  let sanitized := input in
  let sanitized := trim sanitized in
  let sanitized := escapeHtml sanitized in
  let sanitized :=
    fst (replace sanitized
           (literal (CharSet false [CRange 0 31; CChar 127]) false true) []) in
  let sanitized :=
    fst (replace sanitized
           (literal (Plus (CharSet false [CSpace])) false true) (str " ")) in
  let '(sanitized, pats) := replace_each (xssPatterns this) sanitized in
  (sanitized, mkValidator (validationRules this) pats).

(** The loop of [containsXSS]: it returns at the first pattern that
    matches, and every pattern tested keeps what [test] did to its
    [lastIndex]. *)
Fixpoint test_any (pats : list RegExp) (input : jsstring)
  : bool * list RegExp :=
  match pats with
  | [] => (false, [])
  | re :: rest =>
      let '(b, re1) := test re input in
      if b then (true, re1 :: rest)
      else let '(b2, rest2) := test_any rest input in (b2, re1 :: rest2)
  end.

(** [containsXSS(input)] *)
Definition containsXSS (this : t) (input : jsstring) : bool * t :=
  let '(b, pats) := test_any (xssPatterns this) input in
  (b, mkValidator (validationRules this) pats).

Definition call (name : string) (close : N) : regex :=
  Seqs [WordB; Lit (str name); spaces; Chr close].

Definition suspicious_sources : list regex :=
  [ call "eval" 40; call "Function" 40; call "setTimeout" 40;
    call "setInterval" 40; call "document" 46; call "window" 46;
    call "alert" 40; call "confirm" 40; call "prompt" 40;
    Seqs [ Chr 60; spaces; Opt (Chr 47); spaces; CharSet false [CRange 97 122] ];
    Seqs [ Lit (str "{{"); Star AnyChar; Lit (str "}}") ];
    Seqs [ Lit (str "${"); Star AnyChar; Chr 125 ];
    Seqs [ Lit (str "<%"); Star AnyChar; Lit (str "%>") ] ].

(** [containsSuspiciousContent(input)]: the pattern literals are evaluated
    at every call, so the objects are fresh and nothing is kept. *)
Definition containsSuspiciousContent (input : jsstring) : bool :=
  fst (test_any (map (fun r => literal r true true) suspicious_sources) input).

(** [isEmpty(value)] on a string. *)
Definition isEmpty (value : jsstring) : bool :=
  match value with
  | [] => true
  | _ => match trim value with [] => true | _ => false end
  end.

(** What [getErrorMessage(fieldName, errorType, param)] is called with; the
    message text is a function of these. *)
Inductive errorType : Type :=
  | E_required | E_minLength (n : nat) | E_maxLength (n : nat)
  | E_pattern | E_invalidCharacters | E_xss | E_suspicious.

Definition message : Type := (jsstring * errorType)%type.

Record fieldResult : Type := mkFieldResult {
  isValid : bool;
  sanitizedValue : jsstring;
  errors : list message
}.

Definition when (b : bool) (m : message) : list message :=
  if b then [m] else [].

Definition set_rule (this : t) (fieldName : jsstring) (r : rule) : t :=
  mkValidator (<[fieldName := r]> (validationRules this)) (xssPatterns this).

(** The properties that a call of [addValidationRule] gives. *)
Record ruleUpdate : Type := mkRuleUpdate {
  new_required : option bool;
  new_minLength : option nat;
  new_maxLength : option nat;
  new_pattern : option RegExp;
  new_sanitize : option bool
}.

(** [addValidationRule(fieldName, rule)]: the properties given replace
    those of the rule the field has; a field without a rule starts from an
    object without properties. *)
Definition addValidationRule (this : t) (fieldName : jsstring) (u : ruleUpdate) : t :=
  let old := default (mkRule false None None None false)
                     (validationRules this !! fieldName) in
  set_rule this fieldName
    (mkRule (default (required old) (new_required u))
            (match new_minLength u with Some n => Some n | None => minLength old end)
            (match new_maxLength u with Some n => Some n | None => maxLength old end)
            (match new_pattern u with Some re => Some re | None => rpattern old end)
            (default (sanitize old) (new_sanitize u))).

(** [validateField(fieldName, value)] on a string. *)
Definition validateField (this : t) (fieldName : jsstring) (value : jsstring)
  : fieldResult * t :=
  match validationRules this !! fieldName with
  | None => (mkFieldResult true value [], this)
  | Some rule =>
      let '(sanitizedValue, this) :=
        if sanitize rule then sanitizeInput this value else (value, this) in
      let errors := when (required rule && isEmpty sanitizedValue)
                         (fieldName, E_required) in
      let '(errors, this) :=
        if negb (isEmpty sanitizedValue) then
          let errors := errors ++
            match minLength rule with
            | Some n => when (length sanitizedValue <? n)%nat (fieldName, E_minLength n)
            | None => []
            end in
          let errors := errors ++
            match maxLength rule with
            | Some n => when (n <? length sanitizedValue)%nat (fieldName, E_maxLength n)
            | None => []
            end in
          let '(errors, this) :=
            match rpattern rule with
            | Some re =>
                let '(b, re1) := test re sanitizedValue in
                (errors ++ when (negb b) (fieldName, E_pattern),
                 set_rule this fieldName
                   (mkRule (required rule) (minLength rule) (maxLength rule)
                           (Some re1) (sanitize rule)))
            | None => (errors, this)
            end in
          let errors := errors ++
            match allowedPatterns fieldName with
            | Some re => when (negb (fst (test re sanitizedValue)))
                              (fieldName, E_invalidCharacters)
            | None => []
            end in
          let '(b, this) := containsXSS this sanitizedValue in
          let errors := errors ++ when b (fieldName, E_xss) in
          let errors := errors ++
            when (containsSuspiciousContent sanitizedValue) (fieldName, E_suspicious) in
          (errors, this)
        else (errors, this) in
      (mkFieldResult (match errors with [] => true | _ => false end)
                     sanitizedValue errors, this)
  end.

(** [o[k] = v] on the own properties of an object: a key that exists
    keeps its place, a new one goes to the end. *)
Fixpoint assign {V : Type} (o : list (jsstring * V)) (k : jsstring) (v : V)
  : list (jsstring * V) :=
  match o with
  | [] => [(k, v)]
  | (k', v') :: o' =>
      if decide (k' = k) then (k, v) :: o' else (k', v') :: assign o' k v
  end.

(** The object that [validateForm] returns. *)
Record formResult : Type := mkFormResult {
  form_isValid : bool;
  form_errors : list message;
  fieldErrors : list (jsstring * list message);
  sanitizedData : list (jsstring * jsstring)
}.

(** The loop of [validateForm] over [Object.entries(formData)]. *)
Fixpoint validate_entries (this : t) (entries : list (jsstring * jsstring))
  (acc : formResult) : formResult * t :=
  match entries with
  | [] => (acc, this)
  | (fieldName, value) :: rest =>
      let '(fieldResult, this) := validateField this fieldName value in
      validate_entries this rest
        (if isValid fieldResult then
           mkFormResult (form_isValid acc) (form_errors acc) (fieldErrors acc)
             (assign (sanitizedData acc) fieldName (sanitizedValue fieldResult))
         else
           mkFormResult (form_isValid acc) (form_errors acc ++ errors fieldResult)
             (assign (fieldErrors acc) fieldName (errors fieldResult))
             (sanitizedData acc))
  end.

(** [validateForm(formData)], for the entries of [formData] in the order
    of [Object.entries]; every value is a string. *)
Definition validateForm (this : t) (formData : list (jsstring * jsstring))
  : formResult * t :=
  let '(r, this) := validate_entries this formData (mkFormResult true [] [] []) in
  (mkFormResult (match form_errors r with [] => true | _ => false end)
     (form_errors r) (fieldErrors r) (sanitizedData r), this).

(** [sanitizeForCsv(input)] on a string. *)
Definition sanitizeForCsv (this : t) (input : jsstring) : jsstring * t :=
  let '(sanitized, this) := sanitizeInput this input in
  let sanitized :=
    if fst (test (literal (Seqs [Bos; CharSet false [CChar 61; CChar 43; CChar 45; CChar 64]])
                          false false) sanitized)
    then 39 :: sanitized else sanitized in
  let sanitized := fst (replace sanitized (literal (Chr 34) false true) [34; 34]) in
  let sanitized :=
    if existsb (N.eqb 44) sanitized || existsb (N.eqb 10) sanitized
       || existsb (N.eqb 34) sanitized
    then [34] ++ sanitized ++ [34] else sanitized in
  (sanitized, this).

End InputValidator.

(* ===================================================================== *)
(** * js/task-model.js: classes Task and TaskValidator                   *)
(* ===================================================================== *)

(** What a call reads from outside the program: the successive draws of
    [Math.random()], scaled to integers (the code keeps [* 16 | 0] of each),
    and the time of [new Date()]. *)
Record env : Type := mkEnv { random : nat → N; now : Z }.

Module Task.

(** An instance of [Task].  [createdAt] always holds a date; [completedAt]
    holds [null] (none) or a date. *)
Record t : Type := mkTask {
  id : value;
  bookTitle : value;
  author : value;
  status : value;
  createdAt : timevalue;
  completedAt : option timevalue
}.

(** The callback of [generateUUID] for a template character [c] that is
    [x] or [y], with [r] the value of [Math.random() * 16 | 0]. *)
Definition uuid_digit (c r : N) : N :=
  hex_digit (if c =? 120 then r else N.lor (N.land r 3) 8).

Fixpoint uuid_go (template : jsstring) (random : nat → N) (n : nat) : jsstring :=
  match template with
  | [] => []
  | c :: t =>
      if (c =? 120) || (c =? 121)
      then uuid_digit c (random n mod 16) :: uuid_go t random (S n)
      else c :: uuid_go t random n
  end.

(** [generateUUID()] *)
Definition generateUUID (e : env) : jsstring :=
  uuid_go (str "xxxxxxxx-xxxx-4xxx-yxxx-xxxxxxxxxxxx") (random e) 0.

(** A parameter with the default value [''] *)
Definition or_empty (v : value) : value :=
  match v with VUndef => VStr [] | _ => v end.

(** [new Task(bookTitle, author = '')] *)
Definition new (e : env) (bookTitle author : value) : t :=
  {| id := VStr (generateUUID e);
     bookTitle := bookTitle;
     author := or_empty author;
     status := VStr (str "active");
     createdAt := TimeClip (Some (now e));
     completedAt := None |}.

(** [complete()] *)
Definition complete (e : env) (this : t) : t :=
  {| id := id this;
     bookTitle := bookTitle this;
     author := author this;
     status := VStr (str "completed");
     createdAt := createdAt this;
     completedAt := Some (TimeClip (Some (now e))) |}.

(** [isActive()] and [isCompleted()] *)
Definition isActive (this : t) : bool := is_string (status this) (str "active").
Definition isCompleted (this : t) : bool := is_string (status this) (str "completed").

(** [toJSON()] *)
Definition toJSON (this : t) : object :=
  [ (str "id", id this);
    (str "bookTitle", bookTitle this);
    (str "author", author this);
    (str "status", status this);
    (str "createdAt", VDate (createdAt this));
    (str "completedAt",
       match completedAt this with Some tv => VDate tv | None => VNull end) ].

(** [Task.fromJSON(data)] *)
Definition fromJSON (e : env) (data : object) : t :=
  let task := new e (get data (str "bookTitle")) (get data (str "author")) in
  {| id := get data (str "id");
     bookTitle := bookTitle task;
     author := author task;
     status := get data (str "status");
     createdAt := new_Date (get data (str "createdAt"));
     completedAt :=
       if truthy (get data (str "completedAt"))
       then Some (new_Date (get data (str "completedAt")))
       else None |}.

End Task.

Module TaskValidator.

Inductive error : Type :=
  | TitleRequired      (* the title is missing or not a string *)
  | TitleBlank         (* the title is blank *)
  | TitleTooLong       (* the title has more than 100 characters *)
  | AuthorTooLong.     (* the author has more than 50 characters *)

Record validation : Type := mkValidation {
  isValid : bool;
  errors : list error
}.

Definition no_errors (errors : list error) : bool :=
  match errors with [] => true | _ => false end.

(** [validateBookTitle(title)] *)
Definition validateBookTitle (title : value) : validation :=
  let errors :=
    match title with
    | VStr (c :: s) =>
        (if bool_decide (trim (c :: s) = []) then [TitleBlank] else [])
        ++ (if (100 <? length (c :: s))%nat then [TitleTooLong] else [])
    | _ => [TitleRequired]
    end in
  mkValidation (no_errors errors) errors.

(** [validateAuthor(author)] *)
Definition validateAuthor (author : value) : validation :=
  let errors :=
    match author with
    | VStr (c :: s) => if (50 <? length (c :: s))%nat then [AuthorTooLong] else []
    | _ => []
    end in
  mkValidation (no_errors errors) errors.

(** [validateTaskData(taskData)], without the per-field [details]. *)
Definition validateTaskData (bookTitle author : value) : validation :=
  let allErrors :=
    errors (validateBookTitle bookTitle) ++ errors (validateAuthor author) in
  mkValidation (no_errors allErrors) allErrors.

(** [s.replace(/c/g, rep)] for a character [c]. *)
Definition replace_char (c : N) (rep : string) (s : jsstring) : jsstring :=
  fst (replace s (literal (Chr c) false true) (str rep)).

(** [sanitizeInput(input)] *)
Definition sanitizeInput (input : value) : jsstring :=
  match input with
  | VStr input =>
      replace_char 47 "&#x2F;"
        (replace_char 39 "&#x27;"
           (replace_char 34 "&quot;"
              (replace_char 62 "&gt;"
                 (replace_char 60 "&lt;" (trim input)))))
  | _ => []
  end.

Record prepared : Type := mkPrepared {
  data_bookTitle : jsstring;
  data_author : jsstring;
  validation_of : validation
}.

(** [prepareTaskData(bookTitle, author = '')] *)
Definition prepareTaskData (bookTitle author : value) : prepared :=
  let sanitizedTitle := sanitizeInput bookTitle in
  let sanitizedAuthor := sanitizeInput (Task.or_empty author) in
  mkPrepared sanitizedTitle sanitizedAuthor
    (validateTaskData (VStr sanitizedTitle) (VStr sanitizedAuthor)).

End TaskValidator.

(* ===================================================================== *)
(** * The browser's Web Storage                                          *)
(* ===================================================================== *)

Module WebStorage.

(** A storage area: its items, the room it has (in code units of keys and
    values), and whether the page may touch it at all.  Touching a disabled
    area throws; so does a write that does not fit. *)
Record Storage : Type := mkStorage {
  items : gmap jsstring jsstring;
  quota : nat;
  enabled : bool
}.

Definition used (m : gmap jsstring jsstring) : nat :=
  map_fold (fun k v acc => (length k + length v + acc)%nat) O m.

Definition with_items (s : Storage) (m : gmap jsstring jsstring) : Storage :=
  mkStorage m (quota s) (enabled s).

Definition setItem (k v : jsstring) (s : Storage) : result Storage :=
  if negb (enabled s) then Throw DOMException
  else if (quota s <? used (<[k := v]> (items s)))%nat then Throw DOMException
  else Ret (with_items s (<[k := v]> (items s))).

Definition getItem (k : jsstring) (s : Storage) : result (option jsstring) :=
  if negb (enabled s) then Throw DOMException else Ret (items s !! k).

Definition removeItem (k : jsstring) (s : Storage) : result Storage :=
  if negb (enabled s) then Throw DOMException
  else Ret (with_items s (delete k (items s))).

(** The two areas of a page. *)
Record Browser : Type := mkBrowser {
  localStorage : Storage;
  sessionStorage : Storage
}.

Inductive area : Type := Local | Session.

Definition the (a : area) (b : Browser) : Storage :=
  match a with Local => localStorage b | Session => sessionStorage b end.

Definition put (a : area) (s : Storage) (b : Browser) : Browser :=
  match a with
  | Local => mkBrowser s (sessionStorage b)
  | Session => mkBrowser (localStorage b) s
  end.

End WebStorage.

Import WebStorage.

(* ===================================================================== *)
(** * js/storage-manager.js: class StorageManager                        *)
(* ===================================================================== *)

Module StorageManager.

Record t : Type := mkStorageManager {
  storageKey : jsstring;
  fallbackToSession : bool
}.

(** The object and the browser it runs in. *)
Record world : Type := mkWorld { this : t; browser : Browser }.

(** [constructor()] *)
Definition new : t := mkStorageManager (str "reading-tasks") false.

Definition storage_test : jsstring := str "__storage_test__".

(** [isStorageAvailable()] *)
Definition isStorageAvailable (b : Browser) : bool * Browser :=
  match setItem storage_test storage_test (localStorage b) with
  | Ret l1 =>
      match removeItem storage_test l1 with
      | Ret l2 => (true, put Local l2 b)
      | Throw _ => (false, put Local l1 b)
      end
  | Throw _ => (false, b)
  end.

(** [getStorage()]: the area it returns.  Evaluating [sessionStorage] throws
    when that area is disabled. *)
Definition getStorage (w : world) : result area * world :=
  let '(available, b) := isStorageAvailable (browser w) in
  if available then (Ret Local, mkWorld (this w) b)
  else
    let w := mkWorld (mkStorageManager (storageKey (this w)) true) b in
    (if enabled (sessionStorage b) then Ret Session else Throw DOMException, w).

(** Own enumerable properties, as the spread [{...task}] copies them. *)
Definition index_key (i : nat) : jsstring :=
  match i with
  | O => [48]
  | _ => (fix go (fuel : nat) (n : nat) (acc : jsstring) : jsstring :=
            match fuel, n with
            | _, O => acc
            | O, _ => acc
            | S fuel, _ => go fuel (n / 10)%nat (48 + N.of_nat (n mod 10) :: acc)
            end) i i []
  end.

Definition spread (v : value) : object :=
  match v with
  | VObj props => props
  | VArr items => imap (fun i x => (index_key i, x)) items
  | VStr s => imap (fun i c => (index_key i, VStr [c])) s
  | _ => []
  end.

(** [v.k] for a property [k] that only an object of the store has. *)
Definition prop (v : value) (k : jsstring) : result value :=
  match v with
  | VUndef | VNull => Throw TypeError
  | VObj props => Ret (get props k)
  | _ => Ret VUndef
  end.

(** The callback of [tasks.map] in [loadTasks]. *)
Definition revive (task : value) : result object :=
  createdAt ← prop task (str "createdAt");
  completedAt ← prop task (str "completedAt");
  Ret (set (set (spread task) (str "createdAt") (VDate (new_Date createdAt)))
           (str "completedAt")
           (if truthy completedAt then VDate (new_Date completedAt) else VNull)).

(** [tasks.map(...)]: only an array has the method. *)
Definition map_tasks (tasks : value) : result (list object) :=
  match tasks with
  | VArr items => mapM revive items
  | _ => Throw TypeError
  end.

(** The [try] block of [loadTasks]. *)
Definition loadTasks_try (w : world) : result (list object) * world :=
  let '(storage, w) := getStorage w in
  (storage ← storage;
   tasksJson ← getItem (storageKey (this w)) (the storage (browser w));
   match tasksJson with
   | None | Some [] => Ret []
   | Some tasksJson => tasks ← JSON_parse tasksJson; map_tasks tasks
   end, w).

(** [loadTasks()] *)
Definition loadTasks (w : world) : result (list object) * world :=
  let '(r, w) := loadTasks_try w in
  (try_catch r (fun _ => Ret []), w).

(** [saveTasks(tasks)] *)
Definition saveTasks (tasks : list object) (w : world) : result bool * world :=
  let '(storage, w) := getStorage w in
  match storage with
  | Throw _ => (Ret false, w)
  | Ret storage =>
      let tasksJson := default [] (stringify (VArr (map VObj tasks))) in
      match setItem (storageKey (this w)) tasksJson (the storage (browser w)) with
      | Ret s => (Ret true, mkWorld (this w) (put storage s (browser w)))
      | Throw _ => (Ret false, w)
      end
  end.

Definition has_key (o : object) (k : jsstring) : bool :=
  bool_decide (k ∈ map fst o).

Definition is_date_or_string (v : value) : bool :=
  match v with VDate _ | VStr _ => true | _ => false end.

(** [v.length > n] for the values a task holds. *)
Definition longer_than (v : value) (n : nat) : bool :=
  match v with
  | VStr s => (n <? length s)%nat
  | VArr l => (n <? length l)%nat
  | _ => false
  end.

(** [validateTaskData(task)] on an object. *)
Definition validateTaskData (task : object) : bool :=
  forallb (has_key task) [str "id"; str "bookTitle"; str "status"; str "createdAt"]
  && match get task (str "id") with
     | VStr (_ :: _) => true
     | _ => false
     end
  && match get task (str "bookTitle") with
     | VStr s => negb (bool_decide (trim s = []))
     | _ => false
     end
  && (is_string (get task (str "status")) (str "active")
      || is_string (get task (str "status")) (str "completed"))
  && is_date_or_string (get task (str "createdAt"))
  && match get task (str "completedAt") with
     | VNull | VDate _ | VStr _ => true
     | _ => false
     end
  && negb (longer_than (get task (str "bookTitle")) 100)
  && negb (truthy (get task (str "author"))
           && longer_than (get task (str "author")) 50).

(** [sanitizeString(str)] *)
Definition sanitizeString (v : value) : jsstring :=
  match v with
  | VStr s =>
      let sanitized := s in
      let sanitized := trim sanitized in
      let sanitized :=
        fst (replace sanitized
               (literal (CharSet false [CRange 0 31; CChar 127]) false true) []) in
      let sanitized :=
        fst (replace sanitized
               (literal (Seqs [Chr 60; Star (CharSet true [CChar 62]); Chr 62])
                        false true) []) in
      let sanitized :=
        fst (replace sanitized
               (literal (Plus (CharSet false [CSpace])) false true) (str " ")) in
      sanitized
  | _ => []
  end.

(** [sanitizeTaskData(task)] *)
Definition sanitizeTaskData (task : object) : object :=
  [ (str "id", VStr (sanitizeString (get task (str "id"))));
    (str "bookTitle", VStr (sanitizeString (get task (str "bookTitle"))));
    (str "author",
       if truthy (get task (str "author"))
       then VStr (sanitizeString (get task (str "author"))) else VStr []);
    (str "status", get task (str "status"));
    (str "createdAt", get task (str "createdAt"));
    (str "completedAt",
       if truthy (get task (str "completedAt"))
       then get task (str "completedAt") else VNull) ].

(** [tasks.findIndex(t => t.id === id)] for a string [id]. *)
Fixpoint findIndex (id : jsstring) (tasks : list object) : option nat :=
  match tasks with
  | [] => None
  | t :: rest =>
      if is_string (get t (str "id")) id then Some O
      else S <$> findIndex id rest
  end.

Definition id_string (task : object) : jsstring :=
  match get task (str "id") with VStr s => s | _ => [] end.

(** [saveTask(task)] *)
Definition saveTask (task : object) (w : world) : result bool * world :=
  if negb (validateTaskData task) then (Ret false, w)
  else
    let '(tasks, w) := loadTasks w in
    match tasks with
    | Throw e => (Throw e, w)
    | Ret tasks =>
        let existingIndex := findIndex (id_string task) tasks in
        let sanitizedTask := sanitizeTaskData task in
        let tasks :=
          match existingIndex with
          | Some i => <[i := sanitizedTask]> tasks
          | None => tasks ++ [sanitizedTask]
          end in
        saveTasks tasks w
    end.

(** [updateTask(taskId, updates)] *)
Definition updateTask (taskId : jsstring) (updates : object) (w : world)
  : result bool * world :=
  let '(tasks, w) := loadTasks w in
  match tasks with
  | Throw e => (Throw e, w)
  | Ret tasks =>
      match findIndex taskId tasks with
      | None => (Ret false, w)
      | Some taskIndex =>
          saveTasks (alter (fun t => merge t updates) taskIndex tasks) w
      end
  end.

(** [deleteTask(taskId)] *)
Definition deleteTask (taskId : jsstring) (w : world) : result bool * world :=
  let '(tasks, w) := loadTasks w in
  match tasks with
  | Throw e => (Throw e, w)
  | Ret tasks =>
      let filteredTasks :=
        filter (fun t => is_string (get t (str "id")) taskId = false) tasks in
      if (length filteredTasks =? length tasks)%nat then (Ret false, w)
      else saveTasks filteredTasks w
  end.

(** [clearAllTasks()] *)
Definition clearAllTasks (w : world) : result bool * world :=
  let '(storage, w) := getStorage w in
  match storage with
  | Throw _ => (Ret false, w)
  | Ret storage =>
      match removeItem (storageKey (this w)) (the storage (browser w)) with
      | Ret s => (Ret true, mkWorld (this w) (put storage s (browser w)))
      | Throw _ => (Ret false, w)
      end
  end.

Record storageInfo : Type := mkStorageInfo {
  taskCount : nat;
  storageType : area;
  isAvailable : bool
}.

(** [getStorageInfo()] *)
Definition getStorageInfo (w : world) : result storageInfo * world :=
  let '(storage, w) := getStorage w in
  match storage with
  | Throw e => (Throw e, w)
  | Ret _ =>
      let '(tasks, w) := loadTasks w in
      match tasks with
      | Throw e => (Throw e, w)
      | Ret tasks =>
          let '(available, b) := isStorageAvailable (browser w) in
          (Ret (mkStorageInfo (length tasks)
                  (if fallbackToSession (this w) then Session else Local)
                  available),
           mkWorld (this w) b)
      end
  end.

End StorageManager.

(* ===================================================================== *)
(** * The storage manager as the task manager sees it                    *)
(* ===================================================================== *)

(** [TaskManager] receives its storage manager as a constructor argument
    and calls five methods on it.  [S] is whatever those methods act on. *)
Module Adapter.

Record t (S : Type) : Type := mkAdapter {
  loadTasks : S → result (list object) * S;
  saveTask : object → S → result bool * S;
  updateTask : jsstring → object → S → result bool * S;
  deleteTask : jsstring → S → result bool * S;
  clearAllTasks : S → result bool * S
}.
Arguments mkAdapter {S}.
Arguments loadTasks {S} _ _.
Arguments saveTask {S} _ _ _.
Arguments updateTask {S} _ _ _ _.
Arguments deleteTask {S} _ _ _.
Arguments clearAllTasks {S} _ _.

End Adapter.

(** The [StorageManager] of js/storage-manager.js. *)
Definition storageManager : Adapter.t StorageManager.world :=
  Adapter.mkAdapter StorageManager.loadTasks StorageManager.saveTask
    StorageManager.updateTask StorageManager.deleteTask
    StorageManager.clearAllTasks.

(** What both versions of [TaskManager] share: the fields, [loadTasks] and
    the queries. *)
Module Registry.

Record t : Type := mkTaskManager {
  tasks : list object;
  enableLogging : bool
}.

Definition with_tasks (this : t) (l : list object) : t :=
  mkTaskManager l (enableLogging this).

Definition has_id (taskId : jsstring) (task : object) : bool :=
  is_string (get task (str "id")) taskId.

(** [this.tasks.findIndex(t => t.id === taskId)] *)
Definition findIndex (taskId : jsstring) (l : list object) : option nat :=
  StorageManager.findIndex taskId l.

Section Methods.
Context {S : Type} (storageManager : Adapter.t S).

(** [loadTasks()] *)
Definition loadTasks (this : t) (s : S) : t * S :=
  match Adapter.loadTasks storageManager s with
  | (Ret l, s) => (with_tasks this l, s)
  | (Throw _, s) => (with_tasks this [], s)
  end.

(** [constructor(storageManager, options)] *)
Definition new (logging : bool) (s : S) : t * S :=
  loadTasks (mkTaskManager [] logging) s.

(** [refresh()] *)
Definition refresh (this : t) (s : S) : t * S := loadTasks this s.

End Methods.

(** [getAllTasks()]: a copy of the list. *)
Definition getAllTasks (this : t) : list object := tasks this.

(** [getActiveTasks()] and [getCompletedTasks()] *)
Definition getActiveTasks (this : t) : list object :=
  filter (fun task => is_string (get task (str "status")) (str "active") = true)
         (tasks this).

Definition getCompletedTasks (this : t) : list object :=
  filter (fun task => is_string (get task (str "status")) (str "completed") = true)
         (tasks this).

(** [getTask(taskId)] *)
Definition getTask (this : t) (taskId : jsstring) : option object :=
  List.find (has_id taskId) (tasks this).

(** The second argument of [updateTask] in [completeTask]. *)
Definition completion (updatedTaskData : object) : object :=
  [ (str "status", VStr (str "completed"));
    (str "completedAt", get updatedTaskData (str "completedAt")) ].

(** [Task.fromJSON(taskData)], [task.complete()], [task.toJSON()]. *)
Definition completed (e : env) (taskData : object) : object :=
  Task.toJSON (Task.complete e (Task.fromJSON e taskData)).

(** [new Task(prepared.data.bookTitle, prepared.data.author)] *)
Definition created (e : env) (p : TaskValidator.prepared) : Task.t :=
  Task.new e (VStr (TaskValidator.data_bookTitle p))
             (VStr (TaskValidator.data_author p)).

End Registry.

(* ===================================================================== *)
(** * js/task-manager.js: class TaskManager                              *)
(* ===================================================================== *)

(** This version changes [this.tasks] in place and undoes the change when
    the storage manager reports a failure. *)
Module TaskManager.

Export Registry.

Section Methods.
Context {S : Type} (storageManager : Adapter.t S).

(** [addTask(bookTitle, author = '')] *)
Definition addTask (e : env) (bookTitle author : value) (this : t) (s : S)
  : option object * t * S :=
  let prepared := TaskValidator.prepareTaskData bookTitle (Task.or_empty author) in
  if negb (TaskValidator.isValid (TaskValidator.validation_of prepared))
  then (None, this, s)
  else
    let task := created e prepared in
    let this := with_tasks this (tasks this ++ [Task.toJSON task]) in
    match Adapter.saveTask storageManager (Task.toJSON task) s with
    | (Ret true, s) => (Some (Task.toJSON task), this, s)
    | (Ret false, s) =>
        (None,
         with_tasks this
           (filter (fun t => is_string (get t (str "id")) (Task.generateUUID e) = false)
                   (tasks this)),
         s)
    | (Throw _, s) => (None, this, s)
    end.

(** [completeTask(taskId)] *)
Definition completeTask (e : env) (taskId : jsstring) (this : t) (s : S)
  : option object * t * S :=
  match findIndex taskId (tasks this) with
  | None => (None, this, s)
  | Some taskIndex =>
      match tasks this !! taskIndex with
      | None => (None, this, s)
      | Some taskData =>
          if is_string (get taskData (str "status")) (str "completed")
          then (None, this, s)
          else
            let updatedTaskData := completed e taskData in
            let this := with_tasks this (<[taskIndex := updatedTaskData]> (tasks this)) in
            match Adapter.updateTask storageManager taskId (completion updatedTaskData) s with
            | (Ret true, s) => (Some updatedTaskData, this, s)
            | (Ret false, s) =>
                (None, with_tasks this (<[taskIndex := taskData]> (tasks this)), s)
            | (Throw _, s) => (None, this, s)
            end
      end
  end.

(** [this.tasks.splice(i, 0, x)] *)
Definition splice_in {A} (i : nat) (x : A) (l : list A) : list A :=
  take i l ++ x :: drop i l.

(** [deleteTask(taskId)] *)
Definition deleteTask (taskId : jsstring) (this : t) (s : S) : bool * t * S :=
  match findIndex taskId (tasks this) with
  | None => (false, this, s)
  | Some taskIndex =>
      match tasks this !! taskIndex with
      | None => (false, this, s)
      | Some deletedTask =>
          let this := with_tasks this (delete taskIndex (tasks this)) in
          match Adapter.deleteTask storageManager taskId s with
          | (Ret true, s) => (true, this, s)
          | (Ret false, s) =>
              (false, with_tasks this (splice_in taskIndex deletedTask (tasks this)), s)
          | (Throw _, s) => (false, this, s)
          end
      end
  end.

(** [clearAllTasks()] *)
Definition clearAllTasks (this : t) (s : S) : bool * t * S :=
  match Adapter.clearAllTasks storageManager s with
  | (Ret true, s) => (true, with_tasks this [], s)
  | (_, s) => (false, this, s)
  end.

End Methods.

End TaskManager.

(* ===================================================================== *)
(** * The second copy of class TaskManager (kept with the task model)    *)
(* ===================================================================== *)

(** This version leaves [this.tasks] alone until the storage manager has
    succeeded and then loads the whole list again. *)
Module TaskManagerReload.

Export Registry.

Section Methods.
Context {S : Type} (storageManager : Adapter.t S).

(** [addTask(bookTitle, author = '')] *)
Definition addTask (e : env) (bookTitle author : value) (this : t) (s : S)
  : option object * t * S :=
  let prepared := TaskValidator.prepareTaskData bookTitle (Task.or_empty author) in
  if negb (TaskValidator.isValid (TaskValidator.validation_of prepared))
  then (None, this, s)
  else
    let task := created e prepared in
    match Adapter.saveTask storageManager (Task.toJSON task) s with
    | (Ret true, s) =>
        let '(this, s) := loadTasks storageManager this s in
        (Some (Task.toJSON task), this, s)
    | (_, s) => (None, this, s)
    end.

(** [completeTask(taskId)] *)
Definition completeTask (e : env) (taskId : jsstring) (this : t) (s : S)
  : option object * t * S :=
  match getTask this taskId with
  | None => (None, this, s)
  | Some taskData =>
      if is_string (get taskData (str "status")) (str "completed")
      then (None, this, s)
      else
        let updatedTaskData := completed e taskData in
        match Adapter.updateTask storageManager taskId (completion updatedTaskData) s with
        | (Ret true, s) =>
            let '(this, s) := loadTasks storageManager this s in
            (Some updatedTaskData, this, s)
        | (_, s) => (None, this, s)
        end
  end.

(** [deleteTask(taskId)] *)
Definition deleteTask (taskId : jsstring) (this : t) (s : S) : bool * t * S :=
  match getTask this taskId with
  | None => (false, this, s)
  | Some _ =>
      match Adapter.deleteTask storageManager taskId s with
      | (Ret true, s) =>
          let '(this, s) := loadTasks storageManager this s in
          (true, this, s)
      | (_, s) => (false, this, s)
      end
  end.

(** [clearAllTasks()] *)
Definition clearAllTasks (this : t) (s : S) : bool * t * S :=
  match Adapter.clearAllTasks storageManager s with
  | (Ret true, s) => (true, with_tasks this [], s)
  | (_, s) => (false, this, s)
  end.

End Methods.

End TaskManagerReload.

(* ===================================================================== *)
(** * js/share-manager.js: class ShareManager, the two texts             *)
(* ===================================================================== *)

Module ShareManager.

Definition maxTweetLength : nat := 280.

(** The patterns of [dangerousPatterns], each with the flags [gi]. *)
Definition dangerous_sources : list regex :=
  [ InputValidator.element_pattern "script";
    Lit (str "javascript:");
    Lit (str "vbscript:");
    Lit (str "data:text/html");
    Seqs [ Lit (str "on"); Plus (CharSet false [CWord]); InputValidator.spaces; Chr 61 ] ].

(** [sanitizeForShare(text)]. *)
Definition sanitizeForShare (text : value) : jsstring :=
  match text with
  | VStr text =>
      let sanitized := text in
      let sanitized := trim sanitized in
      let sanitized :=
        fst (replace sanitized
               (literal (CharSet false [CRange 0 31; CChar 127]) false true) []) in
      let sanitized :=
        fold_left (fun s pattern => fst (replace s (literal pattern true true) []))
                  dangerous_sources sanitized in
      let sanitized :=
        fst (replace sanitized
               (literal (Plus (CharSet false [CSpace])) false true) (str " ")) in
      let sanitized :=
        fst (replace sanitized (literal (Seq (Chr 13) (Chr 10)) false true) [10]) in
      fst (replace sanitized (literal (Chr 13) false true) [10])
  | _ => []
  end.

(** The pieces of the two template literals, as UTF-16 code units. *)
Definition declaration_head : jsstring :=
  [35; 32; 35501; 26360; 23459; 35328; 10; 10; 12300].
Definition declaration_tail : jsstring :=
  [10; 10; 35501; 26360; 38283; 22987; 65281; 55357; 56538].
Definition completion_head : jsstring :=
  [55357; 56534; 32; 35501; 20102; 22577; 21578; 10; 10; 12300].
Definition completion_tail : jsstring :=
  [10; 10; 35501; 12415; 32066; 12431; 12426; 12414; 12375; 12383; 65281; 10024;
   10; 10; 35; 35501; 26360; 35352; 37682].
Definition closing_bracket : jsstring := [12301].
Definition author_label : jsstring := [10; 33879; 32773; 58; 32].

(** The body that [generateDeclarationText] and [generateCompletionText]
    share: they differ in the text before the title ([head]) and in the
    text at the end ([tail]) only.  [author] is the argument after its
    default [''] has been applied. *)
Definition generateText (head tail : jsstring) (bookTitle author : value) : jsstring :=
  let sanitizedTitle := sanitizeForShare bookTitle in
  let sanitizedAuthor := if truthy author then sanitizeForShare author else [] in
  let text := head ++ sanitizedTitle ++ closing_bracket in
  let text :=
    if match sanitizedAuthor with [] => false | _ => true end
       && match trim sanitizedAuthor with [] => false | _ => true end
    then text ++ author_label ++ sanitizedAuthor else text in
  let text := text ++ tail in
  if (maxTweetLength <? length text)%nat then
    let baseText := head ++ sanitizedTitle ++ closing_bracket ++ tail in
    if (maxTweetLength <? length baseText)%nat then
      let availableLength :=
        (maxTweetLength - length (head ++ closing_bracket ++ tail))%nat in
      let truncatedTitle := take (availableLength - 3) sanitizedTitle ++ str "..." in
      head ++ truncatedTitle ++ closing_bracket ++ tail
    else baseText
  else text.

(** [generateDeclarationText(bookTitle, author = '')]. *)
Definition generateDeclarationText (bookTitle author : value) : jsstring :=
  generateText declaration_head declaration_tail bookTitle (Task.or_empty author).

(** [generateCompletionText(bookTitle, author = '')]. *)
Definition generateCompletionText (bookTitle author : value) : jsstring :=
  generateText completion_head completion_tail bookTitle (Task.or_empty author).

End ShareManager.

(* ===================================================================== *)
(** * Definitions used to state the properties                           *)
(* ===================================================================== *)

(** The stages of [InputValidator.sanitizeInput], each written directly on
    the list of code units, in the order in which the code applies them. *)
Module Stages.

Definition is_control (c : N) : bool := in_range 0 31 c || (c =? 127).

Definition strip_control (s : jsstring) : jsstring :=
  List.filter (fun c => negb (is_control c)) s.

(** Every run of white space becomes one space; [in_run] tells that the
    code unit before was white space. *)
Fixpoint collapse_spaces (in_run : bool) (s : jsstring) : jsstring :=
  match s with
  | [] => []
  | c :: t =>
      if is_space c then
        if in_run then collapse_spaces true t else 32 :: collapse_spaces true t
      else c :: collapse_spaces false t
  end.

(** Each pattern in turn is removed wherever it matches. *)
Definition remove_xss (s : jsstring) : jsstring :=
  fold_left (fun acc r => replace_go true r [] O None acc)
            InputValidator.xss_sources s.

Definition sanitize (s : jsstring) : jsstring :=
  remove_xss
    (collapse_spaces false
       (strip_control (InputValidator.escapeHtml (trim s)))).

(** What [TaskValidator.sanitizeInput] does to one code unit. *)
Definition task_escape (c : N) : jsstring :=
  if c =? 60 then str "&lt;"
  else if c =? 62 then str "&gt;"
  else if c =? 34 then str "&quot;"
  else if c =? 39 then str "&#x27;"
  else if c =? 47 then str "&#x2F;"
  else [c].

End Stages.

(** The sanitization pipeline in the words of the specification: trim,
    collapse white-space runs, strip control characters, escape the five
    HTML characters, remove the script and markup patterns. *)
Module Spec.

Definition escape_char (c : N) : jsstring :=
  if c =? 38 then str "&amp;"
  else if c =? 60 then str "&lt;"
  else if c =? 62 then str "&gt;"
  else if c =? 34 then str "&quot;"
  else if c =? 39 then str "&#x27;"
  else [c].

Definition sanitize (s : jsstring) : jsstring :=
  Stages.remove_xss
    (flat_map escape_char
       (Stages.strip_control
          (Stages.collapse_spaces false (trim s)))).

End Spec.

(** The tasks that the class makes: by its constructor, by [fromJSON], and
    from one of these by [complete]. *)
Inductive entity : Task.t → Prop :=
  | entity_new e bookTitle author : entity (Task.new e bookTitle author)
  | entity_fromJSON e data : entity (Task.fromJSON e data)
  | entity_complete e t : entity t → entity (Task.complete e t).

(** A string with no white space at either end. *)
Definition trimmed (s : jsstring) : Prop :=
  drop_space s = s ∧ drop_space (rev s) = rev s.

(** A pattern that is one character test. *)
Definition one_char (ic : bool) (r : regex) (ok : N → bool) : Prop :=
  ∀ k p, rmatch ic r k p = step_char ok k p.

(** The number of white-space code units in front. *)
Definition lead (s : jsstring) : nat := (length s - length (drop_space s))%nat.

(** Short names for the two things a call can change in what follows. *)
Abbreviation flag w := (StorageManager.fallbackToSession (StorageManager.this w)).
Abbreviation local w := (localStorage (StorageManager.browser w)).

(** What [loadTasks] makes of a stored record. *)
Definition revived (o : object) : object :=
  set (set o (str "createdAt") (VDate (new_Date (get o (str "createdAt")))))
      (str "completedAt")
      (if truthy (get o (str "completedAt"))
       then VDate (new_Date (get o (str "completedAt"))) else VNull).


(** What holds of every task the class makes. *)
Definition well_formed (t : Task.t) : Prop :=
  Task.author t ≠ VUndef
  ∧ TimeClip (Task.createdAt t) = Task.createdAt t
  ∧ ∀ tv, Task.completedAt t = Some tv → TimeClip tv = tv.

(** The pattern objects of a validator are those of the constructor, each
    with some [lastIndex]. *)
Definition same_patterns (this : InputValidator.t) : Prop :=
  map pattern (InputValidator.xssPatterns this) = InputValidator.xss_sources
  ∧ Forall (fun re => ignoreCase re = true ∧ global re = true)
           (InputValidator.xssPatterns this).

(** The calls that can be made on a storage manager. *)
Inductive operation : Type :=
  | LoadTasks
  | SaveTasks (tasks : list object)
  | SaveTask (task : object)
  | UpdateTask (taskId : jsstring) (updates : object)
  | DeleteTask (taskId : jsstring)
  | ClearAllTasks
  | GetStorageInfo.

(** The state a call leaves behind. *)
Definition after (o : operation) (w : StorageManager.world) : StorageManager.world :=
  match o with
  | LoadTasks => snd (StorageManager.loadTasks w)
  | SaveTasks tasks => snd (StorageManager.saveTasks tasks w)
  | SaveTask task => snd (StorageManager.saveTask task w)
  | UpdateTask taskId updates => snd (StorageManager.updateTask taskId updates w)
  | DeleteTask taskId => snd (StorageManager.deleteTask taskId w)
  | ClearAllTasks => snd (StorageManager.clearAllTasks w)
  | GetStorageInfo => snd (StorageManager.getStorageInfo w)
  end.

(** The probe of [isStorageAvailable] as a test on the local area. *)
Definition probe (l : Storage) : bool :=
  enabled l
  && negb (quota l <? used (<[StorageManager.storage_test := StorageManager.storage_test]> (items l)))%nat.

(** The local area after a successful probe. *)
Definition probed (l : Storage) : Storage :=
  with_items l (delete StorageManager.storage_test (items l)).

(** An adapter whose [loadTasks], called again right away, returns the
    same list and changes nothing more. *)
Definition stable {S : Type} (A : Adapter.t S) : Prop :=
  ∀ s, Adapter.loadTasks A (snd (Adapter.loadTasks A s)) = Adapter.loadTasks A s.

(** Data for the examples. *)
Module Example.

Definition e0 : env := mkEnv (fun n => N.of_nat n mod 16) 1736935200123%Z.
Definition e1 : env := mkEnv (fun n => N.of_nat (n + 5) mod 16) 1736935260000%Z.

Definition roomy : Storage := mkStorage ∅ 5000 true.
Definition tight : Storage := mkStorage ∅ 40 true.

Definition world_of (l s : Storage) : StorageManager.world :=
  StorageManager.mkWorld StorageManager.new (mkBrowser l s).

(** A task as [addTask] stores it. *)
Definition task0 : object :=
  Task.toJSON (Task.new e0 (VStr (str "Kokoro")) (VStr (str "Soseki"))).

Definition id0 : jsstring := Task.generateUUID e0.


Definition manager_of (l : list object) : Registry.t :=
  Registry.mkTaskManager l true.

End Example.



(* ===================================================================== *)
(** * Definitions used to state further properties                       *)
(* ===================================================================== *)

(** The ids of a list of records, as [t.id === taskId] compares them. *)
Definition ids (l : list object) : list value := map (fun t => get t (str "id")) l.

(** A hexadecimal digit in lower case. *)
Definition is_hex (c : N) : bool := in_range 48 57 c || in_range 97 102 c.

(** A string of the form [xxxxxxxx-xxxx-4xxx-yxxx-xxxxxxxxxxxx], with a
    hexadecimal digit for every [x] and one of [8], [9], [a], [b] for [y]. *)
Fixpoint fits (template s : jsstring) : bool :=
  match template, s with
  | [], [] => true
  | t :: template, c :: s =>
      (if t =? 120 then is_hex c
       else if t =? 121 then (c =? 56) || (c =? 57) || (c =? 97) || (c =? 98)
       else c =? t)
      && fits template s
  | _, _ => false
  end.

(** The form of a version 4 UUID. *)
Definition uuid_v4 (s : jsstring) : bool :=
  fits (str "xxxxxxxx-xxxx-4xxx-yxxx-xxxxxxxxxxxx") s.

(** Removing every [<...>]: [skipping] says that the code units up to the
    next [>] belong to a tag. *)
Fixpoint strip_tags (skipping : bool) (s : jsstring) : jsstring :=
  match s with
  | [] => []
  | c :: t =>
      if skipping then (if c =? 62 then strip_tags false t else strip_tags true t)
      else if (c =? 60) && existsb (N.eqb 62) t then strip_tags true t
      else c :: strip_tags false t
  end.

(** The number of code units in front of the first [>]. *)
Fixpoint until_gt (s : jsstring) : nat :=
  match s with
  | [] => O
  | c :: t => if c =? 62 then O else S (until_gt t)
  end.

(** The pattern [<[^>]*>] of [sanitizeString]. *)
Definition tag : regex := Seqs [Chr 60; Star (CharSet true [CChar 62]); Chr 62].

(** No [<] has a [>] somewhere after it. *)
Fixpoint no_tag (s : jsstring) : bool :=
  match s with
  | [] => true
  | c :: t => negb ((c =? 60) && existsb (N.eqb 62) t) && no_tag t
  end.

(** Every white-space code unit is a space with no white space after it. *)
Fixpoint single_spaced (s : jsstring) : bool :=
  match s with
  | [] => true
  | c :: t =>
      (negb (is_space c)
       || ((c =? 32) && negb (match t with d :: _ => is_space d | [] => false end)))
      && single_spaced t
  end.

(** What starts a formula in a spreadsheet. *)
Definition formula_start (c : N) : bool :=
  (c =? 61) || (c =? 43) || (c =? 45) || (c =? 64).

(** Every rule sanitizes and has no pattern of its own, as the rules of
    the constructor do. *)
Definition plain_rules (this : InputValidator.t) : Prop :=
  ∀ fieldName rule, InputValidator.validationRules this !! fieldName = Some rule →
    InputValidator.sanitize rule = true ∧ InputValidator.rpattern rule = None.

(** The names that every object inherits from [Object.prototype]: looked
    up in an object they are found although they are not properties of
    its own, and [__proto__] is not assigned as a property. *)
Definition inherited : list jsstring :=
  [ str "constructor"; str "hasOwnProperty"; str "isPrototypeOf";
    str "propertyIsEnumerable"; str "toLocaleString"; str "toString";
    str "valueOf"; str "__proto__"; str "__defineGetter__";
    str "__defineSetter__"; str "__lookupGetter__"; str "__lookupSetter__" ].

(** The field names of a form: distinct, and none of them inherited. *)
Definition field_names (formData : list (jsstring * jsstring)) : Prop :=
  NoDup (map fst formData) ∧ Forall (fun k => k ∉ inherited) (map fst formData).

(** The fields of a form, each judged by [validateField]. *)
Definition judged (this : InputValidator.t) (formData : list (jsstring * jsstring))
  : list (jsstring * InputValidator.fieldResult) :=
  map (fun kv => (fst kv, fst (InputValidator.validateField this (fst kv) (snd kv)))) formData.

(** A code unit that starts or delimits markup. *)
Definition markup (c : N) : bool :=
  (c =? 38) || (c =? 60) || (c =? 62) || (c =? 34) || (c =? 39).

(** One of the five characters that [TaskValidator.sanitizeInput] escapes. *)
Definition escaped_by_task (c : N) : bool :=
  (c =? 60) || (c =? 62) || (c =? 34) || (c =? 39) || (c =? 47).

(** The test that the day [doe] of a 400-year era falls on a day of a
    month of one of its years. *)
Definition day_of_era_ok (doe : Z) : bool :=
  let yoe := ((doe - doe / 1460 + doe / 36524 - doe / 146096) / 365)%Z in
  let doy := (doe - (365 * yoe + yoe / 4 - yoe / 100))%Z in
  let mp := ((5 * doy + 2) / 153)%Z in
  let d := (doy - (153 * mp + 2) / 5 + 1)%Z in
  ((0 <=? yoe) && (yoe <=? 399) && (0 <=? mp) && (mp <=? 11)
   && (1 <=? d) && (d <=? 31))%Z.

(** [f] holds of the [n] integers from [z] on. *)
Fixpoint all_from (f : Z → bool) (n : nat) (z : Z) : bool :=
  match n with
  | O => true
  | S n' => f z && all_from f n' (z + 1)
  end.

(** A string, a boolean or [null]: what [JSON.parse] gives back as
    [JSON.stringify] got it. *)
Definition plain (v : value) : bool :=
  match v with VNull | VBool _ | VStr _ => true | _ => false end.

(** A date with a time value. *)
Definition valid_date (v : value) : bool :=
  match v with
  | VDate (Some t) => bool_decide (TimeClip (Some t) = Some t)
  | _ => false
  end.

(** What [JSON.parse] reads where [JSON.stringify] wrote [v]. *)
Definition to_json (v : value) : value :=
  match v with
  | VDate (Some t) => VStr (toISOString t)
  | _ => v
  end.

(** The same for every property of a record. *)
Definition json_image (o : object) : object :=
  map (fun kv => (fst kv, to_json (snd kv))) o.

(** The text of a property and of an object. *)
Definition member_text (kv : jsstring * value) : jsstring :=
  quote (fst kv) ++ [58] ++ default [] (stringify (snd kv)).

Definition object_text (o : object) : jsstring :=
  [123] ++ join [44] (map member_text o) ++ [125].

(** A record whose properties can all be written and read back. *)
Definition writable (o : object) : Prop :=
  Forall (fun kv => plain (snd kv) || valid_date (snd kv) = true) o
  ∧ NoDup (map fst o) ∧ o ≠ [].

Definition is_null (v : value) : bool :=
  match v with VNull => true | _ => false end.

(** A record as [loadTasks] returns it after [saveTasks] wrote it:
    distinct keys, a valid date at [createdAt], [null] or a valid date at
    [completedAt], and strings, booleans or [null] elsewhere. *)
Definition stored_form (o : object) : bool :=
  bool_decide (NoDup (map fst o))
  && valid_date (get o (str "createdAt"))
  && (is_null (get o (str "completedAt"))
      || valid_date (get o (str "completedAt")))
  && forallb (fun kv =>
                bool_decide (fst kv = str "createdAt")
                || bool_decide (fst kv = str "completedAt")
                || plain (snd kv)) o.

(** What the area [a] holds under the key of the storage manager. *)
Definition content (a : area) (w : StorageManager.world) : option jsstring :=
  items (the a (StorageManager.browser w))
    !! StorageManager.storageKey (StorageManager.this w).

(** The key is the one the constructor sets. *)
Definition keyed (w : StorageManager.world) : Prop :=
  StorageManager.storageKey (StorageManager.this w) = str "reading-tasks".

(** A code unit that no stage of [sanitizeString] touches. *)
Definition tame (c : N) : bool :=
  negb (is_space c) && negb (Stages.is_control c) && negb (c =? 60).


(* ===================================================================== *)
(** * Strings and patterns                                               *)
(* ===================================================================== *)

Section StringFacts.

Lemma drop_space_head (s : jsstring) :
  drop_space s = s ↔ match s with c :: _ => is_space c = false | [] => True end.
Proof.
  destruct s as [|c t]; simpl; [done|].
  destruct (is_space c) eqn:Hc; split; try done.
  intros H. exfalso.
  assert (Hlen : (length (drop_space t) ≤ length t)%nat).
  { clear. induction t as [|a t IH]; simpl; [lia|].
    destruct (is_space a); simpl; lia. }
  rewrite H in Hlen. simpl in Hlen. lia.
Qed.

Lemma drop_space_idem (s : jsstring) : drop_space (drop_space s) = drop_space s.
Proof.
  induction s as [|c t IH]; simpl; [done|].
  destruct (is_space c) eqn:Hc; [done|]. simpl. by rewrite Hc.
Qed.

Lemma drop_space_suffix (s : jsstring) : ∃ p, s = p ++ drop_space s ∧ Forall (fun c => is_space c = true) p.
Proof.
  induction s as [|c t (p & Hp & Hall)]; simpl.
  - by exists [].
  - destruct (is_space c) eqn:Hc.
    + exists (c :: p). split; [simpl; congruence|]. by constructor.
    + by exists [].
Qed.

Lemma trim_trimmed (s : jsstring) : trimmed (trim s).
Proof.
  unfold trimmed, trim. rewrite rev_involutive, drop_space_idem. split; [|done].
  set (u := drop_space s).
  assert (Hu : drop_space u = u) by apply drop_space_idem.
  destruct (drop_space_suffix (rev u)) as (p & Hp & Hall).
  apply (f_equal (@rev N)) in Hp. rewrite rev_involutive, rev_app_distr in Hp.
  destruct (rev (drop_space (rev u))) as [|c t] eqn:Hr; [done|].
  apply drop_space_head. rewrite Hp in Hu.
  apply drop_space_head in Hu. exact Hu.
Qed.

Lemma trim_id (s : jsstring) : trimmed s → trim s = s.
Proof.
  intros [H1 H2]. unfold trim. by rewrite H1, H2, rev_involutive.
Qed.

Lemma flat_map_flat_map {A B C} (f : B → list C) (g : A → list B) (l : list A) :
  flat_map f (flat_map g l) = flat_map (fun a => flat_map f (g a)) l.
Proof.
  induction l as [|a l IH]; simpl; [done|].
  by rewrite flat_map_app, IH.
Qed.

(** Mapping code units to strings that keep their ends free of white space
    keeps a trimmed string trimmed. *)
Lemma trimmed_flat_map (f : N → jsstring) (s : jsstring) :
  (∀ c, is_space c = false →
        ∃ x m y m', f c = x :: m ∧ is_space x = false
                    ∧ rev (f c) = y :: m' ∧ is_space y = false) →
  trimmed s → trimmed (flat_map f s).
Proof.
  intros Hf [H1 H2]. split.
  - apply drop_space_head. destruct s as [|c t]; [done|].
    apply drop_space_head in H1.
    destruct (Hf c H1) as (x & m & _ & _ & Hx & Hsx & _). simpl. by rewrite Hx.
  - apply drop_space_head.
    destruct (rev s) as [|c t] eqn:Hr.
    { apply (f_equal (@rev N)) in Hr. rewrite rev_involutive in Hr. by subst. }
    apply drop_space_head in H2.
    assert (Hs : s = rev t ++ [c]).
    { apply (f_equal (@rev N)) in Hr. by rewrite rev_involutive in Hr. }
    destruct (Hf c H2) as (_ & _ & y & m' & _ & _ & Hy & Hsy).
    rewrite Hs, flat_map_app, rev_app_distr. simpl. rewrite app_nil_r, Hy. done.
Qed.

End StringFacts.

Section PatternFacts.

Lemma succ_minus (n : nat) : (S n - n)%nat = 1%nat.
Proof. lia. Qed.

Lemma one_char_Chr (c : N) : one_char false (Chr c) (fun x => c =? x).
Proof. by intros k p. Qed.

Lemma one_char_CharSet ic negated items :
  one_char ic (CharSet negated items) (charset_match ic negated items).
Proof. by intros k p. Qed.

Lemma match_here_one_char ic r ok b s :
  one_char ic r ok →
  match_here ic r (Pos b s) =
    match s with
    | c :: _ => if ok c then Some 1%nat else None
    | [] => None
    end.
Proof.
  intros Hr. unfold match_here. rewrite Hr. unfold step_char. simpl.
  destruct s as [|c t]; [done|]. destruct (ok c); [|done].
  simpl. by rewrite succ_minus.
Qed.

(** Replacing every match of a one-character pattern maps each code unit
    on its own. *)
Lemma replace_go_one_char ic r ok rep s b :
  one_char ic r ok →
  replace_go ic r rep O b s = flat_map (fun c => if ok c then rep else [c]) s.
Proof.
  intros Hr. revert b. induction s as [|c t IH]; intros b.
  - simpl. by rewrite (match_here_one_char _ _ ok).
  - cbn [replace_go flat_map]. rewrite (match_here_one_char _ _ ok) by done.
    destruct (ok c); by rewrite IH.
Qed.

Lemma replace_char_flat_map (c : N) (rep : string) (s : jsstring) :
  TaskValidator.replace_char c rep s =
    flat_map (fun x => if c =? x then str rep else [x]) s.
Proof.
  unfold TaskValidator.replace_char, replace. simpl.
  apply replace_go_one_char, one_char_Chr.
Qed.

End PatternFacts.

(* ===================================================================== *)
(** * Sanitization                                                       *)
(* ===================================================================== *)

Section Sanitization.

Ltac by_cases c n :=
  destruct (N.eqb_spec n c) as [<-|?]; [vm_compute; done|].

Lemma flat_map_singleton {A B} (f : A → list B) (a : A) : flat_map f [a] = f a.
Proof. simpl. apply app_nil_r. Qed.

Lemma task_escape_other (c : N) :
  60 ≠ c → 62 ≠ c → 34 ≠ c → 39 ≠ c → 47 ≠ c → Stages.task_escape c = [c].
Proof.
  intros H1 H2 H3 H4 H5. unfold Stages.task_escape.
  rewrite !(N.eqb_sym c).
  apply N.eqb_neq in H1, H2, H3, H4, H5. by rewrite H1, H2, H3, H4, H5.
Qed.

Lemma task_escape_steps (c : N) :
  flat_map
    (fun a0 =>
       flat_map
         (fun a1 =>
            flat_map
              (fun a2 =>
                 flat_map (fun x => if 47 =? x then str "&#x2F;" else [x])
                          (if 39 =? a2 then str "&#x27;" else [a2]))
              (if 34 =? a1 then str "&quot;" else [a1]))
         (if 62 =? a0 then str "&gt;" else [a0]))
    (if 60 =? c then str "&lt;" else [c])
  = Stages.task_escape c.
Proof.
  by_cases c 60. by_cases c 62. by_cases c 34. by_cases c 39. by_cases c 47.
  rewrite task_escape_other by done.
  repeat match goal with
         | H : ?n ≠ c |- _ => apply N.eqb_neq in H
         end.
  repeat (rewrite ?flat_map_singleton; cbv beta;
          match goal with
          | H : (?n =? c) = false |- _ => rewrite H; clear H
          end).
  by rewrite ?flat_map_singleton.
Qed.

(** [TaskValidator.sanitizeInput] trims and then maps each code unit on its
    own. *)
Lemma TaskValidator_sanitizeInput_eq (s : jsstring) :
  TaskValidator.sanitizeInput (VStr s) = flat_map Stages.task_escape (trim s).
Proof.
  unfold TaskValidator.sanitizeInput.
  rewrite !replace_char_flat_map.
  repeat rewrite flat_map_flat_map.
  apply flat_map_ext. intros c. apply task_escape_steps.
Qed.

Lemma task_escape_ends (c : N) :
  is_space c = false →
  ∃ x m y m', Stages.task_escape c = x :: m ∧ is_space x = false
              ∧ rev (Stages.task_escape c) = y :: m' ∧ is_space y = false.
Proof.
  intros Hc.
  destruct (N.eqb_spec 60 c) as [<-|?]; [by eexists _, _, _, _|].
  destruct (N.eqb_spec 62 c) as [<-|?]; [by eexists _, _, _, _|].
  destruct (N.eqb_spec 34 c) as [<-|?]; [by eexists _, _, _, _|].
  destruct (N.eqb_spec 39 c) as [<-|?]; [by eexists _, _, _, _|].
  destruct (N.eqb_spec 47 c) as [<-|?]; [by eexists _, _, _, _|].
  rewrite task_escape_other by done.
  by exists c, [], c, [].
Qed.

Lemma task_escape_fixed (c : N) :
  flat_map Stages.task_escape (Stages.task_escape c) = Stages.task_escape c.
Proof.
  by_cases c 60. by_cases c 62. by_cases c 34. by_cases c 39. by_cases c 47.
  rewrite task_escape_other by done.
  rewrite flat_map_singleton. by apply task_escape_other.
Qed.

Lemma control_class (c : N) :
  charset_match false false [CRange 0 31; CChar 127] c = Stages.is_control c.
Proof.
  unfold charset_match, Stages.is_control, citem_match.
  cbn [existsb citem_has andb xorb].
  rewrite (N.eqb_sym 127 c).
  destruct (in_range 0 31 c), (c =? 127); done.
Qed.

Lemma replace_control (s : jsstring) :
  fst (replace s (literal (CharSet false [CRange 0 31; CChar 127]) false true) [])
  = Stages.strip_control s.
Proof.
  unfold replace. simpl.
  rewrite (replace_go_one_char _ _ (charset_match false false [CRange 0 31; CChar 127]))
    by apply one_char_CharSet.
  unfold Stages.strip_control.
  induction s as [|c t IH]; cbn [flat_map List.filter]; [done|].
  rewrite control_class, IH. by destruct (Stages.is_control c).
Qed.

Lemma space_class (c : N) :
  charset_match false false [CSpace] c = is_space c.
Proof.
  unfold charset_match, citem_match. cbn [existsb citem_has andb xorb].
  by destruct (is_space c).
Qed.

Lemma drop_space_length (s : jsstring) : (length (drop_space s) ≤ length s)%nat.
Proof.
  induction s as [|c t IH]; simpl; [lia|].
  destruct (is_space c); simpl; lia.
Qed.

Lemma space_matcher (k : pos → option pos) (p : pos) :
  rmatch false (CharSet false [CSpace]) k p = step_char is_space k p.
Proof.
  cbn [rmatch]. unfold step_char. destruct (rest p) as [|c t]; [done|].
  by rewrite space_class.
Qed.

(** The star of a white-space test swallows the white space in front. *)
Lemma star_space (m : (pos → option pos) → pos → option pos)
  (n : nat) (b : option N) (s : jsstring) :
  (∀ k p, m k p = step_char is_space k p) →
  (length s ≤ n)%nat →
  ∃ b', star_loop m Some n (Pos b s) = Some (Pos b' (drop_space s)).
Proof.
  intros Hm. revert b s. induction n as [|n IH]; intros b s Hn.
  - destruct s; [|simpl in Hn; lia]. by exists b.
  - cbn [star_loop]. rewrite Hm. unfold step_char. cbn [rest].
    destruct s as [|c t]; [by exists b|].
    cbn [drop_space]. destruct (is_space c) eqn:Hc; [|by exists b].
    assert (Hlt : (length t <? length (c :: t))%nat = true)
      by (apply Nat.ltb_lt; simpl; lia).
    rewrite Hlt.
    destruct (IH (Some c) t) as [b' Hb']; [simpl in Hn; lia|].
    rewrite Hb'. by exists b'.
Qed.

Lemma match_here_spaces (b : option N) (s : jsstring) :
  match_here false (Plus (CharSet false [CSpace])) (Pos b s) =
    match s with
    | c :: t => if is_space c then Some (S (lead t)) else None
    | [] => None
    end.
Proof.
  unfold match_here, Plus. cbn [rmatch]. unfold step_char. cbn [rest].
  destruct s as [|c t]; [done|].
  rewrite space_class. destruct (is_space c) eqn:Hc; [|done].
  cbn [rest].
  match goal with
  | |- context [star_loop ?m Some _ _] =>
      destruct (star_space m (length t) (Some c) t) as [b' Hb'];
        [intros k p; apply (space_matcher k p)|done|]
  end.
  rewrite Hb'. cbn [rest]. unfold lead.
  pose proof (drop_space_length t). simpl. f_equal. lia.
Qed.

Lemma replace_go_spaces (s : jsstring) :
  (∀ b, replace_go false (Plus (CharSet false [CSpace])) (str " ") O b s
        = Stages.collapse_spaces false s)
  ∧ (∀ b, replace_go false (Plus (CharSet false [CSpace])) (str " ") (lead s) b s
          = Stages.collapse_spaces true s).
Proof.
  induction s as [|c t [IH0 IH1]].
  - split; intros b; simpl; by rewrite ?match_here_spaces.
  - assert (H0 : ∀ b, replace_go false (Plus (CharSet false [CSpace])) (str " ") O b (c :: t)
                      = Stages.collapse_spaces false (c :: t)).
    { intros b. cbn [replace_go]. rewrite match_here_spaces.
      cbn [Stages.collapse_spaces].
      destruct (is_space c); [by rewrite IH1|by rewrite IH0]. }
    split; [done|]. intros b.
    destruct (is_space c) eqn:Hc.
    + assert (Hl : lead (c :: t) = S (lead t)).
      { unfold lead. simpl. rewrite Hc. pose proof (drop_space_length t). lia. }
      rewrite Hl. cbn [replace_go Stages.collapse_spaces]. rewrite Hc. apply IH1.
    + assert (Hl : lead (c :: t) = O).
      { unfold lead. simpl. rewrite Hc. simpl. lia. }
      rewrite Hl, H0. cbn [Stages.collapse_spaces]. by rewrite Hc.
Qed.

Lemma replace_spaces (s : jsstring) :
  fst (replace s (literal (Plus (CharSet false [CSpace])) false true) (str " "))
  = Stages.collapse_spaces false s.
Proof. unfold replace. simpl. apply replace_go_spaces. Qed.

(** The loop over the pattern objects removes each pattern in turn and
    leaves every [lastIndex] at 0, whatever it was. *)
Lemma replace_each_eq (pats : list RegExp) (s : jsstring) :
  Forall (fun re => ignoreCase re = true ∧ global re = true) pats →
  InputValidator.replace_each pats s =
    (fold_left (fun acc r => replace_go true r [] O None acc) (map pattern pats) s,
     map (fun re => set_lastIndex re 0) pats).
Proof.
  intros H. revert s. induction H as [|re pats [Hic Hg] _ IH]; intros s; [done|].
  simpl. unfold replace at 1. rewrite Hg, Hic. by rewrite IH.
Qed.

Lemma sanitizeInput_eq (this : InputValidator.t) (s : jsstring) :
  same_patterns this →
  InputValidator.sanitizeInput this s =
    (Stages.sanitize s,
     InputValidator.mkValidator (InputValidator.validationRules this)
       (map (fun re => set_lastIndex re 0) (InputValidator.xssPatterns this))).
Proof.
  intros [Hsrc Hflags]. unfold InputValidator.sanitizeInput.
  rewrite replace_control, replace_spaces, replace_each_eq by done.
  by rewrite Hsrc.
Qed.

Lemma new_same_patterns : same_patterns InputValidator.new.
Proof. split; [done|]. repeat constructor. Qed.

(** Resetting every [lastIndex] gives back the pattern objects of a fresh
    instance. *)
Lemma reset_patterns (this : InputValidator.t) :
  same_patterns this →
  map (fun re => set_lastIndex re 0) (InputValidator.xssPatterns this)
  = InputValidator.xssPatterns InputValidator.new.
Proof.
  intros [Hsrc Hflags]. change (InputValidator.xssPatterns InputValidator.new)
    with (map (fun r => literal r true true) InputValidator.xss_sources).
  rewrite <- Hsrc, map_map. apply map_ext_Forall.
  eapply Forall_impl; [exact Hflags|]. intros [r ic g li] [Hic Hg]. simpl in *. by subst.
Qed.

(** With a rule that sanitizes and has no pattern of its own, the result
    of [validateField] does not depend on the [lastIndex] values the
    instance carries: [sanitizeInput] has reset them before [containsXSS]
    runs. *)
Lemma validateField_after_sanitizing (this this' : InputValidator.t) fieldName value :
  same_patterns this → same_patterns this' →
  InputValidator.validationRules this = InputValidator.validationRules this' →
  (∀ rule, InputValidator.validationRules this !! fieldName = Some rule →
           InputValidator.sanitize rule = true ∧ InputValidator.rpattern rule = None) →
  fst (InputValidator.validateField this fieldName value)
  = fst (InputValidator.validateField this' fieldName value).
Proof.
  intros H H' Hrules Hrule. unfold InputValidator.validateField.
  rewrite <- Hrules.
  destruct (InputValidator.validationRules this !! fieldName) as [rule|] eqn:Hl; [|done].
  destruct (Hrule rule eq_refl) as [Hs Hp]. rewrite Hs, Hp.
  rewrite !sanitizeInput_eq by done.
  rewrite !reset_patterns by done. by rewrite <- Hrules.
Qed.

End Sanitization.


(** C2 (as amended): [TaskValidator.sanitizeInput], the sanitizer of the
    task model, is idempotent: applied to its own result it returns that
    result, for every input. *)
Theorem C2_TaskValidator_sanitizeInput_idempotent (input : value) :
  TaskValidator.sanitizeInput (VStr (TaskValidator.sanitizeInput input))
  = TaskValidator.sanitizeInput input.
Proof.
  assert (Hs : ∀ s, TaskValidator.sanitizeInput (VStr (TaskValidator.sanitizeInput (VStr s)))
                    = TaskValidator.sanitizeInput (VStr s)).
  { intros s. rewrite !TaskValidator_sanitizeInput_eq.
    rewrite trim_id.
    - rewrite flat_map_flat_map. apply flat_map_ext, task_escape_fixed.
    - apply trimmed_flat_map; [apply task_escape_ends|apply trim_trimmed]. }
  destruct input as [| | | |s| | |].
  5: apply Hs.
  all: vm_compute; reflexivity.
Qed.

(** C2 (as stated) fails for [InputValidator.sanitizeInput]: sanitizing
    ["&"] gives ["&amp;"], and sanitizing that on the same instance gives
    ["&amp;amp;"]. *)
Lemma C2_InputValidator_sanitizeInput_not_idempotent :
  let once := InputValidator.sanitizeInput InputValidator.new (str "&") in
  let twice := InputValidator.sanitizeInput (snd once) (fst once) in
  fst once = str "&amp;" ∧ fst twice = str "&amp;amp;" ∧ fst twice ≠ fst once.
Proof. vm_compute. repeat split; done. Qed.

(** Removing a pattern once can put a new match together. *)
Example sanitizeInput_leaves_a_pattern :
  fst (InputValidator.sanitizeInput InputValidator.new (str "jajavascript:vascript:x"))
  = str "javascript:x".
Proof. vm_compute. done. Qed.

(** C3 (as amended): [InputValidator.sanitizeInput] applies, in this order:
    trim; the HTML escape of [&], [<] and [>] (and of the no-break space),
    which leaves both quotes alone; the removal of the control characters;
    the collapse of every white-space run to one space; the removal of the
    patterns, one after the other.  This holds whatever [lastIndex] the
    pattern objects carry, and every [lastIndex] is 0 afterwards.
    [TaskValidator.sanitizeInput] trims and escapes [<], [>], the two
    quotes and [/], and nothing else. *)
Theorem C3_sanitizeInput_order (this : InputValidator.t) (s : jsstring) :
  same_patterns this →
  fst (InputValidator.sanitizeInput this s)
  = Stages.remove_xss
      (Stages.collapse_spaces false
         (Stages.strip_control (InputValidator.escapeHtml (trim s))))
  ∧ Forall (fun re => lastIndex re = O)
           (InputValidator.xssPatterns (snd (InputValidator.sanitizeInput this s)))
  ∧ TaskValidator.sanitizeInput (VStr s) = flat_map Stages.task_escape (trim s).
Proof.
  intros H. rewrite sanitizeInput_eq by done. simpl. split; [done|]. split.
  - apply Forall_map. by apply Forall_true.
  - apply TaskValidator_sanitizeInput_eq.
Qed.

Lemma C3_sanitizeInput_order_witness :
  same_patterns InputValidator.new
  ∧ fst (InputValidator.sanitizeInput InputValidator.new (str " <b>  x "))
    = str "&lt;b&gt; x".
Proof.
  split; [apply new_same_patterns|].
  rewrite (proj1 (C3_sanitizeInput_order InputValidator.new (str " <b>  x ")
                    new_same_patterns)).
  vm_compute. reflexivity.
Defined.

(** C3 (as stated) fails: the code strips the control characters before it
    collapses white space, so a tab between two letters disappears where
    the stated order leaves a space; and the code escapes neither quote. *)
Lemma C3_stated_order_differs :
  fst (InputValidator.sanitizeInput InputValidator.new [97; 9; 98]) = str "ab"
  ∧ Spec.sanitize [97; 9; 98] = str "a b"
  ∧ fst (InputValidator.sanitizeInput InputValidator.new [97; 34; 39; 98]) = [97; 34; 39; 98]
  ∧ Spec.sanitize [97; 34; 39; 98] = str "a&quot;&#x27;b"
  ∧ fst (InputValidator.sanitizeInput InputValidator.new [97; 9; 98]) ≠ Spec.sanitize [97; 9; 98].
Proof. vm_compute. repeat split; done. Qed.

(** C9: on one instance, [containsXSS] answers [true] and then [false] for
    the same input: the first call leaves the matching pattern's
    [lastIndex] at 11, where the second call starts its search.  With a
    rule that does not sanitize, [validateField] itself rejects the input
    the first time and accepts it the second time. *)
Theorem C9_containsXSS_depends_on_earlier_calls :
  let v := InputValidator.new in
  let s := str "javascript:alert(1)" in
  fst (InputValidator.containsXSS v s) = true
  ∧ fst (InputValidator.containsXSS (snd (InputValidator.containsXSS v s)) s) = false
  ∧ map lastIndex (InputValidator.xssPatterns (snd (InputValidator.containsXSS v s)))
    = [0; 0; 0; 0; 0; 0; 11; 0; 0; 0]%nat
  ∧ let v := InputValidator.addValidationRule InputValidator.new (str "bookTitle")
               (InputValidator.mkRuleUpdate None None None None (Some false)) in
    let first := InputValidator.validateField v (str "bookTitle") (str "javascript:x") in
    let second := InputValidator.validateField (snd first) (str "bookTitle") (str "javascript:x") in
    InputValidator.errors (fst first) = [(str "bookTitle", InputValidator.E_xss)]
    ∧ InputValidator.isValid (fst second) = true.
Proof. vm_compute. repeat split; done. Qed.

(* ===================================================================== *)
(** * The task model                                                     *)
(* ===================================================================== *)

Section TaskFacts.

Lemma TimeClip_idem (tv : timevalue) : TimeClip (TimeClip tv) = TimeClip tv.
Proof.
  destruct tv as [t|]; [|done]. unfold TimeClip.
  destruct (Z.abs t <=? 8640000000000000)%Z eqn:H; [|done]. by rewrite H.
Qed.

Lemma new_Date_clipped (v : value) : TimeClip (new_Date v) = new_Date v.
Proof.
  destruct v as [| |b|l|s|tv|l|o]; cbn -[TimeClip]; try done.
  - by destruct b.
  - apply TimeClip_idem.
  - unfold Date_parse. apply TimeClip_idem.
  - apply TimeClip_idem.
Qed.

Lemma or_empty_defined (v : value) : Task.or_empty v ≠ VUndef.
Proof. by destruct v. Qed.

Lemma entity_well_formed (t : Task.t) : entity t → well_formed t.
Proof.
  induction 1 as [e b a|e data|e t _ (Ha & Hc & Hd)]; repeat split;
    cbn -[TimeClip new_Date truthy].
  - apply or_empty_defined.
  - apply TimeClip_idem.
  - done.
  - apply or_empty_defined.
  - apply new_Date_clipped.
  - intros tv. destruct (truthy _); [|done]. intros Heq.
    assert (tv = new_Date (get data (str "completedAt"))) as -> by congruence.
    apply new_Date_clipped.
  - done.
  - done.
  - intros tv Heq.
    assert (tv = TimeClip (Some (now e))) as -> by congruence.
    apply TimeClip_idem.
Qed.

Lemma get_toJSON (t : Task.t) :
  get (Task.toJSON t) (str "id") = Task.id t
  ∧ get (Task.toJSON t) (str "bookTitle") = Task.bookTitle t
  ∧ get (Task.toJSON t) (str "author") = Task.author t
  ∧ get (Task.toJSON t) (str "status") = Task.status t
  ∧ get (Task.toJSON t) (str "createdAt") = VDate (Task.createdAt t)
  ∧ get (Task.toJSON t) (str "completedAt")
    = match Task.completedAt t with Some tv => VDate tv | None => VNull end.
Proof. repeat split; reflexivity. Qed.

Lemma fromJSON_toJSON (e : env) (t : Task.t) :
  well_formed t → Task.fromJSON e (Task.toJSON t) = t.
Proof.
  intros (Ha & Hc & Hd). destruct t as [i b a st c d].
  cbn -[TimeClip] in Ha, Hc, Hd.
  unfold Task.fromJSON.
  destruct (get_toJSON (Task.mkTask i b a st c d)) as (-> & -> & -> & -> & -> & ->).
  cbn -[TimeClip].
  f_equal.
  - by destruct a.
  - done.
  - destruct d as [tv|]; cbn -[TimeClip]; [|done]. by rewrite (Hd tv).
Qed.

End TaskFacts.

(** C8: for every task made by the class (by the constructor, by
    [fromJSON], or by [complete] from such a task), [Task.fromJSON] of its
    [toJSON] is a task with the same [id], [bookTitle], [author], [status],
    [createdAt] and [completedAt]. *)
Theorem C8_fromJSON_toJSON (e : env) (t : Task.t) :
  entity t → Task.fromJSON e (Task.toJSON t) = t.
Proof. intros H. by apply fromJSON_toJSON, entity_well_formed. Qed.

Lemma C8_fromJSON_toJSON_witness :
  entity (Task.complete Example.e1 (Task.new Example.e0 (VStr (str "Kokoro")) VUndef))
  ∧ Task.fromJSON Example.e0
      (Task.toJSON (Task.complete Example.e1 (Task.new Example.e0 (VStr (str "Kokoro")) VUndef)))
    = Task.complete Example.e1 (Task.new Example.e0 (VStr (str "Kokoro")) VUndef).
Proof.
  split.
  - apply entity_complete, entity_new.
  - apply C8_fromJSON_toJSON. apply entity_complete, entity_new.
Defined.

(* ===================================================================== *)
(** * The task manager                                                   *)
(* ===================================================================== *)

Section RegistryFacts.

(** [findIndex] finds the place of what [find] finds. *)
Lemma findIndex_find (taskId : jsstring) (l : list object) :
  match Registry.findIndex taskId l with
  | Some i => ∃ t, l !! i = Some t ∧ List.find (Registry.has_id taskId) l = Some t
              ∧ Registry.has_id taskId t = true
  | None => List.find (Registry.has_id taskId) l = None
  end.
Proof.
  unfold Registry.findIndex.
  induction l as [|t l IH]; cbn [StorageManager.findIndex List.find]; [done|].
  fold (Registry.has_id taskId t).
  destruct (Registry.has_id taskId t) eqn:Ht.
  - by exists t.
  - destruct (StorageManager.findIndex taskId l) as [i|]; cbn [fmap option_fmap option_map]; [|done].
    destruct IH as (u & Hu & Hf & Hid). by exists u.
Qed.

Lemma findIndex_insert (taskId : jsstring) (l : list object) (i : nat) (u : object) :
  Registry.findIndex taskId l = Some i →
  Registry.has_id taskId u = true →
  Registry.findIndex taskId (<[i := u]> l) = Some i.
Proof.
  unfold Registry.findIndex. revert i.
  induction l as [|t l IH]; intros i; cbn [StorageManager.findIndex]; [done|].
  fold (Registry.has_id taskId t).
  destruct (Registry.has_id taskId t) eqn:Ht.
  - intros [= <-] Hu.
    change (<[O := u]> (t :: l)) with (u :: l).
    cbn [StorageManager.findIndex].
    fold (Registry.has_id taskId u). by rewrite Hu.
  - destruct (StorageManager.findIndex taskId l) as [j|]; cbn [fmap option_fmap option_map]; [|done].
    intros [= <-] Hu.
    change (<[S j := u]> (t :: l)) with (t :: <[j := u]> l).
    cbn [StorageManager.findIndex].
    fold (Registry.has_id taskId t). rewrite Ht.
    by rewrite (IH j eq_refl Hu).
Qed.

Lemma splice_in_delete {A} (l : list A) (i : nat) (x : A) :
  l !! i = Some x → TaskManager.splice_in i x (delete i l) = l.
Proof.
  unfold TaskManager.splice_in. revert i.
  induction l as [|a l IH]; intros [|i] H; try done.
  - simpl in H. by injection H as ->.
  - simpl. f_equal. by apply IH.
Qed.

Lemma filter_fresh (uuid : jsstring) (l : list object) (x : object) :
  (∀ t, t ∈ l → Registry.has_id uuid t = false) →
  Registry.has_id uuid x = true →
  filter (fun t => is_string (get t (str "id")) uuid = false) (l ++ [x]) = l.
Proof.
  intros Hl Hx. unfold Registry.has_id in *.
  induction l as [|t l IH].
  - cbn [app]. rewrite filter_cons_False, filter_nil; [done|]. by rewrite Hx.
  - cbn [app]. rewrite filter_cons_True.
    + f_equal. apply IH. intros u Hu. apply Hl. by right.
    + apply Hl. by left.
Qed.

Lemma has_id_created (e : env) (p : TaskValidator.prepared) :
  Registry.has_id (Task.generateUUID e) (Task.toJSON (Registry.created e p)) = true.
Proof.
  unfold Registry.has_id.
  rewrite (proj1 (get_toJSON _)). cbn [Registry.created Task.new Task.id is_string].
  by apply bool_decide_eq_true.
Qed.

Lemma has_id_completed (e : env) (taskId : jsstring) (taskData : object) :
  Registry.has_id taskId taskData = true →
  Registry.has_id taskId (Registry.completed e taskData) = true.
Proof.
  unfold Registry.has_id, Registry.completed. intros H.
  by rewrite (proj1 (get_toJSON _)).
Qed.

Lemma status_completed (e : env) (taskData : object) :
  get (Registry.completed e taskData) (str "status") = VStr (str "completed")
  ∧ get (Registry.completed e taskData) (str "completedAt")
    = VDate (TimeClip (Some (now e))).
Proof.
  unfold Registry.completed.
  destruct (get_toJSON (Task.complete e (Task.fromJSON e taskData)))
    as (_ & _ & _ & -> & _ & ->). done.
Qed.

End RegistryFacts.

Section TaskManagerFacts.
Context {S : Type} (A : Adapter.t S).

(** [completeTask] of js/task-manager.js for a task found in the list. *)
Lemma completeTask_found e taskId this s i taskData :
  Registry.findIndex taskId (Registry.tasks this) = Some i →
  Registry.tasks this !! i = Some taskData →
  TaskManager.completeTask A e taskId this s =
    if is_string (get taskData (str "status")) (str "completed")
    then (None, this, s)
    else
      let updated := Registry.completed e taskData in
      match Adapter.updateTask A taskId (Registry.completion updated) s with
      | (Ret true, s') =>
          (Some updated,
           Registry.with_tasks this (<[i := updated]> (Registry.tasks this)), s')
      | (Ret false, s') => (None, this, s')
      | (Throw _, s') =>
          (None, Registry.with_tasks this (<[i := updated]> (Registry.tasks this)), s')
      end.
Proof.
  intros Hi Ht. unfold TaskManager.completeTask. rewrite Hi, Ht.
  destruct (is_string _ _); [done|]. cbn zeta.
  destruct (Adapter.updateTask A _ _ s) as [[[|]|] s']; try done.
  destruct this as [l lg]. unfold Registry.with_tasks.
  cbn [Registry.tasks Registry.enableLogging] in *.
  rewrite list_insert_insert_eq. by rewrite (list_insert_id _ _ _ Ht).
Qed.

Lemma deleteTask_found taskId this s i deletedTask :
  Registry.findIndex taskId (Registry.tasks this) = Some i →
  Registry.tasks this !! i = Some deletedTask →
  TaskManager.deleteTask A taskId this s =
    match Adapter.deleteTask A taskId s with
    | (Ret true, s') =>
        (true, Registry.with_tasks this (delete i (Registry.tasks this)), s')
    | (Ret false, s') => (false, this, s')
    | (Throw _, s') =>
        (false, Registry.with_tasks this (delete i (Registry.tasks this)), s')
    end.
Proof.
  intros Hi Ht. unfold TaskManager.deleteTask. rewrite Hi, Ht. cbn zeta.
  destruct (Adapter.deleteTask A _ s) as [[[|]|] s']; try done.
  destruct this as [l lg]. unfold Registry.with_tasks.
  cbn [Registry.tasks Registry.enableLogging] in *.
  by rewrite (splice_in_delete _ _ _ Ht).
Qed.

End TaskManagerFacts.


(** C10: in both versions of the task manager, when the storage manager's
    [updateTask] returns false during [completeTask], the call returns
    [null] and [this.tasks] is the list it was before the call (the version
    of js/task-manager.js has put the old record back); when its
    [deleteTask] returns false during [deleteTask], the call returns
    [false] and [this.tasks] is the list it was before (the removed record
    has been spliced back in at its index). *)
Theorem C10_failed_update_or_delete_keeps_the_list
  {S : Type} (A : Adapter.t S) (e : env) (taskId : jsstring)
  (this : Registry.t) (s : S) :
  ((∀ taskData, Registry.getTask this taskId = Some taskData →
      fst (Adapter.updateTask A taskId
             (Registry.completion (Registry.completed e taskData)) s) = Ret false) →
   fst (TaskManager.completeTask A e taskId this s) = (None, this)
   ∧ fst (TaskManagerReload.completeTask A e taskId this s) = (None, this))
  ∧ (fst (Adapter.deleteTask A taskId s) = Ret false →
     fst (TaskManager.deleteTask A taskId this s) = (false, this)
     ∧ fst (TaskManagerReload.deleteTask A taskId this s) = (false, this)).
Proof.
  pose proof (findIndex_find taskId (Registry.tasks this)) as Hfind.
  split.
  - intros Hupd. unfold TaskManagerReload.completeTask.
    destruct (Registry.findIndex taskId (Registry.tasks this)) as [i|] eqn:Hi.
    + destruct Hfind as (t & Ht & Hf & _).
      rewrite (completeTask_found A e taskId this s i t Hi Ht).
      unfold Registry.getTask in *. rewrite Hf. specialize (Hupd t Hf).
      destruct (is_string _ _); [done|]. cbn zeta.
      destruct (Adapter.updateTask A _ _ s) as [[[|]|] s']; by simpl in Hupd |- *.
    + unfold TaskManager.completeTask, Registry.getTask. by rewrite Hi, Hfind.
  - intros Hdel. unfold TaskManagerReload.deleteTask.
    destruct (Registry.findIndex taskId (Registry.tasks this)) as [i|] eqn:Hi.
    + destruct Hfind as (t & Ht & Hf & _).
      rewrite (deleteTask_found A taskId this s i t Hi Ht).
      unfold Registry.getTask. rewrite Hf.
      destruct (Adapter.deleteTask A _ s) as [[[|]|] s']; by simpl in Hdel |- *.
    + unfold TaskManager.deleteTask, Registry.getTask. by rewrite Hi, Hfind.
Qed.



(** C4 (as amended): [Task.complete] has no guard: on every task,
    completed or not, it sets [status] to ['completed'] and [completedAt] to
    the current time and leaves the other fields.  The guard is in
    [TaskManager.completeTask]: for a record of [this.tasks] that is already
    completed it returns [null] and changes neither the list nor the store,
    in both versions.  In the version of js/task-manager.js a successful
    [completeTask] returns the record with [status] ['completed'] and
    [completedAt] the current time, and a second [completeTask] for the
    same id returns [null] and changes neither the list nor the store. *)
Theorem C4_complete_and_its_guard
  {S : Type} (A : Adapter.t S) (e : env) (taskId : jsstring)
  (this : Registry.t) (s : S) :
  (∀ t, Task.complete e t
        = Task.mkTask (Task.id t) (Task.bookTitle t) (Task.author t)
            (VStr (str "completed")) (Task.createdAt t)
            (Some (TimeClip (Some (now e)))))
  ∧ (∀ taskData,
       Registry.getTask this taskId = Some taskData →
       is_string (get taskData (str "status")) (str "completed") = true →
       TaskManager.completeTask A e taskId this s = (None, this, s)
       ∧ TaskManagerReload.completeTask A e taskId this s = (None, this, s))
  ∧ (∀ updated this' s',
       TaskManager.completeTask A e taskId this s = (Some updated, this', s') →
       get updated (str "status") = VStr (str "completed")
       ∧ get updated (str "completedAt") = VDate (TimeClip (Some (now e)))
       ∧ Registry.getTask this' taskId = Some updated
       ∧ ∀ e2, TaskManager.completeTask A e2 taskId this' s' = (None, this', s')).
Proof.
  pose proof (findIndex_find taskId (Registry.tasks this)) as Hfind.
  split; [done|]. split.
  - intros taskData Hget Hdone.
    unfold TaskManagerReload.completeTask. rewrite Hget, Hdone. split; [|done].
    destruct (Registry.findIndex taskId (Registry.tasks this)) as [i|] eqn:Hi.
    + destruct Hfind as (t & Ht & Hf & _).
      unfold Registry.getTask in Hget. rewrite Hf in Hget. injection Hget as ->.
      rewrite (completeTask_found A e taskId this s i taskData Hi Ht). by rewrite Hdone.
    + unfold Registry.getTask in Hget. by rewrite Hfind in Hget.
  - intros updated this' s' Hc.
    destruct (Registry.findIndex taskId (Registry.tasks this)) as [i|] eqn:Hi.
    2: { unfold TaskManager.completeTask in Hc. by rewrite Hi in Hc. }
    destruct Hfind as (t & Ht & Hf & Hid).
    rewrite (completeTask_found A e taskId this s i t Hi Ht) in Hc.
    destruct (is_string (get t _) _); [done|]. cbn zeta in Hc.
    destruct (Adapter.updateTask A _ _ s) as [[[|]|] s1]; try done.
    injection Hc as <- <- <-.
    destruct (status_completed e t) as [Hst Hat].
    assert (Hi' : Registry.findIndex taskId
                    (Registry.tasks (Registry.with_tasks this
                       (<[i := Registry.completed e t]> (Registry.tasks this)))) = Some i).
    { cbn [Registry.tasks Registry.with_tasks].
      apply findIndex_insert; [done|by apply has_id_completed]. }
    assert (Ht' : Registry.tasks (Registry.with_tasks this
                       (<[i := Registry.completed e t]> (Registry.tasks this))) !! i
                  = Some (Registry.completed e t)).
    { cbn [Registry.tasks Registry.with_tasks].
      apply list_lookup_insert_eq. by eapply lookup_lt_Some. }
    split; [done|]. split; [done|]. split.
    + pose proof (findIndex_find taskId
        (Registry.tasks (Registry.with_tasks this
           (<[i := Registry.completed e t]> (Registry.tasks this))))) as Hfind'.
      rewrite Hi' in Hfind'. destruct Hfind' as (u & Hu & Hfu & _).
      unfold Registry.getTask. rewrite Hfu. congruence.
    + intros e2. rewrite (completeTask_found A e2 taskId _ s1 i _ Hi' Ht').
      rewrite Hst. cbn [is_string].
      by rewrite (bool_decide_eq_true_2 _ (eq_refl (str "completed"))).
Qed.

Lemma C4_complete_and_its_guard_witness :
  let w := Example.world_of Example.roomy Example.roomy in
  let done := Task.toJSON (Task.complete Example.e0
                 (Task.new Example.e0 (VStr (str "Kokoro")) VUndef)) in
  let this := Example.manager_of [done] in
  let w0 := after (SaveTask Example.task0) w in
  let this0 := Example.manager_of [Example.task0] in
  let r := TaskManager.completeTask storageManager Example.e1 Example.id0 this0 w0 in
  Registry.getTask this Example.id0 = Some done
  ∧ is_string (get done (str "status")) (str "completed") = true
  ∧ TaskManager.completeTask storageManager Example.e1 Example.id0 this w = (None, this, w)
  ∧ TaskManagerReload.completeTask storageManager Example.e1 Example.id0 this w = (None, this, w)
  ∧ fst (fst r) = Some (Registry.completed Example.e1 Example.task0)
  ∧ get (Registry.completed Example.e1 Example.task0) (str "completedAt")
    = VDate (Some 1736935260000%Z)
  ∧ TaskManager.completeTask storageManager Example.e0 Example.id0 (snd (fst r)) (snd r)
    = (None, snd (fst r), snd r).
Proof.
  intros w done this w0 this0 r.
  assert (H1 : Registry.getTask this Example.id0 = Some done) by (vm_compute; reflexivity).
  assert (H2 : is_string (get done (str "status")) (str "completed") = true)
    by (vm_compute; reflexivity).
  assert (H3 : TaskManager.completeTask storageManager Example.e1 Example.id0 this0 w0
               = (Some (Registry.completed Example.e1 Example.task0), snd (fst r), snd r))
    by (vm_compute; reflexivity).
  split; [exact H1|]. split; [exact H2|].
  destruct (C4_complete_and_its_guard storageManager Example.e1 Example.id0 this w)
    as (_ & Hguard & _).
  destruct (Hguard done H1 H2) as [Ha Hb].
  split; [exact Ha|]. split; [exact Hb|].
  destruct (C4_complete_and_its_guard storageManager Example.e1 Example.id0 this0 w0)
    as (_ & _ & Hsecond).
  destruct (Hsecond _ _ _ H3) as (_ & Hat & _ & Hagain).
  split; [exact (f_equal (fun x => fst (fst x)) H3)|]. split; [exact Hat|]. apply Hagain.
Defined.

(** C4 (as stated) fails: [complete] on a completed task does not fail and
    overwrites [completedAt]. *)
Lemma C4_complete_has_no_guard :
  let t := Task.complete Example.e0 (Task.new Example.e0 (VStr (str "Kokoro")) VUndef) in
  Task.isCompleted t = true
  ∧ Task.completedAt t = Some (Some 1736935200123%Z)
  ∧ Task.completedAt (Task.complete Example.e1 t) = Some (Some 1736935260000%Z)
  ∧ Task.complete Example.e1 t ≠ t.
Proof. vm_compute. repeat split; done. Qed.

Lemma C10_failed_update_or_delete_keeps_the_list_witness :
  let w := Example.world_of Example.roomy Example.roomy in
  let this := Example.manager_of [Example.task0] in
  (∀ taskData, Registry.getTask this Example.id0 = Some taskData →
      fst (Adapter.updateTask storageManager Example.id0
             (Registry.completion (Registry.completed Example.e1 taskData)) w) = Ret false)
  ∧ fst (Adapter.deleteTask storageManager Example.id0 w) = Ret false
  ∧ fst (TaskManager.completeTask storageManager Example.e1 Example.id0 this w) = (None, this)
  ∧ fst (TaskManagerReload.completeTask storageManager Example.e1 Example.id0 this w) = (None, this)
  ∧ fst (TaskManager.deleteTask storageManager Example.id0 this w) = (false, this)
  ∧ fst (TaskManagerReload.deleteTask storageManager Example.id0 this w) = (false, this).
Proof.
  intros w this.
  assert (Hupd : ∀ taskData, Registry.getTask this Example.id0 = Some taskData →
      fst (Adapter.updateTask storageManager Example.id0
             (Registry.completion (Registry.completed Example.e1 taskData)) w) = Ret false).
  { intros taskData H. vm_compute in H. injection H as <-. vm_compute. reflexivity. }
  assert (Hdel : fst (Adapter.deleteTask storageManager Example.id0 w) = Ret false)
    by (vm_compute; reflexivity).
  destruct (C10_failed_update_or_delete_keeps_the_list storageManager Example.e1
              Example.id0 this w) as [Hc Hd].
  destruct (Hc Hupd) as [Hc1 Hc2]. destruct (Hd Hdel) as [Hd1 Hd2].
  repeat split; done.
Defined.

(* ===================================================================== *)
(** * The storage manager                                                *)
(* ===================================================================== *)

Section ObjectFacts.




Lemma revive_object (o : object) : StorageManager.revive (VObj o) = Ret (revived o).
Proof. done. Qed.

Lemma map_tasks_objects (records : list object) :
  StorageManager.map_tasks (VArr (map VObj records)) = Ret (map revived records).
Proof.
  cbn [StorageManager.map_tasks].
  induction records as [|o l IH]; [done|].
  cbn [map mapM]. rewrite revive_object, IH. done.
Qed.

End ObjectFacts.

Section StorageFacts.

(** The area that [getStorage] returns can be read. *)
Lemma getStorage_enabled (w w1 : StorageManager.world) (a : area) :
  StorageManager.getStorage w = (Ret a, w1) → enabled (the a (StorageManager.browser w1)) = true.
Proof.
  unfold StorageManager.getStorage, StorageManager.isStorageAvailable.
  unfold setItem, removeItem.
  destruct (enabled (localStorage (StorageManager.browser w))) eqn:Hl; cbn [negb].
  - destruct (_ <? _)%nat; cbn [with_items enabled negb].
    + destruct (enabled (sessionStorage (StorageManager.browser w))) eqn:Hs; [|done].
      by intros [= <- <-].
    + rewrite Hl. cbn [negb]. by intros [= <- <-].
  - destruct (enabled (sessionStorage (StorageManager.browser w))) eqn:Hs; [|done].
    by intros [= <- <-].
Qed.

Lemma loadTasks_returns (w : StorageManager.world) :
  ∃ l, fst (StorageManager.loadTasks w) = Ret l.
Proof.
  unfold StorageManager.loadTasks.
  destruct (StorageManager.loadTasks_try w) as [[l|e] w1]; by eexists.
Qed.

(** [loadTasks] in terms of what the chosen area holds under the key. *)
Lemma loadTasks_content (w w1 : StorageManager.world) (a : area) :
  StorageManager.getStorage w = (Ret a, w1) →
  fst (StorageManager.loadTasks w) =
    match items (the a (StorageManager.browser w1))
            !! StorageManager.storageKey (StorageManager.this w1) with
    | None | Some [] => Ret []
    | Some text =>
        try_catch (tasks ← JSON_parse text; StorageManager.map_tasks tasks)
                  (fun _ => Ret [])
    end.
Proof.
  intros Hg. pose proof (getStorage_enabled _ _ _ Hg) as Hen.
  unfold StorageManager.loadTasks, StorageManager.loadTasks_try. rewrite Hg.
  cbn [fst mbind result_bind JS.bind]. unfold getItem. rewrite Hen. cbn [negb JS.bind].
  destruct (items _ !! _) as [[|c t]|]; done.
Qed.

End StorageFacts.


Example stored_timestamp :
  new_Date (VStr (str "2025-01-15T10:00:00.123Z")) = Some 1736935200123%Z
  ∧ toISOString 1736935200123 = str "2025-01-15T10:00:00.123Z".
Proof. vm_compute. done. Qed.


Section ProbeFacts.

Lemma isStorageAvailable_eq (b : Browser) :
  StorageManager.isStorageAvailable b =
    if probe (localStorage b) then (true, put Local (probed (localStorage b)) b)
    else (false, b).
Proof.
  unfold StorageManager.isStorageAvailable, probe, probed, setItem, removeItem.
  destruct (enabled (localStorage b)) eqn:Hen; cbn [negb andb]; [|done].
  destruct (_ <? _)%nat; cbn [negb]; [done|].
  cbn [with_items enabled items quota]. rewrite Hen. cbn [negb].
  by rewrite delete_insert_eq.
Qed.

Lemma getStorage_eq (w : StorageManager.world) :
  StorageManager.getStorage w =
    if probe (localStorage (StorageManager.browser w)) then
      (Ret Local,
       StorageManager.mkWorld (StorageManager.this w)
         (put Local (probed (localStorage (StorageManager.browser w)))
              (StorageManager.browser w)))
    else
      (if enabled (sessionStorage (StorageManager.browser w))
       then Ret Session else Throw DOMException,
       StorageManager.mkWorld
         (StorageManager.mkStorageManager
            (StorageManager.storageKey (StorageManager.this w)) true)
         (StorageManager.browser w)).
Proof.
  unfold StorageManager.getStorage. rewrite isStorageAvailable_eq.
  by destruct (probe _).
Qed.

Lemma probe_probed (l : Storage) : probe l = true → probe (probed l) = true.
Proof.
  unfold probe, probed. cbn [with_items enabled items quota].
  by rewrite insert_delete_eq.
Qed.

Lemma probed_probed (l : Storage) : probed (probed l) = probed l.
Proof.
  unfold probed. cbn [with_items items quota enabled].
  by rewrite delete_delete_eq.
Qed.

(** [loadTasks] changes nothing beyond what [getStorage] does. *)
Lemma loadTasks_state (w : StorageManager.world) :
  snd (StorageManager.loadTasks w) = snd (StorageManager.getStorage w).
Proof.
  unfold StorageManager.loadTasks, StorageManager.loadTasks_try.
  by destruct (StorageManager.getStorage w).
Qed.

(** A second [getStorage] right after the first chooses the same area and
    changes nothing. *)
Lemma getStorage_again (w : StorageManager.world) :
  StorageManager.getStorage (snd (StorageManager.getStorage w))
  = (fst (StorageManager.getStorage w), snd (StorageManager.getStorage w)).
Proof.
  rewrite (getStorage_eq w).
  destruct (probe (localStorage (StorageManager.browser w))) eqn:Hp; cbn [fst snd].
  - rewrite getStorage_eq. cbn [StorageManager.browser StorageManager.this put localStorage].
    rewrite (probe_probed _ Hp), probed_probed. done.
  - rewrite getStorage_eq. cbn [StorageManager.browser StorageManager.this].
    by rewrite Hp.
Qed.

Lemma loadTasks_again (w : StorageManager.world) :
  StorageManager.loadTasks (snd (StorageManager.loadTasks w))
  = StorageManager.loadTasks w.
Proof.
  rewrite loadTasks_state.
  unfold StorageManager.loadTasks, StorageManager.loadTasks_try.
  rewrite getStorage_again. by destruct (StorageManager.getStorage w).
Qed.

End ProbeFacts.

Section FallbackFacts.












End FallbackFacts.




Section ReloadFacts.
Context {S : Type} (A : Adapter.t S) (Hstable : stable A).

Lemma Registry_loadTasks_again (this : Registry.t) (s : S) :
  Registry.loadTasks A (fst (Registry.loadTasks A this s))
                       (snd (Registry.loadTasks A this s))
  = Registry.loadTasks A this s.
Proof using Hstable.
  unfold Registry.loadTasks. pose proof (Hstable s) as H.
  destruct (Adapter.loadTasks A s) as [[l|e] s1]; cbn [fst snd] in *; by rewrite H.
Qed.

(** After a successful change the reloading task manager holds what the
    storage manager loads: [refresh()] would change nothing. *)
Lemma reload_in_sync (e : env) (this this' : Registry.t) (s s' : S) :
  (∀ bookTitle author task,
     TaskManagerReload.addTask A e bookTitle author this s = (Some task, this', s') →
     Registry.loadTasks A this' s' = (this', s'))
  ∧ (∀ taskId task,
     TaskManagerReload.completeTask A e taskId this s = (Some task, this', s') →
     Registry.loadTasks A this' s' = (this', s'))
  ∧ (∀ taskId,
     TaskManagerReload.deleteTask A taskId this s = (true, this', s') →
     Registry.loadTasks A this' s' = (this', s')).
Proof using Hstable.
  split; [|split].
  - intros bookTitle author task. unfold TaskManagerReload.addTask.
    destruct (negb _); [done|]. cbn zeta.
    destruct (Adapter.saveTask A _ s) as [[[|]|] s1]; try done.
    pose proof (Registry_loadTasks_again this s1) as H.
    destruct (Registry.loadTasks A this s1) as [this2 s2]. by intros [= _ <- <-].
  - intros taskId task. unfold TaskManagerReload.completeTask.
    destruct (Registry.getTask this taskId); [|done].
    destruct (is_string _ _); [done|]. cbn zeta.
    destruct (Adapter.updateTask A _ _ s) as [[[|]|] s1]; try done.
    pose proof (Registry_loadTasks_again this s1) as H.
    destruct (Registry.loadTasks A this s1) as [this2 s2]. by intros [= _ <- <-].
  - intros taskId. unfold TaskManagerReload.deleteTask.
    destruct (Registry.getTask this taskId); [|done].
    destruct (Adapter.deleteTask A _ s) as [[[|]|] s1]; try done.
    pose proof (Registry_loadTasks_again this s1) as H.
    destruct (Registry.loadTasks A this s1) as [this2 s2]. by intros [= <- <-].
Qed.

End ReloadFacts.

Lemma storageManager_stable : stable storageManager.
Proof. intros w. apply loadTasks_again. Qed.

(** With the storage manager of js/storage-manager.js: after a successful
    [addTask], [completeTask] or [deleteTask] of the reloading task manager,
    [this.tasks] is the list that [loadTasks()] returns. *)
Lemma reload_agrees_with_store (e : env) (this this' : Registry.t)
  (w w' : StorageManager.world) :
  (∃ bookTitle author task,
     TaskManagerReload.addTask storageManager e bookTitle author this w
     = (Some task, this', w'))
  ∨ (∃ taskId task,
     TaskManagerReload.completeTask storageManager e taskId this w
     = (Some task, this', w'))
  ∨ (∃ taskId,
     TaskManagerReload.deleteTask storageManager taskId this w = (true, this', w')) →
  fst (StorageManager.loadTasks w') = Ret (Registry.tasks this').
Proof.
  intros H.
  assert (Hsync : Registry.loadTasks storageManager this' w' = (this', w')).
  { destruct (reload_in_sync storageManager storageManager_stable e this this' w w')
      as (Ha & Hc & Hd).
    destruct H as [(b & a & t & H)|[(i & t & H)|(i & H)]]; eauto. }
  unfold Registry.loadTasks in Hsync. cbn [Adapter.loadTasks storageManager] in Hsync.
  destruct (loadTasks_returns w') as [l Hl].
  destruct (StorageManager.loadTasks w') as [r w'']. cbn [fst] in Hl. subst r.
  injection Hsync as Hsync _. rewrite <- Hsync. done.
Qed.

(** C1: with the task manager of js/task-manager.js and the storage
    manager of js/storage-manager.js, a successful [addTask] of the title
    ["a  b"] leaves [this.tasks] with that title while [loadTasks()]
    returns the title ["a b"], which is what the storage manager wrote:
    the list has not been loaded again. *)
Theorem C1_list_differs_from_store :
  let w := Example.world_of Example.roomy Example.roomy in
  let start := Registry.new storageManager true w in
  let r := TaskManager.addTask storageManager Example.e0 (VStr (str "a  b")) VUndef
             (fst start) (snd start) in
  let loaded := fst (StorageManager.loadTasks (snd r)) in
  is_Some (fst (fst r))
  ∧ map (fun o => get o (str "bookTitle")) (Registry.tasks (snd (fst r)))
    = [VStr (str "a  b")]
  ∧ (∃ l, loaded = Ret l ∧ map (fun o => get o (str "bookTitle")) l = [VStr (str "a b")])
  ∧ loaded ≠ Ret (Registry.tasks (snd (fst r))).
Proof.
  vm_compute. split; [eauto|]. split; [done|]. split; [eauto|]. done.
Qed.

(** The same call on the reloading task manager. *)
Example reload_keeps_the_stored_title :
  let w := Example.world_of Example.roomy Example.roomy in
  let start := Registry.new storageManager true w in
  let r := TaskManagerReload.addTask storageManager Example.e0 (VStr (str "a  b")) VUndef
             (fst start) (snd start) in
  map (fun o => get o (str "bookTitle")) (Registry.tasks (snd (fst r)))
  = [VStr (str "a b")]
  ∧ fst (StorageManager.loadTasks (snd r)) = Ret (Registry.tasks (snd (fst r))).
Proof. vm_compute. done. Qed.

(* ===================================================================== *)
(** * TaskValidator: what it escapes and what it accepts                 *)
(* ===================================================================== *)

Section ValidatorFacts.

Lemma task_escape_nonempty (c : N) : Stages.task_escape c ≠ [].
Proof.
  unfold Stages.task_escape.
  repeat (destruct (_ =? _); [by vm_compute|]). done.
Qed.

Lemma flat_map_nil_inv {A B} (f : A → list B) (l : list A) :
  (∀ a, f a ≠ []) → flat_map f l = [] → l = [].
Proof.
  intros Hf. destruct l as [|a l]; [done|]. cbn [flat_map]. intros H.
  apply app_eq_nil in H as [H _]. by destruct (Hf a).
Qed.

Lemma sanitized_trimmed (s : jsstring) :
  trim (TaskValidator.sanitizeInput (VStr s)) = TaskValidator.sanitizeInput (VStr s).
Proof.
  rewrite TaskValidator_sanitizeInput_eq. apply trim_id.
  apply trimmed_flat_map; [apply task_escape_ends|apply trim_trimmed].
Qed.

Lemma sanitized_empty (s : jsstring) :
  TaskValidator.sanitizeInput (VStr s) = [] ↔ trim s = [].
Proof.
  rewrite TaskValidator_sanitizeInput_eq. split.
  - apply flat_map_nil_inv, task_escape_nonempty.
  - by intros ->.
Qed.

Lemma validateBookTitle_sanitized (bookTitle : value) :
  TaskValidator.errors
    (TaskValidator.validateBookTitle (VStr (TaskValidator.sanitizeInput bookTitle)))
  = match bookTitle with
    | VStr title =>
        if bool_decide (trim title = []) then [TaskValidator.TitleRequired]
        else if (100 <? length (TaskValidator.sanitizeInput bookTitle))%nat
             then [TaskValidator.TitleTooLong] else []
    | _ => [TaskValidator.TitleRequired]
    end.
Proof.
  destruct bookTitle as [| | | |title| | |]; try done.
  unfold TaskValidator.validateBookTitle. cbn [TaskValidator.errors].
  pose proof (sanitized_empty title) as He.
  pose proof (sanitized_trimmed title) as Ht.
  destruct (TaskValidator.sanitizeInput (VStr title)) as [|c s] eqn:Hs.
  - by rewrite bool_decide_eq_true_2 by by apply He.
  - rewrite Ht.
    rewrite (bool_decide_eq_false_2 (trim title = [])) by (intros H; by apply He in H).
    rewrite bool_decide_eq_false_2 by done. done.
Qed.

Lemma validateAuthor_errors (author : value) :
  TaskValidator.errors (TaskValidator.validateAuthor author)
  = if StorageManager.longer_than (match author with VStr s => author | _ => VNull end) 50
    then [TaskValidator.AuthorTooLong] else [].
Proof.
  destruct author as [| | | |[|c s]| | |]; done.
Qed.

(** The errors of [prepareTaskData]: those of the title, then those of
    the author. *)
Lemma prepareTaskData_errors (bookTitle author : value) :
  TaskValidator.errors
    (TaskValidator.validation_of (TaskValidator.prepareTaskData bookTitle author))
  = match bookTitle with
    | VStr title =>
        if bool_decide (trim title = []) then [TaskValidator.TitleRequired]
        else if (100 <? length (TaskValidator.sanitizeInput bookTitle))%nat
             then [TaskValidator.TitleTooLong] else []
    | _ => [TaskValidator.TitleRequired]
    end
    ++ (if (50 <? length (TaskValidator.sanitizeInput (Task.or_empty author)))%nat
        then [TaskValidator.AuthorTooLong] else []).
Proof.
  unfold TaskValidator.prepareTaskData.
  cbn [TaskValidator.validation_of]. unfold TaskValidator.validateTaskData.
  cbn [TaskValidator.errors].
  by rewrite validateBookTitle_sanitized, validateAuthor_errors.
Qed.

(** When [prepareTaskData] accepts. *)
Lemma prepareTaskData_valid (bookTitle author : value) :
  let p := TaskValidator.prepareTaskData bookTitle author in
  TaskValidator.isValid (TaskValidator.validation_of p) = true
  ↔ (∃ title, bookTitle = VStr title ∧ trim title ≠ [])
    ∧ (length (TaskValidator.data_bookTitle p) ≤ 100)%nat
    ∧ (length (TaskValidator.data_author p) ≤ 50)%nat.
Proof.
  cbn zeta. pose proof (prepareTaskData_errors bookTitle author) as He.
  unfold TaskValidator.prepareTaskData in *.
  cbn [TaskValidator.validation_of TaskValidator.data_bookTitle TaskValidator.data_author] in *.
  unfold TaskValidator.validateTaskData in *.
  cbn [TaskValidator.isValid TaskValidator.errors] in *. rewrite He. clear He.
  set (a := TaskValidator.sanitizeInput (Task.or_empty author)).
  set (b := TaskValidator.sanitizeInput bookTitle).
  destruct bookTitle as [| | | |title| | |];
    try (split; [done|by intros [(t & ? & _) _]]).
  destruct (bool_decide_reflect (trim title = [])) as [He|He].
  - split; [done|]. by intros [(t & [= <-] & ?) _].
  - destruct (Nat.ltb_spec 100 (length b)); cbn [app].
    + split; [done|]. intros (_ & ? & _). lia.
    + destruct (Nat.ltb_spec 50 (length a)).
      * split; [done|]. intros (_ & _ & ?). lia.
      * split; [|done]. intros _. split; [by exists title|]. split; lia.
Qed.

End ValidatorFacts.

(** X1: [TaskValidator.prepareTaskData] accepts exactly when the title is
    a string with something other than white space in it, the escaped
    title has at most 100 code units and the escaped author at most 50.
    The message for a blank title is never among the errors (a blank title
    is empty after trimming and gets the message for a missing title), and
    the title it hands on has no white space at either end. *)
Theorem X1_prepareTaskData_accepts (bookTitle author : value) :
  let p := TaskValidator.prepareTaskData bookTitle author in
  (TaskValidator.isValid (TaskValidator.validation_of p) = true
   ↔ (∃ title, bookTitle = VStr title ∧ trim title ≠ [])
     ∧ (length (TaskValidator.data_bookTitle p) ≤ 100)%nat
     ∧ (length (TaskValidator.data_author p) ≤ 50)%nat)
  ∧ (TaskValidator.TitleBlank ∉ TaskValidator.errors (TaskValidator.validation_of p))
  ∧ trim (TaskValidator.data_bookTitle p) = TaskValidator.data_bookTitle p.
Proof.
  cbn zeta. split; [apply prepareTaskData_valid|].
  rewrite prepareTaskData_errors.
  cbn [TaskValidator.prepareTaskData TaskValidator.data_bookTitle].
  split.
  - intros H. apply elem_of_app in H as [H|H].
    + destruct bookTitle as [| | | |title| | |];
        try (by apply list_elem_of_singleton in H).
      destruct (bool_decide _); [by apply list_elem_of_singleton in H|].
      destruct (_ <? _)%nat; [by apply list_elem_of_singleton in H|by apply elem_of_nil in H].
    + destruct (_ <? _)%nat; [by apply list_elem_of_singleton in H|by apply elem_of_nil in H].
  - destruct bookTitle as [| | | |title| | |]; try done.
    apply sanitized_trimmed.
Qed.



Section TaskEscape.

Lemma task_escape_clean (c : N) :
  Forall (fun x => escaped_by_task x = false) (Stages.task_escape c).
Proof.
  unfold Stages.task_escape.
  destruct (N.eqb_spec c 60); [by repeat constructor|].
  destruct (N.eqb_spec c 62); [by repeat constructor|].
  destruct (N.eqb_spec c 34); [by repeat constructor|].
  destruct (N.eqb_spec c 39); [by repeat constructor|].
  destruct (N.eqb_spec c 47); [by repeat constructor|].
  constructor; [|constructor]. unfold escaped_by_task.
  by rewrite !(proj2 (N.eqb_neq c _)) by done.
Qed.

Lemma task_escape_id (c : N) : escaped_by_task c = false → Stages.task_escape c = [c].
Proof.
  unfold escaped_by_task, Stages.task_escape. intros H.
  repeat (apply orb_false_iff in H as [H ?]).
  by repeat match goal with Hx : (c =? _) = false |- _ => rewrite Hx; clear Hx end.
Qed.

End TaskEscape.

(** X2: the string that [TaskValidator.sanitizeInput] returns holds none
    of [<], [>], the double quote, the single quote and [/]; it has no
    white space at either end and is at least as long as the trimmed
    input.  A string with none of the five characters is only trimmed. *)
Theorem X2_TaskValidator_sanitizeInput_escapes (input : value) :
  let r := TaskValidator.sanitizeInput input in
  Forall (fun c => escaped_by_task c = false) r
  ∧ trim r = r
  ∧ (length (match input with VStr s => trim s | _ => [] end) ≤ length r)%nat
  ∧ (∀ s, input = VStr s → Forall (fun c => escaped_by_task c = false) s → r = trim s).
Proof.
  cbn zeta. destruct input as [| | | |s| | |];
    try (split; [constructor|]; split; [done|]; split; [done|]; by intros).
  split; [|split; [|split]].
  - rewrite TaskValidator_sanitizeInput_eq.
    induction (trim s) as [|c t IH]; cbn [flat_map]; [constructor|].
    apply Forall_app. split; [apply task_escape_clean|done].
  - apply sanitized_trimmed.
  - rewrite TaskValidator_sanitizeInput_eq.
    induction (trim s) as [|c t IH]; cbn [flat_map length]; [done|].
    rewrite length_app. pose proof (task_escape_nonempty c).
    destruct (Stages.task_escape c); [done|]. cbn [length]. lia.
  - intros s' [= <-] Hs. rewrite TaskValidator_sanitizeInput_eq.
    assert (Ht : Forall (fun c => escaped_by_task c = false) (trim s)).
    { unfold trim. apply Forall_rev.
      destruct (drop_space_suffix (rev (drop_space s))) as (p & Hp & _).
      assert (Forall (fun c => escaped_by_task c = false) (rev (drop_space s))).
      { apply Forall_rev. destruct (drop_space_suffix s) as (q & Hq & _).
        rewrite Hq in Hs. by apply Forall_app in Hs as [_ ?]. }
      rewrite Hp in H. by apply Forall_app in H as [_ ?]. }
    induction Ht as [|c t Hc Ht IH]; cbn [flat_map]; [done|].
    by rewrite (task_escape_id c Hc), IH.
Qed.

Lemma X2_TaskValidator_sanitizeInput_escapes_witness :
  Forall (fun c => escaped_by_task c = false) (str " Kokoro ")
  ∧ TaskValidator.sanitizeInput (VStr (str " Kokoro ")) = trim (str " Kokoro ").
Proof.
  assert (H : Forall (fun c => escaped_by_task c = false) (str " Kokoro ")).
  { vm_compute (str _). repeat constructor. }
  split; [exact H|].
  exact (proj2 (proj2 (proj2 (X2_TaskValidator_sanitizeInput_escapes (VStr (str " Kokoro ")))))
           (str " Kokoro ") eq_refl H).
Defined.

(* ===================================================================== *)
(** * The task manager: what each call does to the list                  *)
(* ===================================================================== *)

Section ListFacts.


Lemma getTask_findIndex (this : Registry.t) (taskId : jsstring) :
  Registry.getTask this taskId = None
  ↔ Registry.findIndex taskId (Registry.tasks this) = None.
Proof.
  unfold Registry.getTask.
  pose proof (findIndex_find taskId (Registry.tasks this)) as H.
  destruct (Registry.findIndex taskId (Registry.tasks this)) as [i|].
  - destruct H as (t & _ & -> & _). done.
  - by rewrite H.
Qed.

End ListFacts.

(** X3: when no record of the list has the id [taskId], [completeTask]
    returns [null] and [deleteTask] returns [false], in both versions of the
    task manager; the list and the state of the storage manager are the
    ones before the call. *)
Theorem X3_unknown_id_changes_nothing {S : Type} (A : Adapter.t S) (e : env)
  (taskId : jsstring) (this : Registry.t) (s : S) :
  Registry.getTask this taskId = None →
  TaskManager.completeTask A e taskId this s = (None, this, s)
  ∧ TaskManagerReload.completeTask A e taskId this s = (None, this, s)
  ∧ TaskManager.deleteTask A taskId this s = (false, this, s)
  ∧ TaskManagerReload.deleteTask A taskId this s = (false, this, s).
Proof.
  intros H. pose proof (proj1 (getTask_findIndex this taskId) H) as Hi.
  unfold TaskManager.completeTask, TaskManagerReload.completeTask,
    TaskManager.deleteTask, TaskManagerReload.deleteTask.
  by rewrite H, Hi.
Qed.

Lemma X3_unknown_id_changes_nothing_witness :
  let this := Example.manager_of [Example.task0] in
  let w := Example.world_of Example.roomy Example.roomy in
  Registry.getTask this (str "no-such-id") = None
  ∧ TaskManager.completeTask storageManager Example.e1 (str "no-such-id") this w
    = (None, this, w)
  ∧ TaskManager.deleteTask storageManager (str "no-such-id") this w = (false, this, w).
Proof.
  intros this w.
  assert (H : Registry.getTask this (str "no-such-id") = None) by (vm_compute; reflexivity).
  split; [exact H|].
  destruct (X3_unknown_id_changes_nothing storageManager Example.e1 (str "no-such-id") this w H)
    as (H1 & _ & H3 & _).
  split; [exact H1|exact H3].
Defined.


Section AddFacts.


Lemma find_app_fresh (taskId : jsstring) (l : list object) (x : object) :
  (∀ t, t ∈ l → Registry.has_id taskId t = false) →
  Registry.has_id taskId x = true →
  List.find (Registry.has_id taskId) (l ++ [x]) = Some x.
Proof.
  intros Hl Hx. induction l as [|t l IH]; cbn [app List.find].
  - by rewrite Hx.
  - rewrite (Hl t) by by left. apply IH. intros u Hu. apply Hl. by right.
Qed.

Lemma created_fields (e : env) (p : TaskValidator.prepared) :
  Task.toJSON (Registry.created e p)
  = [ (str "id", VStr (Task.generateUUID e));
      (str "bookTitle", VStr (TaskValidator.data_bookTitle p));
      (str "author", VStr (TaskValidator.data_author p));
      (str "status", VStr (str "active"));
      (str "createdAt", VDate (TimeClip (Some (now e))));
      (str "completedAt", VNull) ].
Proof. done. Qed.

Lemma or_empty_twice (author : value) :
  Task.or_empty (Task.or_empty author) = Task.or_empty author.
Proof. by destruct author. Qed.

(** A successful [addTask] of js/task-manager.js. *)
Lemma addTask_success {S : Type} (A : Adapter.t S) (e : env)
  (bookTitle author : value) (this this' : Registry.t) (s s' : S) (task : object) :
  TaskManager.addTask A e bookTitle author this s = (Some task, this', s') →
  task = [ (str "id", VStr (Task.generateUUID e));
           (str "bookTitle", VStr (TaskValidator.sanitizeInput bookTitle));
           (str "author", VStr (TaskValidator.sanitizeInput (Task.or_empty author)));
           (str "status", VStr (str "active"));
           (str "createdAt", VDate (TimeClip (Some (now e))));
           (str "completedAt", VNull) ]
  ∧ Registry.tasks this' = Registry.tasks this ++ [task]
  ∧ Adapter.saveTask A task s = (Ret true, s').
Proof.
  unfold TaskManager.addTask. destruct (negb _); [done|]. cbn zeta.
  rewrite created_fields.
  cbn [TaskValidator.prepareTaskData TaskValidator.data_bookTitle TaskValidator.data_author].
  rewrite or_empty_twice.
  destruct (Adapter.saveTask A _ s) as [[[|]|] s1] eqn:Hs; try done.
  by intros [= <- <- <-].
Qed.

End AddFacts.

(** X4: [addTask] returns [null], leaves the list as it was and does not
    call the storage manager when the title is not a string, is blank, or
    is longer than 100 code units once escaped, or when the escaped author
    is longer than 50 code units; in both versions of the task manager. *)
Theorem X4_addTask_rejects_bad_input {S : Type} (A : Adapter.t S) (e : env)
  (bookTitle author : value) (this : Registry.t) (s : S) :
  (∀ title, bookTitle = VStr title →
     trim title = [] ∨ (100 < length (TaskValidator.sanitizeInput bookTitle))%nat)
  ∨ (50 < length (TaskValidator.sanitizeInput (Task.or_empty author)))%nat →
  TaskManager.addTask A e bookTitle author this s = (None, this, s)
  ∧ TaskManagerReload.addTask A e bookTitle author this s = (None, this, s).
Proof.
  intros H.
  assert (Hv : TaskValidator.isValid (TaskValidator.validation_of
                 (TaskValidator.prepareTaskData bookTitle (Task.or_empty author))) = false).
  { apply not_true_is_false. intros Hv.
    apply (proj1 (prepareTaskData_valid _ _)) in Hv as ((title & -> & Ht) & Hb & Ha).
    cbn [TaskValidator.prepareTaskData TaskValidator.data_bookTitle
         TaskValidator.data_author] in Hb, Ha.
    rewrite or_empty_twice in Ha.
    destruct H as [H|H]; [|lia]. destruct (H title eq_refl); [done|lia]. }
  unfold TaskManager.addTask, TaskManagerReload.addTask. by rewrite Hv.
Qed.

Lemma X4_addTask_rejects_bad_input_witness :
  let this := Example.manager_of [Example.task0] in
  let w := Example.world_of Example.roomy Example.roomy in
  TaskManager.addTask storageManager Example.e1 (VStr (str "   ")) VUndef this w
  = (None, this, w)
  ∧ TaskManagerReload.addTask storageManager Example.e1 (VStr (str "   ")) VUndef this w
    = (None, this, w).
Proof.
  intros this w.
  apply (X4_addTask_rejects_bad_input storageManager Example.e1 (VStr (str "   ")) VUndef this w).
  left. intros title [= <-]. left. vm_compute. reflexivity.
Defined.

(** X5: when [addTask] of js/task-manager.js returns a task, the task has
    a fresh id, the escaped title and author, the status [active], the time
    of the call and no completion date; [this.tasks] is the old list with
    that task at the end; [saveTask] was called with it and returned true.
    When no record of the old list had the new id, [getTask] finds the new
    task under it. *)
Theorem X5_addTask_appends_the_record {S : Type} (A : Adapter.t S) (e : env)
  (bookTitle author : value) (this this' : Registry.t) (s s' : S) (task : object) :
  TaskManager.addTask A e bookTitle author this s = (Some task, this', s') →
  task = [ (str "id", VStr (Task.generateUUID e));
           (str "bookTitle", VStr (TaskValidator.sanitizeInput bookTitle));
           (str "author", VStr (TaskValidator.sanitizeInput (Task.or_empty author)));
           (str "status", VStr (str "active"));
           (str "createdAt", VDate (TimeClip (Some (now e))));
           (str "completedAt", VNull) ]
  ∧ Registry.tasks this' = Registry.tasks this ++ [task]
  ∧ Adapter.saveTask A task s = (Ret true, s')
  ∧ ((∀ t, t ∈ Registry.tasks this → Registry.has_id (Task.generateUUID e) t = false) →
     Registry.getTask this' (Task.generateUUID e) = Some task).
Proof.
  intros H. destruct (addTask_success A e _ _ _ _ _ _ _ H) as (Htask & Htasks & Hsave).
  repeat (split; [done|]).
  intros Hfresh. unfold Registry.getTask. rewrite Htasks.
  apply find_app_fresh; [done|]. rewrite Htask. unfold Registry.has_id. cbn [get].
  rewrite decide_True by done. cbn [is_string]. by apply bool_decide_eq_true.
Qed.

Lemma X5_addTask_appends_the_record_witness :
  let this := Example.manager_of [Example.task0] in
  let w := Example.world_of Example.roomy Example.roomy in
  let r := TaskManager.addTask storageManager Example.e1 (VStr (str "Botchan")) VUndef this w in
  let task :=
    Task.toJSON (Registry.created Example.e1
                   (TaskValidator.prepareTaskData (VStr (str "Botchan")) (VStr []))) in
  r = (Some task, snd (fst r), snd r)
  ∧ Registry.tasks (snd (fst r)) = [Example.task0; task]
  ∧ Registry.getTask (snd (fst r)) (Task.generateUUID Example.e1) = Some task.
Proof.
  intros this w r task.
  assert (H : r = (Some task, snd (fst r), snd r)) by (vm_compute; reflexivity).
  destruct (X5_addTask_appends_the_record storageManager Example.e1 (VStr (str "Botchan"))
              VUndef this (snd (fst r)) w (snd r) task H) as (_ & H2 & _ & H4).
  split; [exact H|]. split; [exact H2|]. apply H4.
  intros t Ht. apply list_elem_of_singleton in Ht. subst t. vm_compute. reflexivity.
Defined.

Section IdFacts.

Lemma has_id_get (taskId : jsstring) (t : object) :
  Registry.has_id taskId t = true ↔ get t (str "id") = VStr taskId.
Proof.
  unfold Registry.has_id. destruct (get t (str "id")); cbn [is_string]; try done.
  rewrite bool_decide_eq_true. split; congruence.
Qed.

Lemma ids_lookup (l : list object) (i : nat) (t : object) :
  l !! i = Some t → ids l !! i = Some (get t (str "id")).
Proof. intros H. unfold ids. by rewrite list_lookup_fmap, H. Qed.

(** With distinct ids, the record found is the only one with that id. *)
Lemma distinct_ids_one (taskId : jsstring) (l : list object) (i j : nat) (t u : object) :
  NoDup (ids l) → l !! i = Some t → l !! j = Some u →
  Registry.has_id taskId t = true → Registry.has_id taskId u = true → i = j.
Proof.
  intros Hnd Hi Hj Ht Hu. apply has_id_get in Ht, Hu.
  apply (NoDup_lookup (ids l) i j (VStr taskId)); [done| |].
  - by rewrite (ids_lookup _ _ _ Hi), Ht.
  - by rewrite (ids_lookup _ _ _ Hj), Hu.
Qed.

Lemma find_none (taskId : jsstring) (l : list object) :
  (∀ t, t ∈ l → Registry.has_id taskId t = false) →
  List.find (Registry.has_id taskId) l = None.
Proof.
  induction l as [|t l IH]; intros H; cbn [List.find]; [done|].
  rewrite (H t) by by left. apply IH. intros u Hu. apply H. by right.
Qed.

Lemma ids_delete (l : list object) (i : nat) : ids (delete i l) = delete i (ids l).
Proof.
  unfold ids. revert i. induction l as [|t l IH]; intros [|i]; try done.
  cbn. by rewrite <- IH.
Qed.

Lemma NoDup_delete {X} (l : list X) (i : nat) : NoDup l → NoDup (delete i l).
Proof. intros H. eapply sublist_NoDup; [done|apply sublist_delete]. Qed.

Lemma ids_insert_same (l : list object) (i : nat) (t u : object) :
  l !! i = Some t → get u (str "id") = get t (str "id") → ids (<[i := u]> l) = ids l.
Proof.
  intros Hi Hu. unfold ids. rewrite list_fmap_insert, Hu.
  apply list_insert_id. by rewrite list_lookup_fmap, Hi.
Qed.

Lemma completed_id (e : env) (t : object) :
  get (Registry.completed e t) (str "id") = get t (str "id").
Proof. unfold Registry.completed. by rewrite (proj1 (get_toJSON _)). Qed.

Lemma delete_other (taskId : jsstring) (l : list object) (i : nat) (t : object) :
  NoDup (ids l) → l !! i = Some t → Registry.has_id taskId t = true →
  ∀ u, u ∈ delete i l → Registry.has_id taskId u = false.
Proof.
  intros Hnd Hi Ht u Hu. apply list_elem_of_lookup in Hu as [j Hj].
  destruct (Registry.has_id taskId u) eqn:Hid; [|done]. exfalso.
  destruct (decide (j < i)%nat) as [Hlt|Hge].
  - rewrite list_lookup_delete_lt in Hj by done.
    pose proof (distinct_ids_one taskId l i j t u Hnd Hi Hj Ht Hid). lia.
  - rewrite list_lookup_delete_ge in Hj by lia.
    pose proof (distinct_ids_one taskId l i (S j) t u Hnd Hi Hj Ht Hid). lia.
Qed.

End IdFacts.

(** X6: when [deleteTask] of js/task-manager.js returns true, the list
    held a record with the id, at the first index where one is found;
    [this.tasks] is the old list without the record at that index; the
    storage manager's [deleteTask] returned true.  When the ids of the old
    list were distinct, [getTask] no longer finds the id. *)
Theorem X6_deleteTask_removes_the_record {S : Type} (A : Adapter.t S)
  (taskId : jsstring) (this this' : Registry.t) (s s' : S) :
  TaskManager.deleteTask A taskId this s = (true, this', s') →
  ∃ i t,
    Registry.findIndex taskId (Registry.tasks this) = Some i
    ∧ Registry.getTask this taskId = Some t
    ∧ Registry.tasks this !! i = Some t
    ∧ Registry.tasks this' = delete i (Registry.tasks this)
    ∧ Adapter.deleteTask A taskId s = (Ret true, s')
    ∧ (NoDup (ids (Registry.tasks this)) → Registry.getTask this' taskId = None).
Proof.
  intros H.
  pose proof (findIndex_find taskId (Registry.tasks this)) as Hfind.
  destruct (Registry.findIndex taskId (Registry.tasks this)) as [i|] eqn:Hi.
  2: { unfold TaskManager.deleteTask in H. by rewrite Hi in H. }
  destruct Hfind as (t & Ht & Hf & Hid).
  rewrite (deleteTask_found A taskId this s i t Hi Ht) in H.
  destruct (Adapter.deleteTask A taskId s) as [[[|]|] s1]; try done.
  injection H as <- <-. exists i, t. repeat (split; [done|]).
  intros Hnd. unfold Registry.getTask. cbn [Registry.tasks Registry.with_tasks].
  apply find_none. by apply (delete_other taskId _ i t).
Qed.

Lemma X6_deleteTask_removes_the_record_witness :
  let this := Example.manager_of [Example.task0] in
  let w := snd (StorageManager.saveTask Example.task0
                  (Example.world_of Example.roomy Example.roomy)) in
  let r := TaskManager.deleteTask storageManager Example.id0 this w in
  r = (true, snd (fst r), snd r)
  ∧ Registry.tasks (snd (fst r)) = []
  ∧ Registry.getTask (snd (fst r)) Example.id0 = None.
Proof.
  intros this w r.
  assert (H : r = (true, snd (fst r), snd r)) by (vm_compute; reflexivity).
  destruct (X6_deleteTask_removes_the_record storageManager Example.id0 this
              (snd (fst r)) w (snd r) H) as (i & t & _ & _ & _ & _ & _ & Hnone).
  split; [exact H|]. split; [vm_compute; reflexivity|].
  apply Hnone. apply (NoDup_singleton (get Example.task0 (str "id"))).
Defined.



(** X8: the records of [this.tasks] keep distinct ids: when they have
    them before a call of [addTask] (and the id drawn for the new task is
    not one of them), [completeTask] or [deleteTask] of js/task-manager.js,
    they have them after it, whatever the call returns. *)
Theorem X8_distinct_ids_are_kept {S : Type} (A : Adapter.t S) (e : env)
  (this : Registry.t) (s : S) :
  NoDup (ids (Registry.tasks this)) →
  (∀ bookTitle author,
     (∀ t, t ∈ Registry.tasks this → Registry.has_id (Task.generateUUID e) t = false) →
     NoDup (ids (Registry.tasks (snd (fst (TaskManager.addTask A e bookTitle author this s))))))
  ∧ (∀ taskId,
     NoDup (ids (Registry.tasks (snd (fst (TaskManager.completeTask A e taskId this s))))))
  ∧ (∀ taskId,
     NoDup (ids (Registry.tasks (snd (fst (TaskManager.deleteTask A taskId this s)))))).
Proof.
  intros Hnd. split; [|split].
  - intros bookTitle author Hfresh. unfold TaskManager.addTask.
    destruct (negb _); [done|]. cbn zeta.
    assert (Happ : NoDup (ids (Registry.tasks this ++
              [Task.toJSON (Registry.created e
                 (TaskValidator.prepareTaskData bookTitle (Task.or_empty author)))]))).
    { unfold ids. rewrite fmap_app. apply NoDup_app. split; [done|]. split.
      - intros v Hv Hv'. apply list_elem_of_singleton in Hv'. subst v.
        apply list_elem_of_fmap in Hv as (t & Ht & Hin).
        pose proof (Hfresh t Hin) as Hf.
        assert (Registry.has_id (Task.generateUUID e) t = true); [|congruence].
        apply has_id_get. by rewrite <- Ht.
      - apply NoDup_singleton. }
    destruct (Adapter.saveTask A _ s) as [[[|]|] s1];
      cbn [fst snd Registry.tasks Registry.with_tasks]; try done.
    rewrite filter_fresh; [done|done|apply has_id_created].
  - intros taskId.
    pose proof (findIndex_find taskId (Registry.tasks this)) as Hfind.
    destruct (Registry.findIndex taskId (Registry.tasks this)) as [i|] eqn:Hi.
    2: { unfold TaskManager.completeTask. by rewrite Hi. }
    destruct Hfind as (t & Ht & Hf & Hid).
    rewrite (completeTask_found A e taskId this s i t Hi Ht).
    destruct (is_string (get t _) _); [done|]. cbn zeta.
    destruct (Adapter.updateTask A _ _ s) as [[[|]|] s1];
      cbn [fst snd Registry.tasks Registry.with_tasks]; try exact Hnd;
      (rewrite (ids_insert_same _ _ t); [done|done|apply completed_id]).
  - intros taskId.
    pose proof (findIndex_find taskId (Registry.tasks this)) as Hfind.
    destruct (Registry.findIndex taskId (Registry.tasks this)) as [i|] eqn:Hi.
    2: { unfold TaskManager.deleteTask. by rewrite Hi. }
    destruct Hfind as (t & Ht & Hf & Hid).
    rewrite (deleteTask_found A taskId this s i t Hi Ht).
    destruct (Adapter.deleteTask A taskId s) as [[[|]|] s1];
      cbn [fst snd Registry.tasks Registry.with_tasks]; try done;
      rewrite ids_delete; by apply NoDup_delete.
Qed.

Lemma X8_distinct_ids_are_kept_witness :
  let this := Example.manager_of [Example.task0] in
  let w := Example.world_of Example.roomy Example.roomy in
  NoDup (ids (Registry.tasks this))
  ∧ NoDup (ids (Registry.tasks (snd (fst
       (TaskManager.addTask storageManager Example.e1 (VStr (str "Botchan")) VUndef this w))))).
Proof.
  intros this w.
  assert (H : NoDup (ids (Registry.tasks this)))
    by apply (NoDup_singleton (get Example.task0 (str "id"))).
  split; [exact H|].
  apply (proj1 (X8_distinct_ids_are_kept storageManager Example.e1 this w H)).
  intros t Ht. apply list_elem_of_singleton in Ht. subst t. vm_compute. reflexivity.
Defined.

(* ===================================================================== *)
(** * The storage manager: no call but [getStorageInfo] throws           *)
(* ===================================================================== *)

Section StorageReturns.

Lemma saveTasks_returns (tasks : list object) (w : StorageManager.world) :
  ∃ b, fst (StorageManager.saveTasks tasks w) = Ret b.
Proof.
  unfold StorageManager.saveTasks.
  destruct (StorageManager.getStorage w) as [[a|e] w1]; [|by eexists].
  destruct (setItem _ _ _); by eexists.
Qed.

Lemma loadTasks_pair (w : StorageManager.world) :
  ∃ l w1, StorageManager.loadTasks w = (Ret l, w1).
Proof.
  destruct (loadTasks_returns w) as [l Hl].
  destruct (StorageManager.loadTasks w) as [r w1]. cbn [fst] in Hl. subst r. by eexists _, _.
Qed.

Lemma saveTask_returns (task : object) (w : StorageManager.world) :
  ∃ b, fst (StorageManager.saveTask task w) = Ret b.
Proof.
  unfold StorageManager.saveTask. destruct (negb _); [by eexists|].
  destruct (loadTasks_pair w) as (l & w1 & ->). apply saveTasks_returns.
Qed.

Lemma updateTask_returns (taskId : jsstring) (updates : object) (w : StorageManager.world) :
  ∃ b, fst (StorageManager.updateTask taskId updates w) = Ret b.
Proof.
  unfold StorageManager.updateTask.
  destruct (loadTasks_pair w) as (l & w1 & ->).
  destruct (StorageManager.findIndex taskId l); [apply saveTasks_returns|by eexists].
Qed.

Lemma deleteTask_returns (taskId : jsstring) (w : StorageManager.world) :
  ∃ b, fst (StorageManager.deleteTask taskId w) = Ret b.
Proof.
  unfold StorageManager.deleteTask.
  destruct (loadTasks_pair w) as (l & w1 & ->).
  destruct (_ =? _)%nat; [by eexists|apply saveTasks_returns].
Qed.

Lemma clearAllTasks_returns (w : StorageManager.world) :
  ∃ b, fst (StorageManager.clearAllTasks w) = Ret b.
Proof.
  unfold StorageManager.clearAllTasks.
  destruct (StorageManager.getStorage w) as [[a|e] w1]; [|by eexists].
  destruct (removeItem _ _); by eexists.
Qed.

End StorageReturns.

(** X9: in every state of the browser, [loadTasks] returns a list and
    [saveTasks], [saveTask], [updateTask], [deleteTask] and [clearAllTasks]
    return a boolean: none of them throws.  [getStorageInfo] has no
    [try]/[catch] of its own and throws exactly when the probe of the local
    area fails and the session area cannot be used either. *)
Theorem X9_storage_manager_never_throws (w : StorageManager.world) :
  (∃ l, fst (StorageManager.loadTasks w) = Ret l)
  ∧ (∀ tasks, ∃ b, fst (StorageManager.saveTasks tasks w) = Ret b)
  ∧ (∀ task, ∃ b, fst (StorageManager.saveTask task w) = Ret b)
  ∧ (∀ taskId updates, ∃ b, fst (StorageManager.updateTask taskId updates w) = Ret b)
  ∧ (∀ taskId, ∃ b, fst (StorageManager.deleteTask taskId w) = Ret b)
  ∧ (∃ b, fst (StorageManager.clearAllTasks w) = Ret b)
  ∧ ((∃ e, fst (StorageManager.getStorageInfo w) = Throw e)
     ↔ fst (StorageManager.isStorageAvailable (StorageManager.browser w)) = false
       ∧ enabled (sessionStorage (StorageManager.browser w)) = false).
Proof.
  split; [apply loadTasks_returns|]. split; [intros; apply saveTasks_returns|].
  split; [intros; apply saveTask_returns|]. split; [intros; apply updateTask_returns|].
  split; [intros; apply deleteTask_returns|]. split; [apply clearAllTasks_returns|].
  unfold StorageManager.getStorageInfo.
  rewrite getStorage_eq, isStorageAvailable_eq.
  destruct (probe _) eqn:Hp.
  - destruct (loadTasks_pair (StorageManager.mkWorld (StorageManager.this w)
        (put Local (probed (localStorage (StorageManager.browser w))) (StorageManager.browser w))))
      as (l & w1 & ->).
    destruct (StorageManager.isStorageAvailable _). cbn [fst].
    split; [by intros [e ?]|by intros [? _]].
  - cbn [fst]. destruct (enabled (sessionStorage (StorageManager.browser w))) eqn:Hs.
    + match goal with |- context [StorageManager.loadTasks ?x] =>
        destruct (loadTasks_pair x) as (l & w1 & ->) end.
      destruct (StorageManager.isStorageAvailable _). cbn [fst].
      split; [by intros [e ?]|by intros [_ ?]].
    + split; [done|]. intros _. by eexists.
Qed.

(* ===================================================================== *)
(** * Task: the ids that [generateUUID] makes                            *)
(* ===================================================================== *)

Lemma uuid_template :
  str "xxxxxxxx-xxxx-4xxx-yxxx-xxxxxxxxxxxx"
  = [120; 120; 120; 120; 120; 120; 120; 120; 45; 120; 120; 120; 120; 45; 52; 120; 120; 120; 45; 121; 120; 120; 120; 45; 120; 120; 120; 120; 120; 120; 120; 120; 120; 120; 120; 120].
Proof. vm_compute. reflexivity. Qed.

Lemma generateUUID_digits (e : env) :
  Task.generateUUID e
  = [ Task.uuid_digit 120 (random e 0 mod 16);
      Task.uuid_digit 120 (random e 1 mod 16);
      Task.uuid_digit 120 (random e 2 mod 16);
      Task.uuid_digit 120 (random e 3 mod 16);
      Task.uuid_digit 120 (random e 4 mod 16);
      Task.uuid_digit 120 (random e 5 mod 16);
      Task.uuid_digit 120 (random e 6 mod 16);
      Task.uuid_digit 120 (random e 7 mod 16);
      45;
      Task.uuid_digit 120 (random e 8 mod 16);
      Task.uuid_digit 120 (random e 9 mod 16);
      Task.uuid_digit 120 (random e 10 mod 16);
      Task.uuid_digit 120 (random e 11 mod 16);
      45;
      52;
      Task.uuid_digit 120 (random e 12 mod 16);
      Task.uuid_digit 120 (random e 13 mod 16);
      Task.uuid_digit 120 (random e 14 mod 16);
      45;
      Task.uuid_digit 121 (random e 15 mod 16);
      Task.uuid_digit 120 (random e 16 mod 16);
      Task.uuid_digit 120 (random e 17 mod 16);
      Task.uuid_digit 120 (random e 18 mod 16);
      45;
      Task.uuid_digit 120 (random e 19 mod 16);
      Task.uuid_digit 120 (random e 20 mod 16);
      Task.uuid_digit 120 (random e 21 mod 16);
      Task.uuid_digit 120 (random e 22 mod 16);
      Task.uuid_digit 120 (random e 23 mod 16);
      Task.uuid_digit 120 (random e 24 mod 16);
      Task.uuid_digit 120 (random e 25 mod 16);
      Task.uuid_digit 120 (random e 26 mod 16);
      Task.uuid_digit 120 (random e 27 mod 16);
      Task.uuid_digit 120 (random e 28 mod 16);
      Task.uuid_digit 120 (random e 29 mod 16);
      Task.uuid_digit 120 (random e 30 mod 16) ].
Proof. unfold Task.generateUUID. rewrite uuid_template. reflexivity. Qed.

Section Accepts.

Lemma generateUUID_cons (e : env) : ∃ c s, Task.generateUUID e = c :: s.
Proof. rewrite generateUUID_digits. by eexists _, _. Qed.

Lemma has_key_toJSON (t : Task.t) :
  forallb (StorageManager.has_key (Task.toJSON t))
          [str "id"; str "bookTitle"; str "status"; str "createdAt"] = true.
Proof. destruct t. vm_compute. reflexivity. Qed.

End Accepts.

(** X10: the record that [addTask] hands to [saveTask] for input that
    [prepareTaskData] accepted passes the storage manager's
    [validateTaskData]: [saveTask] does not refuse it for its form. *)
Theorem X10_created_record_is_valid (e : env) (bookTitle author : value) :
  let p := TaskValidator.prepareTaskData bookTitle author in
  TaskValidator.isValid (TaskValidator.validation_of p) = true →
  StorageManager.validateTaskData (Task.toJSON (Registry.created e p)) = true.
Proof.
  intros p Hv.
  apply (proj1 (prepareTaskData_valid bookTitle author)) in Hv as ((title & -> & Ht) & Hb & Ha).
  pose proof (sanitized_trimmed title) as Htrim.
  change (TaskValidator.sanitizeInput (VStr title))
    with (TaskValidator.data_bookTitle p) in Htrim.
  fold p in Hb, Ha.
  assert (Hne : TaskValidator.data_bookTitle p ≠ []).
  { subst p. cbn [TaskValidator.prepareTaskData TaskValidator.data_bookTitle].
    intros H. by apply sanitized_empty in H. }
  unfold StorageManager.validateTaskData. rewrite has_key_toJSON.
  destruct (get_toJSON (Registry.created e p)) as (-> & -> & -> & -> & -> & ->).
  cbn [Registry.created Task.new Task.id Task.bookTitle Task.author Task.status
       Task.createdAt Task.completedAt Task.or_empty].
  destruct (generateUUID_cons e) as (c & u & ->).
  rewrite Htrim. rewrite (bool_decide_eq_false_2 _ Hne).
  cbn [andb negb StorageManager.is_date_or_string StorageManager.longer_than is_string].
  rewrite (bool_decide_eq_true_2 _ (eq_refl (str "active"))). cbn [orb andb].
  destruct (Nat.ltb_spec 100 (length (TaskValidator.data_bookTitle p))); [lia|].
  destruct (Nat.ltb_spec 50 (length (TaskValidator.data_author p))); [lia|].
  cbn [negb andb]. by rewrite andb_false_r.
Qed.

Lemma X10_created_record_is_valid_witness :
  StorageManager.validateTaskData
    (Task.toJSON (Registry.created Example.e0
       (TaskValidator.prepareTaskData (VStr (str "Kokoro")) (VStr (str "Soseki")))))
  = true.
Proof.
  apply (X10_created_record_is_valid Example.e0 (VStr (str "Kokoro")) (VStr (str "Soseki"))).
  vm_compute. reflexivity.
Defined.

Section UUID.

Ltac below16 r H :=
  destruct r as [|r]; [|repeat (destruct r as [r|r|]; try (exfalso; lia))].

Lemma x_digit (r : N) : is_hex (Task.uuid_digit 120 (r mod 16)) = true.
Proof.
  pose proof (N.mod_upper_bound r 16 ltac:(done)) as H.
  generalize dependent (r mod 16). intros a H.
  below16 a H; vm_compute; reflexivity.
Qed.

Lemma y_digit (r : N) :
  let c := Task.uuid_digit 121 (r mod 16) in
  (c =? 56) || (c =? 57) || (c =? 97) || (c =? 98) = true.
Proof.
  pose proof (N.mod_upper_bound r 16 ltac:(done)) as H.
  generalize dependent (r mod 16). intros a H.
  below16 a H; vm_compute; reflexivity.
Qed.

Lemma x_digit_inj (a b : N) :
  a < 16 → b < 16 → Task.uuid_digit 120 a = Task.uuid_digit 120 b → a = b.
Proof.
  intros Ha Hb. below16 a Ha; below16 b Hb; vm_compute; congruence.
Qed.

Lemma y_digit_inj (a b : N) :
  a < 16 → b < 16 → Task.uuid_digit 121 a = Task.uuid_digit 121 b → a mod 4 = b mod 4.
Proof.
  intros Ha Hb. below16 a Ha; below16 b Hb; vm_compute; congruence.
Qed.

Lemma y_digit_mod (a b : N) :
  a < 16 → b < 16 → a mod 4 = b mod 4 → Task.uuid_digit 121 a = Task.uuid_digit 121 b.
Proof.
  intros Ha Hb. below16 a Ha; below16 b Hb; vm_compute; congruence.
Qed.

Lemma mod_16_4 (r : N) : (r mod 16) mod 4 = r mod 4.
Proof.
  change 16 with (4 * 4). rewrite N.Div0.mod_mul_r.
  rewrite (N.mul_comm 4), N.Div0.mod_add. apply N.Div0.mod_mod.
Qed.

End UUID.

(** X11: whatever [Math.random] returns, the id that [generateUUID] makes
    has 36 code units of the form [xxxxxxxx-xxxx-4xxx-yxxx-xxxxxxxxxxxx]:
    a lower-case hexadecimal digit for every [x], one of [8], [9], [a],
    [b] for [y], and the hyphens and the [4] in their places. *)
Theorem X11_generateUUID_is_a_version_4_uuid (e : env) :
  uuid_v4 (Task.generateUUID e) = true ∧ length (Task.generateUUID e) = 36%nat.
Proof.
  rewrite generateUUID_digits. split; [|done].
  unfold uuid_v4. rewrite uuid_template. cbn [fits].
  rewrite !x_digit. rewrite (y_digit (random e 15)). reflexivity.
Qed.

(** X12: two ids made by [generateUUID] are equal exactly when the 31
    values of [Math.random() * 16 | 0] were the same for every [x] and had
    the same two low bits for [y] (the sixteenth value): the id is made
    of 122 bits of what was drawn and of nothing else. *)
Theorem X12_generateUUID_keeps_every_draw (e1 e2 : env) :
  Task.generateUUID e1 = Task.generateUUID e2
  ↔ (∀ n, (n < 31)%nat → n ≠ 15%nat → random e1 n mod 16 = random e2 n mod 16)
    ∧ random e1 15 mod 4 = random e2 15 mod 4.
Proof.
  rewrite !generateUUID_digits.
  assert (Hb : ∀ e n, random e n mod 16 < 16) by (intros; by apply N.mod_upper_bound).
  split.
  - intros H. injection H as H0 H1 H2 H3 H4 H5 H6 H7 H8 H9 H10 H11 H12 H13 H14 H15
      H16 H17 H18 H19 H20 H21 H22 H23 H24 H25 H26 H27 H28 H29 H30.
    split.
    + intros n Hn Hne.
      do 31 (destruct n as [|n]; [try (by apply x_digit_inj); done|]). lia.
    + rewrite <- (mod_16_4 (random e1 15)), <- (mod_16_4 (random e2 15)).
      by apply y_digit_inj.
  - intros [Hx Hy].
    rewrite (y_digit_mod (random e1 15 mod 16) (random e2 15 mod 16))
      by (try apply Hb; by rewrite !mod_16_4).
    repeat match goal with
    | |- context [random e1 ?n mod 16] =>
        rewrite (Hx n) by lia
    end.
    reflexivity.
Qed.

(* ===================================================================== *)
(** * Sanitizing: what the results never hold                            *)
(* ===================================================================== *)

Section Removal.

(** Replacing by the empty string only takes code units away. *)
Lemma replace_go_sublist ic r skip b s :
  replace_go ic r [] skip b s `sublist_of` s.
Proof.
  revert skip b. induction s as [|c t IH]; intros skip b.
  - destruct skip; cbn [replace_go]; [|constructor].
    destruct (match_here _ _ _) as [[|k]|]; constructor.
  - destruct skip; cbn [replace_go].
    + destruct (match_here _ _ _) as [[|k]|]; cbn [app].
      * apply sublist_skip, IH.
      * apply sublist_cons, IH.
      * apply sublist_skip, IH.
    + apply sublist_cons, IH.
Qed.

Lemma find_from_order ic r b s i a e :
  find_from ic r b s i = Some (a, e) → (i ≤ a ∧ a ≤ e)%nat.
Proof.
  revert b i. induction s as [|c t IH]; intros b i; cbn [find_from].
  - destruct (match_here _ _ _); [|done]. intros [= <- <-]. lia.
  - destruct (match_here _ _ _); [intros [= <- <-]; lia|].
    intros H. apply IH in H. lia.
Qed.

Lemma replace_sublist (s : jsstring) (re : RegExp) :
  fst (replace s re []) `sublist_of` s.
Proof.
  unfold replace. destruct (global re); cbn [fst].
  - apply replace_go_sublist.
  - destruct (find_from _ _ _ _ _) as [[i e]|] eqn:Hf; [|done]. cbn [app].
    apply find_from_order in Hf as [_ Hle].
    rewrite <- (take_drop i s) at 3.
    apply sublist_app; [done|].
    replace e with (i + (e - i))%nat by lia. rewrite <- drop_drop. apply sublist_drop.
Qed.

Lemma replace_each_sublist (pats : list RegExp) (s : jsstring) :
  fst (InputValidator.replace_each pats s) `sublist_of` s.
Proof.
  revert s. induction pats as [|re pats IH]; intros s; cbn [InputValidator.replace_each]; [done|].
  pose proof (replace_sublist s re) as H1.
  destruct (replace s re []) as [s1 re1]. cbn [fst] in H1.
  pose proof (IH s1) as H2.
  destruct (InputValidator.replace_each pats s1) as [s2 rest2]. cbn [fst] in *.
  by etrans.
Qed.

Lemma sublist_Forall {A} (P : A → Prop) (l k : list A) :
  l `sublist_of` k → Forall P k → Forall P l.
Proof.
  intros Hsub Hk. apply Forall_forall. intros x Hx.
  apply (proj1 (Forall_forall _ _) Hk). by eapply elem_of_sublist.
Qed.

Lemma collapse_spaces_Forall (P : N → Prop) (in_run : bool) (s : jsstring) :
  P 32 → Forall P s → Forall P (Stages.collapse_spaces in_run s).
Proof.
  intros H32 Hs. revert in_run. induction Hs as [|c t Hc Ht IH]; intros in_run;
    cbn [Stages.collapse_spaces]; [constructor|].
  destruct (is_space c); [destruct in_run|]; try constructor; auto.
Qed.

Lemma strip_control_Forall (P : N → Prop) (s : jsstring) :
  Forall P s → Forall (fun c => P c ∧ Stages.is_control c = false) (Stages.strip_control s).
Proof.
  unfold Stages.strip_control.
  induction 1 as [|c t Hc Ht IH]; cbn [List.filter]; [constructor|].
  destruct (Stages.is_control c) eqn:Hctl; cbn [negb]; [done|]. by constructor.
Qed.

Lemma escapeHtml_no_angle (s : jsstring) :
  Forall (fun c => c ≠ 60 ∧ c ≠ 62) (InputValidator.escapeHtml s).
Proof.
  unfold InputValidator.escapeHtml. induction s as [|c t IH]; cbn [flat_map]; [constructor|].
  apply Forall_app. split; [|done]. unfold InputValidator.escape_text_char.
  destruct (N.eqb_spec c 38); [by repeat constructor|].
  destruct (N.eqb_spec c 60); [by repeat constructor|].
  destruct (N.eqb_spec c 62); [by repeat constructor|].
  destruct (N.eqb_spec c 160); [by repeat constructor|].
  by repeat constructor.
Qed.

End Removal.

(** X13: whatever the input and whatever state the pattern objects are
    in, the string that [InputValidator.sanitizeInput] returns holds no
    [<], no [>] and no control character (U+0000 to U+001F, U+007F). *)
Theorem X13_sanitizeInput_leaves_no_markup (this : InputValidator.t) (input : jsstring) :
  Forall (fun c => c ≠ 60 ∧ c ≠ 62 ∧ Stages.is_control c = false)
         (fst (InputValidator.sanitizeInput this input)).
Proof.
  unfold InputValidator.sanitizeInput. cbn zeta.
  rewrite replace_control, replace_spaces.
  pose proof (replace_each_sublist (InputValidator.xssPatterns this)
                (Stages.collapse_spaces false
                   (Stages.strip_control (InputValidator.escapeHtml (trim input))))) as Hsub.
  destruct (InputValidator.replace_each _ _) as [s pats]. cbn [fst] in *.
  eapply sublist_Forall; [exact Hsub|].
  apply collapse_spaces_Forall; [done|].
  eapply Forall_impl; [apply strip_control_Forall, escapeHtml_no_angle|].
  by intros c [[? ?] ?].
Qed.

Section Tags.

Lemma not_gt_class (c : N) :
  charset_match false true [CChar 62] c = negb (c =? 62).
Proof.
  unfold charset_match, citem_match. cbn [existsb citem_has andb xorb orb].
  rewrite (N.eqb_sym 62 c). by destruct (c =? 62).
Qed.

Lemma star_until_gt (n : nat) (b : option N) (t : jsstring) :
  (length t ≤ n)%nat →
  star_loop (rmatch false (CharSet true [CChar 62]))
            (rmatch false (Chr 62) Some) n (Pos b t)
  = if existsb (N.eqb 62) t
    then Some (Pos (Some 62) (drop (S (until_gt t)) t)) else None.
Proof.
  revert b t. induction n as [|n IH]; intros b t Hn.
  - destruct t; [done|simpl in Hn; lia].
  - cbn [star_loop rmatch]. unfold step_char at 1. cbn [rest].
    destruct t as [|c t]; [done|].
    rewrite not_gt_class. cbn [existsb until_gt].
    rewrite (N.eqb_sym 62 c).
    destruct (N.eqb_spec c 62) as [->|Hc]; cbn [negb orb].
    + unfold step_char. cbn [rest canon andb]. by rewrite N.eqb_refl.
    + assert (Hlt : (length t <? length (c :: t))%nat = true)
        by (apply Nat.ltb_lt; simpl; lia).
      cbn [rest]. rewrite Hlt. rewrite IH by (simpl in Hn; lia).
      destruct (existsb (N.eqb 62) t); [done|].
      unfold step_char. cbn [rest canon andb].
      by rewrite (proj2 (N.eqb_neq 62 c)) by congruence.
Qed.

Lemma until_gt_length (t : jsstring) : (until_gt t ≤ length t)%nat.
Proof.
  induction t as [|c t IH]; cbn [until_gt length]; [lia|]. destruct (c =? 62); lia.
Qed.

Lemma until_gt_lt (t : jsstring) :
  existsb (N.eqb 62) t = true → (until_gt t < length t)%nat.
Proof.
  induction t as [|c t IH]; cbn [existsb until_gt length]; [done|].
  rewrite (N.eqb_sym 62 c).
  destruct (c =? 62); cbn [orb]; [lia|]. intros H. apply IH in H. lia.
Qed.

Lemma match_here_tag (b : option N) (s : jsstring) :
  match_here false tag (Pos b s) =
    match s with
    | c :: t =>
        if (c =? 60) && existsb (N.eqb 62) t then Some (S (S (until_gt t))) else None
    | [] => None
    end.
Proof.
  unfold match_here, tag. cbn [Seqs rmatch]. unfold step_char at 1. cbn [rest].
  destruct s as [|c t]; [done|]. cbn [canon andb]. rewrite (N.eqb_sym 60 c).
  destruct (c =? 60); cbn [andb]; [|done].
  change (fun p => step_char (fun c0 => canon false 62 =? canon false c0) Some p)
    with (rmatch false (Chr 62) Some).
  change (step_char (charset_match false true [CChar 62]))
    with (rmatch false (CharSet true [CChar 62])).
  cbn [rest]. rewrite star_until_gt by done.
  destruct (existsb (N.eqb 62) t) eqn:He; [|done]. cbn [rest].
  pose proof (until_gt_lt t He). rewrite length_drop. simpl. f_equal. lia.
Qed.

Lemma replace_go_tag (s : jsstring) :
  (∀ b, replace_go false tag [] O b s = strip_tags false s)
  ∧ (∀ b, existsb (N.eqb 62) s = true →
          replace_go false tag [] (S (until_gt s)) b s = strip_tags true s).
Proof.
  induction s as [|c t [IH0 IH1]].
  - split; [|done]. intros b. cbn [replace_go]. by rewrite match_here_tag.
  - split; intros b.
    + cbn [replace_go strip_tags]. rewrite match_here_tag.
      destruct ((c =? 60) && existsb (N.eqb 62) t) eqn:Hm; cbn [app].
      * apply andb_true_iff in Hm as [_ He]. by apply IH1.
      * by rewrite IH0.
    + cbn [existsb until_gt strip_tags replace_go]. rewrite (N.eqb_sym 62 c).
      destruct (c =? 62); cbn [orb]; [intros _; apply IH0|]. intros He. by apply IH1.
Qed.

Lemma replace_tag (s : jsstring) :
  fst (replace s (literal tag false true) []) = strip_tags false s.
Proof. unfold replace. simpl. apply replace_go_tag. Qed.

End Tags.

Lemma sanitizeString_eq (s : jsstring) :
  StorageManager.sanitizeString (VStr s)
  = Stages.collapse_spaces false (strip_tags false (Stages.strip_control (trim s))).
Proof.
  unfold StorageManager.sanitizeString. cbn zeta.
  rewrite replace_control. fold tag. by rewrite replace_tag, replace_spaces.
Qed.

Section SanitizeString.

Lemma space_not_angle (c : N) : is_space c = true → (c =? 60) = false ∧ (62 =? c) = false.
Proof.
  intros H. split.
  - destruct (N.eqb_spec c 60) as [->|]; [by vm_compute in H|done].
  - destruct (N.eqb_spec 62 c) as [<-|]; [by vm_compute in H|done].
Qed.

Lemma collapse_spaces_gt (in_run : bool) (s : jsstring) :
  existsb (N.eqb 62) (Stages.collapse_spaces in_run s) = existsb (N.eqb 62) s.
Proof.
  revert in_run. induction s as [|c t IH]; intros in_run;
    cbn [Stages.collapse_spaces existsb]; [done|].
  destruct (is_space c) eqn:Hc.
  - destruct (space_not_angle c Hc) as [_ ->]. cbn [orb].
    destruct in_run; cbn [existsb]; [apply IH|].
    change (62 =? 32) with false. apply IH.
  - cbn [existsb]. by rewrite IH.
Qed.

Lemma collapse_spaces_no_tag (in_run : bool) (s : jsstring) :
  no_tag s = true → no_tag (Stages.collapse_spaces in_run s) = true.
Proof.
  revert in_run. induction s as [|c t IH]; intros in_run;
    cbn [Stages.collapse_spaces no_tag]; [done|].
  intros H. apply andb_true_iff in H as [H1 H2].
  destruct (is_space c) eqn:Hc.
  - destruct in_run; [by apply IH|]. cbn [no_tag].
    change (32 =? 60) with false. cbn [andb negb]. by apply IH.
  - cbn [no_tag]. rewrite collapse_spaces_gt, H1. cbn [andb]. by apply IH.
Qed.

Lemma strip_tags_sublist (skipping : bool) (s : jsstring) :
  strip_tags skipping s `sublist_of` s.
Proof.
  revert skipping. induction s as [|c t IH]; intros skipping; cbn [strip_tags]; [done|].
  destruct skipping.
  - destruct (c =? 62); apply sublist_cons, IH.
  - destruct (_ && _); [apply sublist_cons, IH|apply sublist_skip, IH].
Qed.

Lemma existsb_sublist {A} (f : A → bool) (l k : list A) :
  l `sublist_of` k → existsb f k = false → existsb f l = false.
Proof.
  induction 1 as [|x l k _ IH|x l k _ IH]; cbn [existsb]; [done| |].
  - intros H. apply orb_false_iff in H as [-> H]. by apply IH.
  - intros H. apply orb_false_iff in H as [_ H]. by apply IH.
Qed.

Lemma strip_tags_no_tag (skipping : bool) (s : jsstring) :
  no_tag (strip_tags skipping s) = true.
Proof.
  revert skipping. induction s as [|c t IH]; intros skipping; cbn [strip_tags]; [done|].
  destruct skipping; [destruct (c =? 62); apply IH|].
  destruct ((c =? 60) && existsb (N.eqb 62) t) eqn:Hm; [apply IH|].
  cbn [no_tag]. rewrite IH, andb_true_r. apply negb_true_iff.
  apply andb_false_iff in Hm as [->|Hm]; [done|].
  rewrite (existsb_sublist _ _ _ (strip_tags_sublist false t) Hm). apply andb_false_r.
Qed.

Lemma collapse_spaces_head (s : jsstring) :
  match Stages.collapse_spaces true s with d :: _ => is_space d | [] => false end = false.
Proof.
  induction s as [|c t IH]; cbn [Stages.collapse_spaces]; [done|].
  by destruct (is_space c) eqn:Hc.
Qed.

Lemma collapse_spaces_single (in_run : bool) (s : jsstring) :
  single_spaced (Stages.collapse_spaces in_run s) = true.
Proof.
  revert in_run. induction s as [|c t IH]; intros in_run;
    cbn [Stages.collapse_spaces]; [done|].
  destruct (is_space c) eqn:Hc.
  - destruct in_run; [apply IH|]. cbn [single_spaced].
    rewrite collapse_spaces_head, IH. change (32 =? 32) with true.
    by rewrite orb_true_r.
  - cbn [single_spaced]. by rewrite Hc, IH.
Qed.

Lemma strip_control_id (s : jsstring) :
  Forall (fun c => Stages.is_control c = false) s → Stages.strip_control s = s.
Proof.
  unfold Stages.strip_control. induction 1 as [|c t Hc Ht IH]; cbn [List.filter]; [done|].
  rewrite Hc. cbn [negb]. by rewrite IH.
Qed.

Lemma strip_tags_id (s : jsstring) : no_tag s = true → strip_tags false s = s.
Proof.
  induction s as [|c t IH]; cbn [strip_tags no_tag]; [done|].
  intros H. apply andb_true_iff in H as [H1 H2]. apply negb_true_iff in H1.
  by rewrite H1, IH.
Qed.

Lemma collapse_spaces_id (s : jsstring) :
  single_spaced s = true → Stages.collapse_spaces false s = s.
Proof.
  induction s as [|c t IH]; cbn [Stages.collapse_spaces single_spaced]; [done|].
  intros H. apply andb_true_iff in H as [H1 H2].
  destruct (is_space c) eqn:Hc; [|by rewrite IH].
  cbn [negb orb] in H1. apply andb_true_iff in H1 as [Hc32 Hnext].
  apply N.eqb_eq in Hc32 as ->. f_equal.
  destruct t as [|d t']; [done|]. apply negb_true_iff in Hnext.
  rewrite <- (IH H2) at 2. cbn [Stages.collapse_spaces]. by rewrite Hnext.
Qed.

Lemma sanitizeString_clean (s : jsstring) :
  trimmed s → Forall (fun c => Stages.is_control c = false) s →
  no_tag s = true → single_spaced s = true →
  StorageManager.sanitizeString (VStr s) = s.
Proof.
  intros Htrim Hctl Htag Hsp. rewrite sanitizeString_eq.
  by rewrite (trim_id _ Htrim), (strip_control_id _ Hctl), (strip_tags_id _ Htag),
    (collapse_spaces_id _ Hsp).
Qed.

End SanitizeString.

(** X14: the string that the storage manager's [sanitizeString] returns
    holds no control character, no [<] with a [>] somewhere after it, and
    no white space other than single spaces.  A string that already is of
    that form and has no white space at either end is returned as it is. *)
Theorem X14_sanitizeString_result (v : value) :
  let r := StorageManager.sanitizeString v in
  Forall (fun c => Stages.is_control c = false) r
  ∧ no_tag r = true
  ∧ single_spaced r = true
  ∧ (∀ s, v = VStr s → trimmed s → Forall (fun c => Stages.is_control c = false) s →
          no_tag s = true → single_spaced s = true → r = s).
Proof.
  destruct v as [| | | |s| | |];
    try (cbn; split; [constructor|]; split; [done|]; split; [done|]; by intros).
  cbn zeta. rewrite sanitizeString_eq.
  split; [|split; [|split]].
  - apply collapse_spaces_Forall; [done|].
    eapply sublist_Forall; [apply strip_tags_sublist|].
    eapply Forall_impl; [apply (strip_control_Forall (fun _ => True)), Forall_true; done|].
    by intros c [_ ?].
  - apply collapse_spaces_no_tag, strip_tags_no_tag.
  - apply collapse_spaces_single.
  - intros s' [= <-] Htrim Hctl Htag Hsp.
    by rewrite (trim_id _ Htrim), (strip_control_id _ Hctl), (strip_tags_id _ Htag),
      (collapse_spaces_id _ Hsp).
Qed.

Lemma X14_sanitizeString_result_witness :
  trimmed (str "Kokoro")
  ∧ StorageManager.sanitizeString (VStr (str "Kokoro")) = str "Kokoro".
Proof.
  assert (Ht : trimmed (str "Kokoro")) by (split; vm_compute; reflexivity).
  split; [exact Ht|].
  apply (proj2 (proj2 (proj2 (X14_sanitizeString_result (VStr (str "Kokoro")))))
           (str "Kokoro") eq_refl Ht).
  - vm_compute (str _). repeat constructor.
  - vm_compute. reflexivity.
  - vm_compute. reflexivity.
Defined.

(* ===================================================================== *)
(** * InputValidator: forms, allowed characters and CSV cells            *)
(* ===================================================================== *)

Section Csv.

Lemma find_from_Bos ic r (c : N) s i :
  find_from ic (Seq Bos r) (Some c) s i = None.
Proof.
  revert c i. induction s as [|d t IH]; intros c i; cbn [find_from]; by rewrite ?IH.
Qed.

Lemma formula_class (c : N) :
  charset_match false false [CChar 61; CChar 43; CChar 45; CChar 64] c = formula_start c.
Proof.
  unfold charset_match, citem_match, formula_start.
  cbn [existsb citem_has andb xorb orb].
  rewrite (N.eqb_sym 61), (N.eqb_sym 43), (N.eqb_sym 45), (N.eqb_sym 64).
  rewrite !orb_false_r. by rewrite !orb_assoc.
Qed.

Lemma test_formula_start (s : jsstring) :
  fst (test (literal (Seqs [Bos; CharSet false [CChar 61; CChar 43; CChar 45; CChar 64]])
                     false false) s)
  = match s with c :: _ => formula_start c | [] => false end.
Proof.
  unfold test, exec, literal. cbn [global lastIndex ignoreCase pattern Seqs].
  cbn [Nat.ltb Nat.leb position_at before rest].
  rewrite take_0, drop_0. cbn [last].
  destruct s as [|c t]; [done|].
  cbn [find_from]. unfold match_here. cbn [rmatch before]. unfold step_char. cbn [rest].
  rewrite formula_class. destruct (formula_start c); [done|].
  by rewrite find_from_Bos.
Qed.

Lemma replace_quote (s : jsstring) :
  fst (replace s (literal (Chr 34) false true) [34; 34])
  = flat_map (fun c => if 34 =? c then [34; 34] else [c]) s.
Proof.
  unfold replace. simpl.
  by rewrite (replace_go_one_char _ _ (fun x => 34 =? x)) by apply one_char_Chr.
Qed.

End Csv.

(** X15: the cell that [sanitizeForCsv] returns for a string never starts
    with [=], [+], [-] or [@], the characters that start a formula in a
    spreadsheet; and when it holds a comma or a double quote it starts and
    ends with a double quote. *)
Theorem X15_sanitizeForCsv_guards_formulas (this : InputValidator.t) (input : jsstring) :
  let r := fst (InputValidator.sanitizeForCsv this input) in
  match r with c :: _ => formula_start c = false | [] => True end
  ∧ (existsb (N.eqb 44) r || existsb (N.eqb 34) r = true →
     head r = Some 34 ∧ last r = Some 34 ∧ (2 ≤ length r)%nat).
Proof.
  unfold InputValidator.sanitizeForCsv.
  destruct (InputValidator.sanitizeInput this input) as [s this1]. cbn [fst].
  rewrite test_formula_start, !replace_quote.
  set (q := flat_map (fun c => if 34 =? c then [34; 34] else [c])).
  set (g := match s with c :: _ => formula_start c | [] => false end).
  set (s1 := if g then 39 :: s else s).
  assert (Hhead : match q s1 with c :: _ => formula_start c = false | [] => True end).
  { subst s1 g q. destruct s as [|c t]; [done|].
    destruct (formula_start c) eqn:Hc; cbn [flat_map]; [done|].
    destruct (N.eqb_spec 34 c) as [<-|]; done. }
  destruct (existsb (N.eqb 44) (q s1) || existsb (N.eqb 10) (q s1)
            || existsb (N.eqb 34) (q s1)) eqn:Hw.
  - split; [done|]. intros _. cbn [app head]. split; [done|].
    rewrite app_comm_cons, last_snoc. split; [done|].
    cbn [length]. rewrite length_app. simpl. lia.
  - split; [done|]. intros H. exfalso.
    apply orb_false_iff in Hw as [Hw H34]. apply orb_false_iff in Hw as [H44 _].
    rewrite H44, H34 in H. done.
Qed.

Lemma X15_sanitizeForCsv_guards_formulas_witness :
  let r := fst (InputValidator.sanitizeForCsv InputValidator.new (str "=1,2")) in
  existsb (N.eqb 44) r || existsb (N.eqb 34) r = true
  ∧ head r = Some 34 ∧ last r = Some 34 ∧ (2 ≤ length r)%nat.
Proof.
  intros r.
  assert (H : existsb (N.eqb 44) r || existsb (N.eqb 34) r = true) by (vm_compute; reflexivity).
  split; [exact H|].
  exact (proj2 (X15_sanitizeForCsv_guards_formulas InputValidator.new (str "=1,2")) H).
Defined.

Section Form.

Lemma exec_same (re : RegExp) (s : jsstring) :
  pattern (snd (exec re s)) = pattern re
  ∧ ignoreCase (snd (exec re s)) = ignoreCase re
  ∧ global (snd (exec re s)) = global re.
Proof.
  unfold exec. destruct re as [r ic g li]. cbn [global lastIndex ignoreCase pattern].
  destruct (_ <? _)%nat; [by destruct g|].
  destruct (find_from _ _ _ _ _) as [[i e]|]; by destruct g.
Qed.

Lemma test_same (re : RegExp) (s : jsstring) :
  pattern (snd (test re s)) = pattern re
  ∧ ignoreCase (snd (test re s)) = ignoreCase re
  ∧ global (snd (test re s)) = global re.
Proof.
  unfold test. pose proof (exec_same re s) as H.
  by destruct (exec re s) as [m re'].
Qed.

Lemma test_any_same (pats : list RegExp) (s : jsstring) :
  map pattern (snd (InputValidator.test_any pats s)) = map pattern pats
  ∧ (Forall (fun re => ignoreCase re = true ∧ global re = true) pats →
     Forall (fun re => ignoreCase re = true ∧ global re = true)
            (snd (InputValidator.test_any pats s))).
Proof.
  induction pats as [|re pats [IH1 IH2]]; [done|].
  cbn [InputValidator.test_any].
  pose proof (test_same re s) as (Hp & Hi & Hg).
  destruct (test re s) as [b re1]. cbn [snd] in *.
  destruct b.
  - cbn [snd map]. split; [by rewrite Hp|].
    intros H. inversion H as [|? ? [? ?] ?]; subst. constructor; [|done]. split; congruence.
  - destruct (InputValidator.test_any pats s) as [b2 rest2]. cbn [snd map] in *.
    split; [by rewrite Hp, IH1|].
    intros H. inversion H as [|? ? [? ?] ?]; subst.
    constructor; [split; congruence|by apply IH2].
Qed.

Lemma containsXSS_state (this : InputValidator.t) (s : jsstring) :
  same_patterns this →
  same_patterns (snd (InputValidator.containsXSS this s))
  ∧ InputValidator.validationRules (snd (InputValidator.containsXSS this s))
    = InputValidator.validationRules this.
Proof.
  intros [Hsrc Hflags]. unfold InputValidator.containsXSS.
  pose proof (test_any_same (InputValidator.xssPatterns this) s) as [H1 H2].
  destruct (InputValidator.test_any _ _) as [b pats]. cbn [snd] in *.
  split; [|done]. split; cbn [InputValidator.xssPatterns]; [congruence|auto].
Qed.

Lemma reset_same_patterns (this : InputValidator.t) :
  same_patterns this →
  same_patterns (InputValidator.mkValidator (InputValidator.validationRules this)
     (map (fun re => set_lastIndex re 0) (InputValidator.xssPatterns this))).
Proof.
  intros H. rewrite (reset_patterns this H). apply new_same_patterns.
Qed.

Lemma validateField_state (this : InputValidator.t) (fieldName value : jsstring) :
  same_patterns this → plain_rules this →
  same_patterns (snd (InputValidator.validateField this fieldName value))
  ∧ InputValidator.validationRules (snd (InputValidator.validateField this fieldName value))
    = InputValidator.validationRules this.
Proof.
  intros Hsp Hplain. unfold InputValidator.validateField.
  destruct (InputValidator.validationRules this !! fieldName) as [rule|] eqn:Hl; [|done].
  destruct (Hplain _ _ Hl) as [Hs Hp]. rewrite Hs, Hp.
  rewrite sanitizeInput_eq by done.
  destruct (negb (InputValidator.isEmpty _)); cbn [snd].
  - match goal with |- context [InputValidator.containsXSS ?t ?s] =>
      pose proof (containsXSS_state t s (reset_same_patterns this Hsp)) as [H1 H2];
      destruct (InputValidator.containsXSS t s) as [b this2]
    end.
    cbn [snd] in *. done.
  - split; [by apply reset_same_patterns|done].
Qed.

Lemma assign_fresh {V} (o : list (jsstring * V)) (k : jsstring) (v : V) :
  k ∉ map fst o → InputValidator.assign o k v = o ++ [(k, v)].
Proof.
  induction o as [|[k' v'] o IH]; cbn [InputValidator.assign map fst app]; [done|].
  intros H. apply not_elem_of_cons in H as [Hne H].
  rewrite decide_False by done. by rewrite IH.
Qed.


Lemma validateField_valid (this : InputValidator.t) (fieldName value : jsstring) :
  InputValidator.isValid (fst (InputValidator.validateField this fieldName value))
  = match InputValidator.errors (fst (InputValidator.validateField this fieldName value)) with
    | [] => true
    | _ => false
    end.
Proof.
  unfold InputValidator.validateField.
  destruct (InputValidator.validationRules this !! fieldName); [|done].
  repeat match goal with |- context [match ?x with (_, _) => _ end] => destruct x end.
  done.
Qed.

Lemma validate_entries_eq (this : InputValidator.t) (formData : list (jsstring * jsstring))
  (acc : InputValidator.formResult) :
  same_patterns this → plain_rules this →
  NoDup (map fst formData) →
  (∀ k, k ∈ map fst formData →
        (k ∉ map fst (InputValidator.sanitizedData acc))
        ∧ (k ∉ map fst (InputValidator.fieldErrors acc))) →
  let r := fst (InputValidator.validate_entries this formData acc) in
  InputValidator.form_errors r
  = InputValidator.form_errors acc
    ++ flat_map (fun kf => InputValidator.errors (snd kf)) (judged this formData)
  ∧ InputValidator.sanitizedData r
    = InputValidator.sanitizedData acc
      ++ omap (fun kf => if InputValidator.isValid (snd kf)
                         then Some (fst kf, InputValidator.sanitizedValue (snd kf))
                         else None) (judged this formData)
  ∧ InputValidator.fieldErrors r
    = InputValidator.fieldErrors acc
      ++ omap (fun kf => if InputValidator.isValid (snd kf) then None
                         else Some (fst kf, InputValidator.errors (snd kf)))
              (judged this formData).
Proof.
  revert this acc. induction formData as [|[k v] rest IH]; intros this acc Hsp Hplain Hnd Hfresh.
  - cbn. by rewrite !app_nil_r.
  - cbn [InputValidator.validate_entries judged map flat_map omap fst snd].
    pose proof (validateField_state this k v Hsp Hplain) as [Hsp1 Hrules1].
    assert (Hplain1 : plain_rules (snd (InputValidator.validateField this k v))).
    { intros f rule. rewrite Hrules1. apply Hplain. }
    assert (Hsame : ∀ f x,
      fst (InputValidator.validateField (snd (InputValidator.validateField this k v)) f x)
      = fst (InputValidator.validateField this f x)).
    { intros f x. apply validateField_after_sanitizing; try done.
      intros rule. apply Hplain1. }
    assert (Hj : judged (snd (InputValidator.validateField this k v)) rest = judged this rest).
    { unfold judged. apply map_ext. intros [f x]. cbn [fst snd]. by rewrite Hsame. }
    pose proof (validateField_valid this k v) as Hvalid.
    destruct (InputValidator.validateField this k v) as [fr this1]. cbn [fst snd] in *.
    cbn [map fst] in Hnd, Hfresh. apply NoDup_cons in Hnd as [Hk Hnd].
    destruct (Hfresh k) as [Hk1 Hk2]; [by left|].
    assert (Hne : ∀ k', k' ∈ map fst rest → k' ≠ k) by (intros k' Hin ->; done).
    destruct (InputValidator.isValid fr) eqn:Hv.
    + specialize (IH this1 (InputValidator.mkFormResult (InputValidator.form_isValid acc) (InputValidator.form_errors acc)
                      (InputValidator.fieldErrors acc)
                      (InputValidator.assign (InputValidator.sanitizedData acc) k (InputValidator.sanitizedValue fr)))
                    Hsp1 Hplain1 Hnd).
      cbn [InputValidator.form_errors InputValidator.sanitizedData InputValidator.fieldErrors] in IH.
      rewrite assign_fresh in IH by done. rewrite Hj in IH.
      destruct IH as (IH1 & IH2 & IH3).
      { intros k' Hin. destruct (Hfresh k') as [H1 H2]; [by right|]. split; [|done].
        rewrite map_app. cbn [map fst]. intros Hin'. apply elem_of_app in Hin' as [?|Hin']; [done|].
        apply list_elem_of_singleton in Hin'. by apply (Hne k'). }
      destruct (InputValidator.errors fr); [|done].
      cbn zeta. rewrite assign_fresh by done.
      rewrite IH1, IH2, IH3. cbn [app fst snd omap list_omap]. rewrite Hv.
      by rewrite <- !app_assoc.
    + specialize (IH this1 (InputValidator.mkFormResult (InputValidator.form_isValid acc)
                      (InputValidator.form_errors acc ++ InputValidator.errors fr)
                      (InputValidator.assign (InputValidator.fieldErrors acc) k (InputValidator.errors fr))
                      (InputValidator.sanitizedData acc))
                    Hsp1 Hplain1 Hnd).
      cbn [InputValidator.form_errors InputValidator.sanitizedData InputValidator.fieldErrors] in IH.
      rewrite assign_fresh in IH by done. rewrite Hj in IH.
      destruct IH as (IH1 & IH2 & IH3).
      { intros k' Hin. destruct (Hfresh k') as [H1 H2]; [by right|]. split; [done|].
        rewrite map_app. cbn [map fst]. intros Hin'. apply elem_of_app in Hin' as [?|Hin']; [done|].
        apply list_elem_of_singleton in Hin'. by apply (Hne k'). }
      cbn zeta. rewrite assign_fresh by done.
      rewrite IH1, IH2, IH3. cbn [app fst snd omap list_omap]. rewrite Hv.
      by rewrite <- !app_assoc.
Qed.

Lemma new_plain_rules : plain_rules InputValidator.new.
Proof.
  intros fieldName rule. unfold InputValidator.new. cbn [InputValidator.validationRules].
  destruct (decide (fieldName = str "bookTitle")) as [->|H1].
  { rewrite lookup_insert_eq. by intros [= <-]. }
  rewrite lookup_insert_ne by done.
  destruct (decide (fieldName = str "author")) as [->|H2].
  { rewrite lookup_insert_eq. by intros [= <-]. }
  rewrite lookup_insert_ne by done. by rewrite lookup_empty.
Qed.

End Form.

(** X16: for a validator whose rules all sanitize and have no pattern of
    their own (as the two rules of the constructor) and a form whose field
    names are distinct and are not names that objects inherit,
    [validateForm] judges every field as [validateField] would judge it on
    its own: the form is valid exactly when every field is, [errors] holds
    the errors of the fields in their order, [sanitizedData] the sanitized
    values of the valid fields and [fieldErrors] the errors of the others.
    No field is judged differently for what was validated before it. *)
Theorem X16_validateForm_judges_each_field (this : InputValidator.t)
  (formData : list (jsstring * jsstring)) :
  same_patterns this → plain_rules this → field_names formData →
  let r := fst (InputValidator.validateForm this formData) in
  InputValidator.form_isValid r
  = forallb (fun kf => InputValidator.isValid (snd kf)) (judged this formData)
  ∧ InputValidator.form_errors r
    = flat_map (fun kf => InputValidator.errors (snd kf)) (judged this formData)
  ∧ InputValidator.sanitizedData r
    = omap (fun kf => if InputValidator.isValid (snd kf)
                      then Some (fst kf, InputValidator.sanitizedValue (snd kf))
                      else None) (judged this formData)
  ∧ InputValidator.fieldErrors r
    = omap (fun kf => if InputValidator.isValid (snd kf) then None
                      else Some (fst kf, InputValidator.errors (snd kf)))
           (judged this formData).
Proof.
  intros Hsp Hplain [Hnd _]. cbn zeta. unfold InputValidator.validateForm.
  pose proof (validate_entries_eq this formData (InputValidator.mkFormResult true [] [] [])
                Hsp Hplain Hnd) as H.
  destruct (InputValidator.validate_entries this formData _) as [r this1]. cbn [fst] in *.
  destruct H as (H1 & H2 & H3).
  { intros k _. split; apply not_elem_of_nil. }
  cbn [InputValidator.form_errors InputValidator.sanitizedData InputValidator.fieldErrors InputValidator.form_isValid app] in *.
  rewrite H1, H2, H3. split; [|done].
  clear. unfold judged.
  induction formData as [|[k v] l IH]; cbn [map flat_map forallb fst snd]; [done|].
  rewrite validateField_valid.
  destruct (InputValidator.errors _); cbn [app andb]; done.
Qed.

Lemma X16_validateForm_judges_each_field_witness :
  let formData := [(str "bookTitle", str "Kokoro"); (str "author", str "<b>")] in
  let r := fst (InputValidator.validateForm InputValidator.new formData) in
  field_names formData
  ∧ InputValidator.form_isValid r = false
  ∧ InputValidator.sanitizedData r = [(str "bookTitle", str "Kokoro")]
  ∧ map fst (InputValidator.fieldErrors r) = [str "author"].
Proof.
  intros formData r.
  assert (Hn : field_names formData).
  { split.
    - apply (bool_decide_eq_true_1 (NoDup (map fst formData))). vm_compute. reflexivity.
    - repeat constructor;
        match goal with |- ?P => apply (bool_decide_eq_true_1 P) end;
        vm_compute; reflexivity. }
  split; [exact Hn|].
  destruct (X16_validateForm_judges_each_field InputValidator.new formData
              new_same_patterns new_plain_rules Hn) as (H1 & _ & H3 & H4).
  split; [etrans; [exact H1|vm_compute; reflexivity]|].
  split; [etrans; [exact H3|vm_compute; reflexivity]|].
  etrans; [exact (f_equal (map fst) H4)|vm_compute; reflexivity].
Defined.

Section Allowed.

Lemma star_to_end (items : list citem) (n : nat) (b : option N) (s : jsstring) :
  (length s ≤ n)%nat →
  match star_loop (rmatch false (CharSet false items)) (rmatch false Eos Some) n (Pos b s) with
  | Some _ => true
  | None => false
  end = forallb (charset_match false false items) s.
Proof.
  revert b s. induction n as [|n IH]; intros b s Hn.
  - destruct s; [done|simpl in Hn; lia].
  - cbn [star_loop]. cbn [rmatch]. unfold step_char at 1. cbn [rest].
    destruct s as [|c t]; [done|]. cbn [forallb].
    destruct (charset_match false false items c); cbn [andb]; [|done].
    assert (Hlt : (length t <? length (c :: t))%nat = true)
      by (apply Nat.ltb_lt; simpl; lia).
    cbn [rest]. rewrite Hlt.
    specialize (IH (Some c) t ltac:(simpl in Hn; lia)). cbn [rmatch] in IH.
    destruct (star_loop _ _ n (Pos (Some c) t)); [done|]. by rewrite <- IH.
Qed.

Lemma test_only (items : list citem) (s : jsstring) :
  fst (test (InputValidator.only items) s)
  = match s with
    | [] => false
    | _ => forallb (charset_match false false items) s
    end.
Proof.
  unfold test, exec, InputValidator.only, literal.
  cbn [global lastIndex ignoreCase pattern Seqs Plus].
  cbn [Nat.ltb Nat.leb position_at before rest].
  rewrite take_0, drop_0. cbn [last].
  destruct s as [|c t]; [done|].
  cbn [find_from]. unfold match_here, Plus. cbn [rmatch before].
  unfold step_char at 1. cbn [rest].
  cbn [forallb].
  destruct (charset_match false false items c); cbn [andb].
  - pose proof (star_to_end items (length t) (Some c) t ltac:(done)) as H.
    cbn [rmatch] in H.
    destruct (star_loop _ _ (length t) (Pos (Some c) t)); [by rewrite <- H|].
    rewrite <- H. by rewrite find_from_Bos.
  - by rewrite find_from_Bos.
Qed.

Lemma new_bookTitle_rule :
  InputValidator.validationRules InputValidator.new !! str "bookTitle"
  = Some (InputValidator.mkRule true (Some 1%nat) (Some 100%nat) None true).
Proof. vm_compute. reflexivity. Qed.

Lemma new_author_rule :
  InputValidator.validationRules InputValidator.new !! str "author"
  = Some (InputValidator.mkRule false (Some 0%nat) (Some 50%nat) None true).
Proof. vm_compute. reflexivity. Qed.

Lemma allowed_bookTitle :
  InputValidator.allowedPatterns (str "bookTitle")
  = Some (InputValidator.only InputValidator.bookTitle_chars).
Proof. reflexivity. Qed.

Lemma allowed_author :
  InputValidator.allowedPatterns (str "author")
  = Some (InputValidator.only InputValidator.author_chars).
Proof. vm_compute. reflexivity. Qed.

End Allowed.

Lemma validateField_checks (this : InputValidator.t) (fieldName value : jsstring)
  (required : bool) (lo hi : nat) (chars : list citem) :
  same_patterns this →
  InputValidator.validationRules this !! fieldName
  = Some (InputValidator.mkRule required (Some lo) (Some hi) None true) →
  InputValidator.allowedPatterns fieldName = Some (InputValidator.only chars) →
  let r := fst (InputValidator.validateField this fieldName value) in
  InputValidator.isValid r = true →
  InputValidator.sanitizedValue r = Stages.sanitize value
  ∧ (InputValidator.isEmpty (Stages.sanitize value) = true → required = false)
  ∧ (InputValidator.isEmpty (Stages.sanitize value) = false →
     (lo ≤ length (Stages.sanitize value) ≤ hi)%nat
     ∧ forallb (charset_match false false chars) (Stages.sanitize value) = true
     ∧ InputValidator.containsSuspiciousContent (Stages.sanitize value) = false).
Proof.
  intros Hsp Hrule Hallowed. cbn zeta. unfold InputValidator.validateField.
  rewrite Hrule. cbn [InputValidator.sanitize InputValidator.required
    InputValidator.minLength InputValidator.maxLength InputValidator.rpattern].
  rewrite sanitizeInput_eq by done. rewrite Hallowed, test_only.
  set (s := Stages.sanitize value).
  destruct (InputValidator.isEmpty s) eqn:He; cbn [negb].
  - cbn [fst InputValidator.isValid InputValidator.sanitizedValue].
    rewrite andb_true_r. destruct required; cbn [InputValidator.when]; [done|].
    intros _. split; [done|]. split; [done|]. by intros.
  - rewrite andb_false_r. cbn [InputValidator.when app].
    destruct (InputValidator.containsXSS _ s) as [b this2].
    cbn [fst InputValidator.isValid InputValidator.sanitizedValue].
    destruct (Nat.ltb_spec (length s) lo); cbn [InputValidator.when app]; [done|].
    destruct (Nat.ltb_spec hi (length s)); cbn [InputValidator.when app]; [done|].
    destruct s as [|c t] eqn:Hs; [done|].
    destruct (forallb _ (c :: t)); cbn [negb InputValidator.when app]; [|done].
    destruct b; cbn [InputValidator.when app]; [done|].
    destruct (InputValidator.containsSuspiciousContent (c :: t));
      cbn [InputValidator.when app]; [done|].
    intros _. split; [done|]. split; [done|]. intros _. split; [lia|done].
Qed.

(** X17: with the rules of the constructor, a title that [validateField]
    accepts is, once sanitized, not empty, at most 100 code units long and
    made of the characters that the pattern for titles allows; an author it
    accepts is empty or at most 50 code units long and made of the
    characters allowed for authors.  Neither holds [&], [<], [>], a double
    or a single quote.  The sanitized value that is returned is the one of
    the five stages of [sanitizeInput]. *)
Theorem X17_valid_fields_hold_allowed_characters (this : InputValidator.t) (value : jsstring) :
  same_patterns this →
  InputValidator.validationRules this = InputValidator.validationRules InputValidator.new →
  let title := fst (InputValidator.validateField this (str "bookTitle") value) in
  let author := fst (InputValidator.validateField this (str "author") value) in
  let s := Stages.sanitize value in
  (InputValidator.isValid title = true →
   InputValidator.sanitizedValue title = s
   ∧ InputValidator.isEmpty s = false
   ∧ (1 ≤ length s ≤ 100)%nat
   ∧ forallb (charset_match false false InputValidator.bookTitle_chars) s = true
   ∧ Forall (fun c => markup c = false) s)
  ∧ (InputValidator.isValid author = true →
     InputValidator.sanitizedValue author = s
     ∧ (InputValidator.isEmpty s = false →
        (length s ≤ 50)%nat
        ∧ forallb (charset_match false false InputValidator.author_chars) s = true
        ∧ Forall (fun c => markup c = false) s)).
Proof.
  intros Hsp Hrules. cbn zeta.
  assert (Hmark : ∀ chars l,
    (∀ c, markup c = true → charset_match false false chars c = false) →
    forallb (charset_match false false chars) l = true →
    Forall (fun c => markup c = false) l).
  { intros chars l Hm Hl. apply Forall_forall. intros c Hc.
    destruct (markup c) eqn:Hmc; [|done].
    pose proof (proj1 (forallb_forall _ _) Hl c ltac:(by apply list_elem_of_In)) as Hok.
    by rewrite (Hm c Hmc) in Hok. }
  assert (Hcases : ∀ c, markup c = true → c = 38 ∨ c = 60 ∨ c = 62 ∨ c = 34 ∨ c = 39).
  { intros c Hc. unfold markup in Hc.
    repeat (apply orb_true_iff in Hc as [Hc|Hc]); apply N.eqb_eq in Hc; auto. }
  split.
  - intros Hv.
    destruct (validateField_checks this (str "bookTitle") value true 1 100
                InputValidator.bookTitle_chars Hsp) as (H1 & H2 & H3); try done.
    { rewrite Hrules. apply new_bookTitle_rule. }
    split; [done|].
    destruct (InputValidator.isEmpty (Stages.sanitize value)) eqn:He;
      [by specialize (H2 eq_refl)|].
    destruct (H3 eq_refl) as (Hlen & Hall & _).
    split; [done|]. split; [done|]. split; [done|].
    apply (Hmark InputValidator.bookTitle_chars); [|done].
    intros c Hc. destruct (Hcases c Hc) as [->|[->|[->|[->| ->]]]]; by vm_compute.
  - intros Hv.
    destruct (validateField_checks this (str "author") value false 0 50
                InputValidator.author_chars Hsp) as (H1 & H2 & H3); try done.
    { rewrite Hrules. apply new_author_rule. }
    split; [done|]. intros He. destruct (H3 He) as (Hlen & Hall & _).
    split; [lia|]. split; [done|].
    apply (Hmark InputValidator.author_chars); [|done].
    intros c Hc. destruct (Hcases c Hc) as [->|[->|[->|[->| ->]]]]; by vm_compute.
Qed.

Lemma X17_valid_fields_hold_allowed_characters_witness :
  let title :=
    fst (InputValidator.validateField InputValidator.new (str "bookTitle") (str "Kokoro")) in
  InputValidator.isValid title = true
  ∧ InputValidator.sanitizedValue title = Stages.sanitize (str "Kokoro")
  ∧ Forall (fun c => markup c = false) (Stages.sanitize (str "Kokoro")).
Proof.
  intros title.
  assert (Hv : InputValidator.isValid title = true) by (vm_compute; reflexivity).
  split; [exact Hv|].
  destruct (proj1 (X17_valid_fields_hold_allowed_characters InputValidator.new (str "Kokoro")
                     new_same_patterns eq_refl) Hv) as (H1 & _ & _ & _ & H5).
  split; [exact H1|exact H5].
Defined.

(* ===================================================================== *)
(** * What is written to the store is what is read back                  *)
(* ===================================================================== *)

(** ** [JSON.parse] of a string that [JSON.stringify] quoted *)

Section JsonStrings.

Lemma in_range_spec (lo hi c : N) : in_range lo hi c = true ↔ lo ≤ c ∧ c ≤ hi.
Proof. unfold in_range. rewrite andb_true_iff, !N.leb_le. done. Qed.

Lemma hex_value_digit (n : N) : n < 16 → hex_value (hex_digit n) = Some n.
Proof.
  intros H. destruct n as [|p]; [done|].
  repeat (destruct p as [p|p|]; try (exfalso; lia)); done.
Qed.

Lemma parse_string_plain (c : N) (t : jsstring) :
  c ≠ 34 → c ≠ 92 →
  parse_string (c :: t) =
    if (c <? 32) || (c =? 92) then None
    else '(r, t') ← parse_string t; Some (c :: r, t').
Proof.
  intros H34 H92. destruct c as [|p]; [done|].
  do 7 (destruct p as [p|p|]; try done).
Qed.

Lemma hex_digits (c : N) :
  c < 65536 →
  c / 4096 < 16 ∧ c / 256 mod 16 < 16 ∧ c / 16 mod 16 < 16 ∧ c mod 16 < 16
  ∧ c / 4096 * 4096 + c / 256 mod 16 * 256 + c / 16 mod 16 * 16 + c mod 16 = c.
Proof.
  intros H.
  pose proof (N.mod_upper_bound (c / 256) 16 ltac:(done)).
  pose proof (N.mod_upper_bound (c / 16) 16 ltac:(done)).
  pose proof (N.mod_upper_bound c 16 ltac:(done)).
  split; [by apply N.Div0.div_lt_upper_bound|]. repeat (split; [done|]).
  pose proof (N.div_mod c 16 ltac:(done)).
  pose proof (N.div_mod (c / 16) 16 ltac:(done)).
  pose proof (N.div_mod (c / 256) 16 ltac:(done)).
  replace (c / 256) with (c / 16 / 16) in * by (rewrite N.Div0.div_div; done).
  replace (c / 4096) with (c / 16 / 16 / 16) by (rewrite !N.Div0.div_div; done).
  lia.
Qed.

Lemma parse_unicode_escape (c : N) (t : jsstring) :
  c < 65536 →
  parse_string (unicode_escape c ++ t) = '(r, t') ← parse_string t; Some (c :: r, t').
Proof.
  intros H. destruct (hex_digits c H) as (H1 & H2 & H3 & H4 & Hc).
  unfold unicode_escape. cbn [app parse_string].
  rewrite !hex_value_digit by done. cbn [mbind option_bind].
  by rewrite Hc.
Qed.

Lemma parse_quote_body (n : nat) (s r : jsstring) :
  (length s ≤ n)%nat → parse_string (quote_body s ++ 34 :: r) = Some (s, r).
Proof.
  revert s. induction n as [|n IH]; intros s Hn.
  - destruct s; [done|simpl in Hn; lia].
  - destruct s as [|c t]; [done|]. cbn [length] in Hn.
    assert (IHt : parse_string (quote_body t ++ 34 :: r) = Some (t, r)) by (apply IH; lia).
    cbn [quote_body].
    destruct (N.eqb_spec c 34) as [->|H34]; [cbn [app parse_string]; by rewrite IHt|].
    destruct (N.eqb_spec c 92) as [->|H92]; [cbn [app parse_string]; by rewrite IHt|].
    destruct (N.eqb_spec c 8) as [->|H8]; [cbn [app parse_string]; by rewrite IHt|].
    destruct (N.eqb_spec c 12) as [->|H12]; [cbn [app parse_string]; by rewrite IHt|].
    destruct (N.eqb_spec c 10) as [->|H10]; [cbn [app parse_string]; by rewrite IHt|].
    destruct (N.eqb_spec c 13) as [->|H13]; [cbn [app parse_string]; by rewrite IHt|].
    destruct (N.eqb_spec c 9) as [->|H9]; [cbn [app parse_string]; by rewrite IHt|].
    destruct (N.ltb_spec c 32) as [Hlt|Hge].
    { rewrite <- app_assoc, parse_unicode_escape by lia. by rewrite IHt. }
    assert (Hplain : ∀ x, parse_string (c :: x) = '(r, t') ← parse_string x; Some (c :: r, t')).
    { intros x. rewrite parse_string_plain by done.
      rewrite (proj2 (N.ltb_ge c 32)) by done.
      by rewrite (proj2 (N.eqb_neq c 92)) by done. }
    destruct (in_range 55296 56319 c) eqn:Hhi.
    { apply in_range_spec in Hhi. assert (c < 65536) by lia.
      destruct t as [|c2 t2].
      - cbn [app]. rewrite parse_unicode_escape by done. by cbn.
      - destruct (in_range 56320 57343 c2) eqn:Hlo.
        + apply in_range_spec in Hlo. cbn [app]. rewrite Hplain.
          assert (H2 : parse_string (c2 :: quote_body t2 ++ 34 :: r)
                       = '(r', t') ← parse_string (quote_body t2 ++ 34 :: r); Some (c2 :: r', t')).
          { rewrite parse_string_plain by lia.
            rewrite (proj2 (N.ltb_ge c2 32)) by lia.
            by rewrite (proj2 (N.eqb_neq c2 92)) by lia. }
          rewrite H2, IH by (cbn [length] in Hn; lia). done.
        + rewrite <- app_assoc, parse_unicode_escape by done. by rewrite IHt. }
    destruct (in_range 56320 57343 c) eqn:Hlo.
    { apply in_range_spec in Hlo. rewrite <- app_assoc, parse_unicode_escape by lia.
      by rewrite IHt. }
    cbn [app]. by rewrite Hplain, IHt.
Qed.

Lemma parse_quote (s r : jsstring) :
  parse_string (quote_body s ++ 34 :: r) = Some (s, r).
Proof. by apply (parse_quote_body (length s)). Qed.

End JsonStrings.

(** ** [Date.parse] of a string that [toISOString] made *)

Section Dates.

Lemma all_from_spec (f : Z → bool) (n : nat) (z x : Z) :
  all_from f n z = true → (z ≤ x < z + Z.of_nat n)%Z → f x = true.
Proof.
  revert z. induction n as [|n IH]; intros z; cbn [all_from]; [lia|].
  intros H Hx. apply andb_true_iff in H as [Hz H].
  destruct (decide (x = z)) as [->|Hne]; [done|].
  apply (IH (z + 1)%Z); [done|lia].
Qed.

Lemma day_of_era_all : all_from day_of_era_ok (Z.to_nat 146097) 0 = true.
Proof. vm_compute. reflexivity. Qed.

Lemma day_of_era_bounds (doe : Z) :
  (0 ≤ doe < 146097)%Z → day_of_era_ok doe = true.
Proof.
  intros H. apply (all_from_spec _ _ _ _ day_of_era_all). lia.
Qed.

Lemma civil_days (z : Z) :
  let '(y, m, d) := civil_from_days z in
  days_from_civil y m d = z ∧ (1 ≤ m ≤ 12)%Z ∧ (1 ≤ d ≤ 31)%Z
  ∧ ((z + 719468) / 146097 * 400 ≤ y ≤ (z + 719468) / 146097 * 400 + 400)%Z.
Proof.
  unfold civil_from_days. cbv zeta.
  set (z' := (z + 719468)%Z). set (era := (z' / 146097)%Z).
  set (doe := (z' - era * 146097)%Z).
  assert (Hdoe : (0 ≤ doe < 146097)%Z).
  { subst doe era. pose proof (Z.div_mod z' 146097 ltac:(done)).
    pose proof (Z.mod_pos_bound z' 146097 ltac:(done)). lia. }
  pose proof (day_of_era_bounds doe Hdoe) as Hok. unfold day_of_era_ok in Hok.
  cbv zeta in Hok.
  set (yoe := ((doe - doe / 1460 + doe / 36524 - doe / 146096) / 365)%Z) in *.
  set (doy := (doe - (365 * yoe + yoe / 4 - yoe / 100))%Z) in *.
  set (mp := ((5 * doy + 2) / 153)%Z) in *.
  set (d := (doy - (153 * mp + 2) / 5 + 1)%Z) in *.
  repeat (apply andb_true_iff in Hok as [Hok ?]).
  assert (Hy : ((yoe + era * 400) / 400 = era)%Z).
  { rewrite Z.div_add by done. rewrite Z.div_small by lia. lia. }
  unfold days_from_civil.
  destruct (Z.ltb_spec mp 10).
  - rewrite (proj2 (Z.leb_gt (mp + 3) 2)) by lia.
    rewrite (proj2 (Z.ltb_lt 2 (mp + 3))) by lia. cbv zeta.
    rewrite Hy. replace (mp + 3 - 3)%Z with mp by lia.
    replace (yoe + era * 400 - era * 400)%Z with yoe by lia. subst d doy doe z'.
    split; [lia|]. split; [lia|]. split; lia.
  - rewrite (proj2 (Z.leb_le (mp - 9) 2)) by lia.
    rewrite (proj2 (Z.ltb_ge 2 (mp - 9))) by lia. cbv zeta.
    replace (yoe + era * 400 + 1 - 1)%Z with (yoe + era * 400)%Z by lia.
    rewrite Hy. replace (mp - 9 + 9)%Z with mp by lia.
    replace (yoe + era * 400 - era * 400)%Z with yoe by lia. subst d doy doe z'.
    split; [lia|]. split; [lia|]. split; lia.
Qed.

End Dates.

Section IsoStrings.

Lemma digit_char (z : Z) :
  (0 ≤ z < 10)%Z →
  in_range 48 57 (48 + Z.to_N z) = true ∧ Z.of_N (48 + Z.to_N z - 48) = z.
Proof. intros H. rewrite in_range_spec. lia. Qed.

Lemma number_of_app (acc : Z) (s : jsstring) (c : N) :
  number_of acc (s ++ [c]) =
    match number_of acc s with
    | Some n => if in_range 48 57 c then Some (n * 10 + Z.of_N (c - 48))%Z else None
    | None => None
    end.
Proof.
  revert acc. induction s as [|a s IH]; intros acc; cbn [app number_of].
  - by destruct (in_range 48 57 c).
  - destruct (in_range 48 57 a); [apply IH|done].
Qed.

Lemma number_of_pad (w : nat) (z : Z) :
  (0 ≤ z)%Z → number_of 0 (pad w z) = Some (z mod 10 ^ Z.of_nat w)%Z.
Proof.
  revert z. induction w as [|w IH]; intros z Hz.
  - cbn [pad number_of]. by rewrite Z.mod_1_r.
  - cbn [pad]. rewrite number_of_app, IH by (apply Z.div_pos; lia).
    destruct (digit_char (z mod 10)) as [-> ->]; [apply Z.mod_pos_bound; lia|].
    f_equal. rewrite Nat2Z.inj_succ, Z.pow_succ_r by lia.
    rewrite Z.rem_mul_r by lia. lia.
Qed.

Lemma digits_pad (w : nat) (z : Z) :
  (0 ≤ z < 10 ^ Z.of_nat (S w))%Z → digits (pad (S w) z) = Some z.
Proof.
  intros H. unfold digits.
  destruct (pad (S w) z) eqn:Hp.
  - cbn [pad] in Hp. by destruct (pad w (z / 10)).
  - rewrite <- Hp, number_of_pad by lia. f_equal. apply Z.mod_small. lia.
Qed.

Lemma Date_parse_year4 (a b c d : N) (rest : jsstring) :
  in_range 48 57 a = true →
  Date_parse (a :: b :: c :: d :: rest)
  = TimeClip (y ← digits [a; b; c; d]; parse_after_year y rest).
Proof.
  intros H. apply in_range_spec in H.
  assert (Ha : a = 48 ∨ a = 49 ∨ a = 50 ∨ a = 51 ∨ a = 52 ∨ a = 53 ∨ a = 54
               ∨ a = 55 ∨ a = 56 ∨ a = 57) by lia.
  destruct Ha as [->|[->|[->|[->|[->|[->|[->|[->|[->| ->]]]]]]]]]; reflexivity.
Qed.

Lemma parse_after_year_pads (y m d h n s f : Z) :
  parse_after_year y
    ([45] ++ pad 2 m ++ [45] ++ pad 2 d ++ [84] ++ pad 2 h ++ [58] ++ pad 2 n
     ++ [58] ++ pad 2 s ++ [46] ++ pad 3 f ++ [90])
  = (m' ← digits (pad 2 m); d' ← digits (pad 2 d); h' ← digits (pad 2 h);
     n' ← digits (pad 2 n); sec ← digits (pad 2 s); f' ← digits (pad 3 f);
     if bool_decide (civil_from_days (days_from_civil y m' d') = (y, m', d'))
        && (h' <=? 24)%Z && (n' <=? 59)%Z && (sec <=? 59)%Z
        && ((h' <? 24)%Z || ((n' =? 0)%Z && (sec =? 0)%Z && (f' =? 0)%Z))
     then Some (days_from_civil y m' d' * 86400000 + h' * 3600000
                + n' * 60000 + sec * 1000 + f')%Z
     else None).
Proof. reflexivity. Qed.

End IsoStrings.

Section IsoRoundTrip.

Lemma pad4 (y : Z) :
  pad 4 y = [48 + Z.to_N (y / 10 / 10 / 10 mod 10); 48 + Z.to_N (y / 10 / 10 mod 10);
             48 + Z.to_N (y / 10 mod 10); 48 + Z.to_N (y mod 10)].
Proof. reflexivity. Qed.

Lemma pad6 (y : Z) :
  pad 6 y = [48 + Z.to_N (y / 10 / 10 / 10 / 10 / 10 mod 10);
             48 + Z.to_N (y / 10 / 10 / 10 / 10 mod 10);
             48 + Z.to_N (y / 10 / 10 / 10 mod 10); 48 + Z.to_N (y / 10 / 10 mod 10);
             48 + Z.to_N (y / 10 mod 10); 48 + Z.to_N (y mod 10)].
Proof. reflexivity. Qed.

Lemma Date_parse_plus (a b c d e f : N) (rest : jsstring) :
  Date_parse (43 :: a :: b :: c :: d :: e :: f :: rest)
  = TimeClip (y ← digits [a; b; c; d; e; f]; parse_after_year y rest).
Proof. reflexivity. Qed.

Lemma Date_parse_minus (a b c d e f : N) (rest : jsstring) :
  Date_parse (45 :: a :: b :: c :: d :: e :: f :: rest)
  = TimeClip (y ← digits [a; b; c; d; e; f];
              if (y =? 0)%Z then None else parse_after_year (- y) rest).
Proof. reflexivity. Qed.

Lemma time_of_day (t : Z) :
  let ms := (t mod 86400000)%Z in
  (0 ≤ ms / 3600000 < 24)%Z ∧ (0 ≤ ms / 60000 mod 60 < 60)%Z
  ∧ (0 ≤ ms / 1000 mod 60 < 60)%Z ∧ (0 ≤ ms mod 1000 < 1000)%Z
  ∧ (t / 86400000 * 86400000 + ms / 3600000 * 3600000 + ms / 60000 mod 60 * 60000
     + ms / 1000 mod 60 * 1000 + ms mod 1000 = t)%Z.
Proof.
  cbv zeta. pose proof (Z.mod_pos_bound t 86400000 ltac:(done)) as Hms.
  pose proof (Z.div_mod t 86400000 ltac:(done)) as Ht.
  set (ms := (t mod 86400000)%Z) in *.
  pose proof (Z.div_mod ms 1000 ltac:(done)).
  pose proof (Z.mod_pos_bound ms 1000 ltac:(done)).
  pose proof (Z.div_mod (ms / 1000) 60 ltac:(done)).
  pose proof (Z.mod_pos_bound (ms / 1000) 60 ltac:(done)).
  pose proof (Z.div_mod (ms / 1000 / 60) 60 ltac:(done)).
  pose proof (Z.mod_pos_bound (ms / 1000 / 60) 60 ltac:(done)).
  replace (ms / 60000)%Z with (ms / 1000 / 60)%Z by (rewrite Z.div_div by lia; done).
  replace (ms / 3600000)%Z with (ms / 1000 / 60 / 60)%Z
    by (rewrite !Z.div_div by lia; done).
  assert (0 ≤ ms / 1000 / 60 / 60 < 24)%Z.
  { split; [repeat apply Z.div_pos; lia|].
    repeat (apply Z.div_lt_upper_bound; [lia|]). lia. }
  lia.
Qed.

Lemma Date_parse_toISOString (t : Z) :
  TimeClip (Some t) = Some t → Date_parse (toISOString t) = Some t.
Proof.
  intros Hclip.
  assert (Ht : (Z.abs t ≤ 8640000000000000)%Z).
  { unfold TimeClip in Hclip. destruct (Z.leb_spec (Z.abs t) 8640000000000000); [done|done]. }
  unfold toISOString.
  pose proof (time_of_day t) as (Hh & Hn & Hs & Hf & Hsum). cbv zeta in Hh, Hn, Hs, Hf, Hsum.
  set (ms := (t mod 86400000)%Z) in *. set (day := (t / 86400000)%Z) in *.
  assert (Hday : (-100000000 ≤ day ≤ 100000000)%Z).
  { subst day. split.
    - apply Z.div_le_lower_bound; lia.
    - apply Z.div_le_upper_bound; lia. }
  pose proof (civil_days day) as Hc.
  destruct (civil_from_days day) as [[y m] d] eqn:Hcd. destruct Hc as (Hdays & Hm & Hd & Hy).
  assert (Hera : (-680 ≤ (day + 719468) / 146097 ≤ 690)%Z).
  { split; [apply Z.div_le_lower_bound; lia|apply Z.div_le_upper_bound; lia]. }
  assert (Hyb : (-999999 ≤ y ≤ 999999)%Z) by lia.
  assert (Hpa : parse_after_year y
    ([45] ++ pad 2 m ++ [45] ++ pad 2 d ++ [84] ++ pad 2 (ms / 3600000) ++ [58]
     ++ pad 2 (ms / 60000 mod 60) ++ [58] ++ pad 2 (ms / 1000 mod 60) ++ [46]
     ++ pad 3 (ms mod 1000) ++ [90]) = Some t).
  { rewrite parse_after_year_pads.
    rewrite !digits_pad by (cbn; lia). cbn [mbind option_bind].
    rewrite Hdays, Hcd. rewrite bool_decide_eq_true_2 by done.
    rewrite (proj2 (Z.leb_le _ 24)) by lia.
    rewrite (proj2 (Z.leb_le _ 59)) by lia.
    rewrite (proj2 (Z.leb_le (ms / 1000 mod 60) 59)) by lia.
    rewrite (proj2 (Z.ltb_lt _ 24)) by lia.
    cbn [andb orb]. f_equal. lia. }
  set (tail := [45] ++ pad 2 m ++ [45] ++ pad 2 d ++ [84] ++ pad 2 (ms / 3600000) ++ [58]
     ++ pad 2 (ms / 60000 mod 60) ++ [58] ++ pad 2 (ms / 1000 mod 60) ++ [46]
     ++ pad 3 (ms mod 1000) ++ [90]) in *.
  destruct (Z.leb_spec 0 y) as [Hy0|Hy0]; cbn [andb].
  - destruct (Z.leb_spec y 9999) as [Hy9|Hy9].
    + rewrite pad4. cbn [app].
      rewrite Date_parse_year4 by (apply digit_char, Z.mod_pos_bound; lia).
      rewrite <- pad4, digits_pad by (cbn; lia). cbn [mbind option_bind].
      by rewrite Hpa.
    + rewrite (proj2 (Z.ltb_ge y 0)) by lia.
      rewrite pad6. cbn [app]. rewrite Date_parse_plus.
      rewrite <- pad6, digits_pad by (cbn; lia). cbn [mbind option_bind].
      rewrite Z.abs_eq by lia.
      by rewrite Hpa.
  - rewrite (proj2 (Z.ltb_lt y 0)) by lia.
    rewrite pad6. cbn [app]. rewrite Date_parse_minus.
    rewrite <- pad6, digits_pad by (cbn; lia). cbn [mbind option_bind].
    rewrite (proj2 (Z.eqb_neq (Z.abs y) 0)) by lia.
    replace (- Z.abs y)%Z with y by lia.
    by rewrite Hpa.
Qed.

End IsoRoundTrip.

(** ** [JSON.parse] of the text of a list of records *)

Section JsonText.

Lemma stringify_object (o : object) :
  Forall (fun kv => plain (snd kv) || valid_date (snd kv) = true) o →
  stringify (VObj o) = Some (object_text o).
Proof.
  intros H. cbn [stringify]. unfold object_text. do 4 f_equal.
  induction H as [|[k v] o Hv Ho IH]; [done|]. cbn [map]. rewrite IH.
  unfold member_text at 2. cbn [fst snd].
  destruct v as [| |b|l|s|[t|]|l|p]; try done.
Qed.

Lemma stringify_objects (tasks : list object) :
  Forall (Forall (fun kv => plain (snd kv) || valid_date (snd kv) = true)) tasks →
  stringify (VArr (map VObj tasks))
  = Some ([91] ++ join [44] (map object_text tasks) ++ [93]).
Proof.
  intros H. cbn [stringify]. do 4 f_equal.
  induction H as [|o tasks Ho Ht IH]; [done|]. cbn [map]. rewrite IH.
  by rewrite (stringify_object o Ho).
Qed.

End JsonText.

Section JsonParse.

Lemma expect_ok (lit : string) (v : value) (r : jsstring) :
  expect lit v (str lit ++ r) = Some (v, r).
Proof.
  unfold expect. rewrite take_app_length, drop_app_length.
  by rewrite bool_decide_eq_true_2.
Qed.

Lemma str_null : str "null" = [110; 117; 108; 108].
Proof. vm_compute. reflexivity. Qed.

Lemma str_true : str "true" = [116; 114; 117; 101].
Proof. vm_compute. reflexivity. Qed.

Lemma str_false : str "false" = [102; 97; 108; 115; 101].
Proof. vm_compute. reflexivity. Qed.

Lemma parse_value_n fuel x :
  parse_value (S fuel) (110 :: x) = expect "null" VNull (110 :: x).
Proof. reflexivity. Qed.

Lemma parse_value_t fuel x :
  parse_value (S fuel) (116 :: x) = expect "true" (VBool true) (116 :: x).
Proof. reflexivity. Qed.

Lemma parse_value_f fuel x :
  parse_value (S fuel) (102 :: x) = expect "false" (VBool false) (102 :: x).
Proof. reflexivity. Qed.

Lemma parse_value_q fuel x :
  parse_value (S fuel) (34 :: x) = '(s, r) ← parse_string x; Some (VStr s, r).
Proof. reflexivity. Qed.

Lemma parse_value_string fuel s r :
  parse_value (S fuel) (quote s ++ r) = Some (VStr s, r).
Proof.
  unfold quote. rewrite <- !app_assoc. cbn [app].
  by rewrite parse_value_q, parse_quote.
Qed.

Lemma parse_value_plain fuel v r :
  plain v || valid_date v = true →
  parse_value (S fuel) (default [] (stringify v) ++ r) = Some (to_json v, r).
Proof.
  destruct v as [| |b|l|s|[t|]|l|p]; try (by intros [=]); intros H;
    cbn [stringify default to_json]; unfold id.
  - destruct b.
    + rewrite <- (expect_ok "true" (VBool true) r). rewrite str_true. cbn [app].
      apply parse_value_t.
    + rewrite <- (expect_ok "false" (VBool false) r). rewrite str_false. cbn [app].
      apply parse_value_f.
  - apply parse_value_string.
  - cbn [plain valid_date orb] in H. apply bool_decide_eq_true in H. rewrite H.
    apply parse_value_string.
Qed.

Lemma parse_members_step fuel acc k text rest :
  parse_members (S fuel) acc (quote k ++ [58] ++ text ++ rest)
  = '(v, r2) ← parse_value fuel (text ++ rest);
    match skip_ws r2 with
    | 44 :: r3 => parse_members fuel (set acc k v) r3
    | 125 :: r3 => Some (set acc k v, r3)
    | _ => None
    end.
Proof.
  unfold quote. rewrite <- !app_assoc. cbn [app].
  change (parse_members (S fuel) acc (34 :: ?t))
    with ('(k, r) ← parse_string t;
          match skip_ws r with
          | 58 :: r1 =>
              '(v, r2) ← parse_value fuel r1;
              match skip_ws r2 with
              | 44 :: r3 => parse_members fuel (set acc k v) r3
              | 125 :: r3 => Some (set acc k v, r3)
              | _ => None
              end
          | _ => None
          end).
  rewrite parse_quote. reflexivity.
Qed.

Lemma parse_members_ok (o : object) (acc : object) (fuel : nat) (r : jsstring) :
  Forall (fun kv => plain (snd kv) || valid_date (snd kv) = true) o →
  o ≠ [] → (length o < fuel)%nat →
  parse_members fuel acc (join [44] (map member_text o) ++ 125 :: r)
  = Some (fold_left (fun a kv => set a (fst kv) (to_json (snd kv))) o acc, r).
Proof.
  intros H. revert acc fuel. induction H as [|[k v] o Hv Ho IH]; intros acc fuel Hne Hf; [done|].
  destruct fuel as [|fuel]; [lia|]. cbn [length] in Hf.
  destruct fuel as [|fuel]; [lia|].
  cbn [map fold_left fst snd]. unfold member_text at 1. cbn [fst snd].
  destruct o as [|kv o'].
  - cbn [join map]. rewrite <- !app_assoc.
    rewrite parse_members_step, parse_value_plain by done. reflexivity.
  - change (join [44] (?x :: map member_text (kv :: o')))
      with (x ++ [44] ++ join [44] (map member_text (kv :: o'))).
    rewrite <- !app_assoc.
    rewrite parse_members_step, parse_value_plain by done.
    cbn [mbind option_bind app skip_ws]. change (is_json_space 44) with false. cbn iota.
    apply IH; [done|cbn [length] in *; lia].
Qed.


Lemma set_fresh (o : object) (k : jsstring) (v : value) :
  k ∉ map fst o → set o k v = o ++ [(k, v)].
Proof.
  induction o as [|[k' v'] o IH]; cbn [set map fst app]; [done|].
  intros H. apply not_elem_of_cons in H as [Hne H].
  rewrite decide_False by done. by rewrite IH.
Qed.

Lemma fold_set (o acc : object) :
  NoDup (map fst acc ++ map fst o) →
  fold_left (fun a kv => set a (fst kv) (to_json (snd kv))) o acc = acc ++ json_image o.
Proof.
  revert acc. induction o as [|[k v] o IH]; intros acc Hnd; cbn [fold_left json_image map fst snd].
  - by rewrite app_nil_r.
  - cbn [map fst] in Hnd.
    rewrite set_fresh.
    2: { apply NoDup_app in Hnd as (_ & Hnd & _). intros Hin. apply (Hnd k Hin). by left. }
    rewrite IH.
    + by rewrite <- app_assoc.
    + rewrite map_app. cbn [map fst]. rewrite <- app_assoc. done.
Qed.

Lemma parse_value_brace fuel x :
  parse_value (S fuel) (123 :: 34 :: x)
  = '(o, r) ← parse_members fuel [] (34 :: x); Some (VObj o, r).
Proof. reflexivity. Qed.

Lemma join_cons_text (l : list jsstring) (x : jsstring) :
  l ≠ [] → join [44] (x :: l) = x ++ [44] ++ join [44] l.
Proof. by destruct l. Qed.

Lemma member_text_quote (kv : jsstring * value) :
  ∃ x, member_text kv = 34 :: x.
Proof. unfold member_text, quote. cbn [app]. by eexists. Qed.

Lemma parse_value_object (o : object) (fuel : nat) (r : jsstring) :
  Forall (fun kv => plain (snd kv) || valid_date (snd kv) = true) o →
  NoDup (map fst o) → o ≠ [] → (S (length o) < fuel)%nat →
  parse_value fuel (object_text o ++ r) = Some (VObj (json_image o), r).
Proof.
  intros Hv Hnd Hne Hf. destruct fuel as [|fuel]; [lia|].
  pose proof (parse_members_ok o [] fuel r Hv Hne ltac:(lia)) as Hp.
  rewrite fold_set in Hp by done. cbn [app] in Hp.
  unfold object_text. rewrite <- !app_assoc. cbn [app].
  destruct o as [|kv o']; [done|].
  destruct (member_text_quote kv) as [x Hx].
  assert (Hj : ∃ y, join [44] (map member_text (kv :: o')) = 34 :: y).
  { cbn [map]. destruct o' as [|kv' o'']; cbn [map join]; rewrite Hx; by eexists. }
  destruct Hj as [y Hy]. rewrite Hy in Hp |- *. cbn [app] in Hp |- *.
  by rewrite parse_value_brace, Hp.
Qed.

Lemma parse_elements_step fuel s :
  parse_elements (S fuel) s
  = '(v, r) ← parse_value fuel s;
    match skip_ws r with
    | 44 :: r' => '(l, r'') ← parse_elements fuel r'; Some (v :: l, r'')
    | 93 :: r' => Some ([v], r')
    | _ => None
    end.
Proof. reflexivity. Qed.

Lemma parse_elements_ok (tasks : list object) (fuel : nat) (r : jsstring) :
  Forall writable tasks → tasks ≠ [] →
  (length (concat tasks) + length tasks + 2 < fuel)%nat →
  parse_elements fuel (join [44] (map object_text tasks) ++ 93 :: r)
  = Some (map (fun o => VObj (json_image o)) tasks, r).
Proof.
  intros H. revert fuel. induction H as [|o tasks (Hv & Hnd & Hne) Ht IH]; intros fuel Hne' Hf; [done|].
  destruct fuel as [|fuel]; [lia|]. rewrite parse_elements_step.
  cbn [concat length] in Hf. rewrite length_app in Hf.
  destruct tasks as [|o' tasks'].
  - cbn [map join]. rewrite parse_value_object by (try done; lia). reflexivity.
  - change (map object_text (o :: o' :: tasks'))
      with (object_text o :: map object_text (o' :: tasks')).
    rewrite (join_cons_text _ (object_text o)) by done.
    rewrite <- !app_assoc.
    rewrite parse_value_object by (try done; lia).
    cbn [mbind option_bind app skip_ws]. change (is_json_space 44) with false. cbn iota.
    rewrite IH by (try done; cbn [concat length] in *; lia). reflexivity.
Qed.

Lemma parse_value_bracket fuel x :
  parse_value (S fuel) (91 :: 123 :: x)
  = '(l, r) ← parse_elements fuel (123 :: x); Some (VArr l, r).
Proof. reflexivity. Qed.

Lemma join_length (l : list jsstring) :
  (length (concat l) ≤ length (join [44%N] l))%nat.
Proof.
  induction l as [|x l IH]; [done|]. destruct l as [|y l].
  - cbn [concat join]. rewrite app_nil_r. lia.
  - change (join [44] (x :: y :: l)) with (x ++ [44] ++ join [44] (y :: l)).
    change (concat (x :: y :: l)) with (x ++ concat (y :: l)).
    rewrite !length_app. lia.
Qed.

Lemma object_text_length (o : object) : (length o + 2 ≤ length (object_text o))%nat.
Proof.
  unfold object_text. rewrite !length_app. cbn [length].
  pose proof (join_length (map member_text o)) as H.
  assert (length o ≤ length (concat (map member_text o)))%nat; [|lia].
  clear. induction o as [|kv o IH]; [done|]. cbn [map concat length].
  rewrite length_app. destruct (member_text_quote kv) as [x ->]. cbn [length]. lia.
Qed.

Lemma objects_text_length (tasks : list object) :
  (length (concat tasks) + 2 * length tasks
   ≤ length (join [44%N] (map object_text tasks)))%nat.
Proof.
  pose proof (join_length (map object_text tasks)) as H.
  assert (length (concat tasks) + 2 * length tasks
          ≤ length (concat (map object_text tasks)))%nat; [|lia].
  clear. induction tasks as [|o tasks IH]; [done|]. cbn [map concat length].
  rewrite !length_app. pose proof (object_text_length o). lia.
Qed.

Lemma JSON_parse_objects (tasks : list object) :
  Forall writable tasks →
  JSON_parse (default [] (stringify (VArr (map VObj tasks))))
  = Ret (VArr (map (fun o => VObj (json_image o)) tasks)).
Proof.
  intros H. rewrite stringify_objects by (eapply Forall_impl; [exact H|]; by intros o (? & _)).
  cbn [default]. unfold id. unfold JSON_parse.
  destruct tasks as [|o tasks]; [reflexivity|].
  set (text := [91] ++ join [44] (map object_text (o :: tasks)) ++ [93]).
  assert (Hlen : (length (concat (o :: tasks)) + length (o :: tasks) + 2 < 2 * length text + 1)%nat).
  { subst text. rewrite !length_app. cbn [length].
    pose proof (objects_text_length (o :: tasks)). cbn [length] in *. lia. }
  assert (Hb : ∃ x, join [44] (map object_text (o :: tasks)) = 123 :: x).
  { destruct tasks; cbn [map join]; unfold object_text at 1; cbn [app]; by eexists. }
  pose proof (parse_elements_ok (o :: tasks) (2 * length text + 1) [] H ltac:(done) Hlen) as Hp.
  subst text. destruct Hb as [x Hx]. rewrite Hx in *.
  set (fuel := (2 * length ([91%N] ++ (123%N :: x) ++ [93%N]) + 1)%nat) in *.
  replace (2 * length ([91%N] ++ (123%N :: x) ++ [93%N]) + 2)%nat with (S fuel)
    by (subst fuel; lia).
  cbn [app] in Hp |- *. rewrite parse_value_bracket, Hp. reflexivity.
Qed.

End JsonParse.

(** ** What [loadTasks] makes of the records it reads *)

Section Revive.

Lemma get_In (o : object) (k : jsstring) (v : value) :
  NoDup (map fst o) → (k, v) ∈ o → get o k = v.
Proof.
  induction o as [|[k' v'] o IH]; cbn [map fst get]; intros Hnd Hin.
  - by apply elem_of_nil in Hin.
  - apply NoDup_cons in Hnd as [Hk Hnd].
    apply elem_of_cons in Hin as [[= <- <-]|Hin]; [by rewrite decide_True|].
    rewrite decide_False; [by apply IH|].
    intros ->. apply Hk. apply list_elem_of_fmap. by exists (k, v).
Qed.

Lemma get_defined (o : object) (k : jsstring) :
  get o k ≠ VUndef → (k, get o k) ∈ o.
Proof.
  induction o as [|[k' v'] o IH]; cbn [get]; [done|].
  destruct (decide (k' = k)) as [->|Hne]; [by left|]. intros H. right. by apply IH.
Qed.

Lemma get_json_image (o : object) (k : jsstring) :
  get (json_image o) k = to_json (get o k).
Proof.
  induction o as [|[k' v'] o IH]; cbn [json_image map get fst snd]; [done|].
  by destruct (decide (k' = k)).
Qed.

Lemma set_present (o : object) (k : jsstring) (v : value) :
  NoDup (map fst o) → k ∈ map fst o →
  set o k v = map (fun kv => if decide (fst kv = k) then (k, v) else kv) o.
Proof.
  induction o as [|[k' v'] o IH]; cbn [map fst set]; intros Hnd Hin.
  - by apply elem_of_nil in Hin.
  - apply NoDup_cons in Hnd as [Hk Hnd]. cbn [fst].
    destruct (decide (k' = k)) as [->|Hne].
    + f_equal. rewrite <- (map_id o) at 1. apply map_ext_in. intros [k2 v2] Hin2.
      cbn [fst]. rewrite decide_False; [done|]. intros ->. apply Hk.
      apply list_elem_of_fmap. exists (k, v2). split; [done|]. by apply list_elem_of_In.
    + f_equal. apply IH; [done|]. by apply elem_of_cons in Hin as [?|?].
Qed.

Lemma toISOString_cons (t : Z) : ∃ c s, toISOString t = c :: s.
Proof.
  unfold toISOString. destruct (civil_from_days _) as [[y m] d].
  destruct (_ && _).
  - rewrite pad4. cbn [app]. by eexists _, _.
  - cbn [app]. by eexists _, _.
Qed.

Lemma revive_date (v : value) :
  valid_date v = true →
  VDate (new_Date (to_json v)) = v ∧ truthy (to_json v) = true.
Proof.
  destruct v as [| | | | |[t|]| |]; try done. cbn [valid_date to_json new_Date].
  intros H. apply bool_decide_eq_true in H.
  rewrite Date_parse_toISOString by done. split; [done|].
  destruct (toISOString_cons t) as (c & s & ->). done.
Qed.

Lemma revived_json_image (o : object) :
  stored_form o = true → revived (json_image o) = o.
Proof.
  unfold stored_form. intros H.
  apply andb_true_iff in H as [H Hplain]. apply andb_true_iff in H as [H Hd].
  apply andb_true_iff in H as [Hnd Hc]. apply bool_decide_eq_true in Hnd.
  assert (Hnd' : NoDup (map fst (json_image o))).
  { unfold json_image. rewrite map_map. cbn [fst]. done. }
  assert (HcIn : (str "createdAt", get o (str "createdAt")) ∈ o).
  { apply get_defined. by destruct (get o (str "createdAt")). }
  assert (HdIn : (str "completedAt", get o (str "completedAt")) ∈ o).
  { apply get_defined. apply orb_true_iff in Hd as [Hd|Hd].
    - by destruct (get o (str "completedAt")).
    - by destruct (get o (str "completedAt")). }
  unfold revived. rewrite !get_json_image.
  destruct (revive_date _ Hc) as [-> _].
  assert (Hd' : (if truthy (to_json (get o (str "completedAt")))
                 then VDate (new_Date (to_json (get o (str "completedAt")))) else VNull)
                = get o (str "completedAt")).
  { apply orb_true_iff in Hd as [Hd|Hd].
    - by destruct (get o (str "completedAt")).
    - destruct (revive_date _ Hd) as [-> ->]. done. }
  rewrite Hd'.
  assert (Hkeys : ∀ k v, (k, v) ∈ o → k ∈ map fst (json_image o)).
  { intros k v Hin. unfold json_image. rewrite map_map. cbn [fst].
    apply list_elem_of_fmap. by exists (k, v). }
  rewrite (set_present (json_image o)) by eauto.
  rewrite set_present.
  2: { rewrite map_map. erewrite map_ext; [exact Hnd'|]. intros [k v]. cbn [fst].
       by destruct (decide (k = str "createdAt")). }
  2: { rewrite map_map. erewrite map_ext; [by eapply Hkeys|]. intros [k v]. cbn [fst].
       by destruct (decide (k = str "createdAt")). }
  unfold json_image. rewrite !map_map.
  transitivity (map id o); [|apply map_id].
  apply map_ext_in. intros [k v] Hin. apply list_elem_of_In in Hin. cbn [fst snd].
  unfold id. pose proof (get_In o k v Hnd Hin) as Hg.
  destruct (decide (k = str "createdAt")) as [->|Hk1]; cbn [fst].
  - rewrite decide_False by done. by rewrite Hg.
  - destruct (decide (k = str "completedAt")) as [->|Hk2].
    + by rewrite Hg.
    + f_equal. pose proof (proj1 (forallb_forall _ _) Hplain (k, v)) as Hp.
      cbn [fst snd] in Hp. rewrite !bool_decide_eq_false_2 in Hp by done.
      cbn [orb] in Hp. specialize (Hp ltac:(by apply list_elem_of_In)).
      by destruct v.
Qed.

Lemma stored_form_writable (o : object) : stored_form o = true → writable o.
Proof.
  unfold stored_form. intros H.
  apply andb_true_iff in H as [H Hplain]. apply andb_true_iff in H as [H Hd].
  apply andb_true_iff in H as [Hnd Hc]. apply bool_decide_eq_true in Hnd.
  split; [|split; [done|]].
  - apply Forall_forall. intros [k v] Hin. cbn [snd].
    pose proof (proj1 (forallb_forall _ _) Hplain (k, v) ltac:(by apply list_elem_of_In)) as Hp.
    cbn [fst snd] in Hp.
    destruct (bool_decide_reflect (k = str "createdAt")) as [->|Hk1].
    { rewrite <- (get_In o _ v Hnd Hin). by rewrite Hc, orb_true_r. }
    destruct (bool_decide_reflect (k = str "completedAt")) as [->|Hk2].
    { rewrite <- (get_In o _ v Hnd Hin).
      apply orb_true_iff in Hd as [Hd|Hd]; [|by rewrite Hd, orb_true_r].
      by destruct (get o (str "completedAt")). }
    cbn [orb] in Hp. by rewrite Hp.
  - intros ->. done.
Qed.

End Revive.

(** ** The storage manager *)

Section StoreRoundTrip.

Lemma key_not_test : str "reading-tasks" ≠ StorageManager.storage_test.
Proof. by vm_compute. Qed.

Lemma getStorage_content (w : StorageManager.world) (a b : area) :
  keyed w →
  content b (snd (StorageManager.getStorage w)) = content b w
  ∧ keyed (snd (StorageManager.getStorage w)).
Proof.
  intros Hk. rewrite getStorage_eq. unfold content, keyed in *.
  destruct (probe _); cbn [snd StorageManager.browser StorageManager.this
                            StorageManager.storageKey]; [|done].
  split; [|done]. destruct b; cbn [the put localStorage sessionStorage]; [|done].
  unfold probed. cbn [items with_items]. rewrite lookup_delete_ne; [done|].
  rewrite Hk. intros H. by apply key_not_test.
Qed.

(** [loadTasks] in terms of what the area that [getStorage] selects holds
    before the call. *)
Lemma loadTasks_of (w : StorageManager.world) (a : area) :
  keyed w → fst (StorageManager.getStorage w) = Ret a →
  fst (StorageManager.loadTasks w) =
    match content a w with
    | None | Some [] => Ret []
    | Some text =>
        try_catch (tasks ← JSON_parse text; StorageManager.map_tasks tasks)
                  (fun _ => Ret [])
    end.
Proof.
  intros Hk Ha. destruct (getStorage_content w a a Hk) as [Hc _].
  destruct (StorageManager.getStorage w) as [r w1] eqn:Hg. cbn [fst snd] in *. subst r.
  rewrite (loadTasks_content w w1 a Hg). by rewrite <- Hc.
Qed.

Lemma saveTasks_content (tasks : list object) (w w1 : StorageManager.world) :
  StorageManager.saveTasks tasks w = (Ret true, w1) →
  ∃ a, fst (StorageManager.getStorage w) = Ret a
       ∧ content a w1 = Some (default [] (stringify (VArr (map VObj tasks))))
       ∧ StorageManager.this w1 = StorageManager.this (snd (StorageManager.getStorage w)).
Proof.
  unfold StorageManager.saveTasks.
  destruct (StorageManager.getStorage w) as [[a|e] w0]; [|done].
  unfold setItem. destruct (negb _); [done|]. destruct (_ <? _)%nat; [done|].
  intros [= <-]. exists a. split; [done|]. split; [|done].
  unfold content. cbn [StorageManager.browser StorageManager.this].
  destruct a; cbn [the put localStorage sessionStorage items with_items];
    apply lookup_insert_eq.
Qed.

Lemma load_text (tasks : list object) :
  Forall (fun o => stored_form o = true) tasks →
  match default [] (stringify (VArr (map VObj tasks))) with
  | [] => Ret []
  | text => try_catch (tasks ← JSON_parse text; StorageManager.map_tasks tasks)
                      (fun _ => Ret [])
  end = Ret tasks.
Proof.
  intros H.
  assert (Hw : Forall writable tasks).
  { eapply Forall_impl; [exact H|]. intros o. apply stored_form_writable. }
  pose proof (JSON_parse_objects tasks Hw) as Hp.
  destruct (default [] (stringify (VArr (map VObj tasks)))) as [|c text] eqn:Ht.
  { rewrite stringify_objects in Ht by (eapply Forall_impl; [exact Hw|]; by intros o (? & _)).
    done. }
  rewrite Hp. cbn [mbind result_bind JS.bind].
  replace (map (fun o => VObj (json_image o)) tasks) with (map VObj (map json_image tasks))
    by (by rewrite map_map).
  rewrite map_tasks_objects. cbn [try_catch]. f_equal.
  rewrite map_map. transitivity (map id tasks); [|apply map_id].
  apply map_ext_Forall. eapply Forall_impl; [exact H|]. intros o Ho.
  by apply revived_json_image.
Qed.

End StoreRoundTrip.

(** X18: when [saveTasks] returns true for a list of records of the
    stored form (distinct keys, a valid date at [createdAt], [null] or a
    valid date at [completedAt], strings, booleans or [null] elsewhere) and
    the next call selects the same storage area, [loadTasks] returns that
    list, with every date a [Date] again. *)
Theorem X18_saveTasks_then_loadTasks (tasks : list object) (w w1 : StorageManager.world) :
  keyed w →
  Forall (fun o => stored_form o = true) tasks →
  StorageManager.saveTasks tasks w = (Ret true, w1) →
  fst (StorageManager.getStorage w1) = fst (StorageManager.getStorage w) →
  fst (StorageManager.loadTasks w1) = Ret tasks.
Proof.
  intros Hk Hs Hsave Hsame.
  destruct (saveTasks_content tasks w w1 Hsave) as (a & Ha & Hc & Hthis).
  assert (Hk1 : keyed w1).
  { unfold keyed. rewrite Hthis. by apply (getStorage_content w a a). }
  rewrite (loadTasks_of w1 a Hk1) by congruence.
  rewrite Hc. by apply load_text.
Qed.

Lemma X18_saveTasks_then_loadTasks_witness :
  let w := Example.world_of Example.roomy Example.roomy in
  fst (StorageManager.loadTasks (snd (StorageManager.saveTasks [Example.task0] w)))
  = Ret [Example.task0].
Proof.
  intros w.
  apply (X18_saveTasks_then_loadTasks [Example.task0] w).
  - reflexivity.
  - constructor; [vm_compute; reflexivity|constructor].
  - vm_compute. reflexivity.
  - vm_compute. reflexivity.
Defined.

Section StoreWrites.

Lemma loadTasks_split (w : StorageManager.world) :
  StorageManager.loadTasks w
  = (fst (StorageManager.loadTasks w), snd (StorageManager.getStorage w)).
Proof. rewrite <- loadTasks_state. by destruct (StorageManager.loadTasks w). Qed.

Lemma same_area_after_load (w : StorageManager.world) :
  fst (StorageManager.getStorage (snd (StorageManager.getStorage w)))
  = fst (StorageManager.getStorage w).
Proof. by rewrite getStorage_again. Qed.

Lemma written_then_loaded (tasks : list object) (w w1 : StorageManager.world) :
  keyed w →
  Forall (fun o => stored_form o = true) tasks →
  StorageManager.saveTasks tasks (snd (StorageManager.getStorage w)) = (Ret true, w1) →
  fst (StorageManager.getStorage w1) = fst (StorageManager.getStorage w) →
  fst (StorageManager.loadTasks w1) = Ret tasks.
Proof.
  intros Hk Hs Hsave Hsame.
  destruct (saveTasks_content tasks _ w1 Hsave) as (a & Ha & Hc & Hthis).
  rewrite same_area_after_load in Ha.
  destruct (getStorage_content w a a Hk) as [_ Hk0].
  assert (Hk1 : keyed w1).
  { unfold keyed. rewrite Hthis.
    by apply (getStorage_content (snd (StorageManager.getStorage w)) a a). }
  rewrite (loadTasks_of w1 a Hk1) by congruence.
  rewrite Hc. by apply load_text.
Qed.

(** What [saveTask], [updateTask] and [deleteTask] hand to [saveTasks]
    when they return true. *)
Lemma saveTask_saves (task : object) (old : list object) (w w1 : StorageManager.world) :
  fst (StorageManager.loadTasks w) = Ret old →
  StorageManager.saveTask task w = (Ret true, w1) →
  StorageManager.saveTasks
    (match StorageManager.findIndex (StorageManager.id_string task) old with
     | Some i => <[i := StorageManager.sanitizeTaskData task]> old
     | None => old ++ [StorageManager.sanitizeTaskData task]
     end) (snd (StorageManager.getStorage w)) = (Ret true, w1).
Proof.
  intros Hold Hsave. unfold StorageManager.saveTask in Hsave.
  destruct (negb _); [done|]. by rewrite loadTasks_split, Hold in Hsave.
Qed.

Lemma updateTask_saves (taskId : jsstring) (updates : object) (old : list object)
  (w w1 : StorageManager.world) :
  fst (StorageManager.loadTasks w) = Ret old →
  StorageManager.updateTask taskId updates w = (Ret true, w1) →
  ∃ i, StorageManager.findIndex taskId old = Some i
       ∧ StorageManager.saveTasks (alter (fun t => merge t updates) i old)
           (snd (StorageManager.getStorage w)) = (Ret true, w1).
Proof.
  intros Hold Hupd. unfold StorageManager.updateTask in Hupd.
  rewrite loadTasks_split, Hold in Hupd.
  destruct (StorageManager.findIndex taskId old) as [i|]; [|done]. by exists i.
Qed.

Lemma deleteTask_saves (taskId : jsstring) (old : list object)
  (w w1 : StorageManager.world) :
  fst (StorageManager.loadTasks w) = Ret old →
  StorageManager.deleteTask taskId w = (Ret true, w1) →
  StorageManager.saveTasks
    (filter (fun t => is_string (get t (str "id")) taskId = false) old)
    (snd (StorageManager.getStorage w)) = (Ret true, w1)
  ∧ length (filter (fun t => is_string (get t (str "id")) taskId = false) old)
    ≠ length old.
Proof.
  intros Hold Hdel. unfold StorageManager.deleteTask in Hdel.
  rewrite loadTasks_split, Hold in Hdel.
  by destruct (Nat.eqb_spec
                 (length (filter (fun t => is_string (get t (str "id")) taskId = false) old))
                 (length old)).
Qed.

Lemma alter_stored (f : object → object) (i : nat) (old : list object) :
  Forall (fun o => stored_form o = true) old →
  (∀ t, t ∈ old → stored_form (f t) = true) →
  Forall (fun o => stored_form o = true) (alter f i old).
Proof.
  intros Hs Hm.
  apply Forall_forall. intros t Ht. apply list_elem_of_lookup in Ht as [j Hj].
  destruct (decide (i = j)) as [<-|Hne].
  - rewrite list_lookup_alter_eq in Hj.
    destruct (old !! i) as [u|] eqn:Hu; [|done]. injection Hj as <-.
    apply Hm. by eapply list_elem_of_lookup_2.
  - rewrite list_lookup_alter_ne in Hj by done.
    apply (proj1 (Forall_forall _ _) Hs). by eapply list_elem_of_lookup_2.
Qed.

End StoreWrites.

(** X19: when [saveTask] returns true, the stored list and the sanitized
    record are of the stored form and the next call selects the same
    storage area, [loadTasks] returns the stored list with the sanitized
    record in the place of the first record with its id, or at the end when
    there is none. *)
Theorem X19_saveTask_then_loadTasks (task : object) (old : list object)
  (w w1 : StorageManager.world) :
  keyed w →
  fst (StorageManager.loadTasks w) = Ret old →
  Forall (fun o => stored_form o = true) old →
  stored_form (StorageManager.sanitizeTaskData task) = true →
  StorageManager.saveTask task w = (Ret true, w1) →
  fst (StorageManager.getStorage w1) = fst (StorageManager.getStorage w) →
  fst (StorageManager.loadTasks w1)
  = Ret (match StorageManager.findIndex (StorageManager.id_string task) old with
         | Some i => <[i := StorageManager.sanitizeTaskData task]> old
         | None => old ++ [StorageManager.sanitizeTaskData task]
         end).
Proof.
  intros Hk Hold Hs Ht Hsave Hsame.
  apply (written_then_loaded _ w w1); [done| |by apply saveTask_saves|done].
  destruct (StorageManager.findIndex _ old).
  - by apply Forall_insert.
  - apply Forall_app. split; [done|]. by constructor.
Qed.

Lemma X19_saveTask_then_loadTasks_witness :
  let w := Example.world_of Example.roomy Example.roomy in
  fst (StorageManager.loadTasks (snd (StorageManager.saveTask Example.task0 w)))
  = Ret [StorageManager.sanitizeTaskData Example.task0].
Proof.
  intros w.
  apply (X19_saveTask_then_loadTasks Example.task0 [] w).
  - reflexivity.
  - vm_compute. reflexivity.
  - constructor.
  - vm_compute. reflexivity.
  - vm_compute. reflexivity.
  - vm_compute. reflexivity.
Defined.

(** X20: when [updateTask] returns true, the stored list is of the stored
    form and stays so with the updates merged in, and the next call
    selects the same storage area, then the stored list had a record with
    the id and [loadTasks] returns it with the updates merged into the
    first such record and every other record as it was. *)
Theorem X20_updateTask_then_loadTasks (taskId : jsstring) (updates : object)
  (old : list object) (w w1 : StorageManager.world) :
  keyed w →
  fst (StorageManager.loadTasks w) = Ret old →
  Forall (fun o => stored_form o = true) old →
  (∀ t, t ∈ old → stored_form (merge t updates) = true) →
  StorageManager.updateTask taskId updates w = (Ret true, w1) →
  fst (StorageManager.getStorage w1) = fst (StorageManager.getStorage w) →
  ∃ i, StorageManager.findIndex taskId old = Some i
       ∧ fst (StorageManager.loadTasks w1)
         = Ret (alter (fun t => merge t updates) i old).
Proof.
  intros Hk Hold Hs Hm Hupd Hsame.
  destruct (updateTask_saves taskId updates old w w1 Hold Hupd) as (i & Hi & Hsave).
  exists i. split; [done|].
  apply (written_then_loaded _ w w1); [done| |done|done]. by apply alter_stored.
Qed.

Lemma X20_updateTask_then_loadTasks_witness :
  let w := snd (StorageManager.saveTask Example.task0
                  (Example.world_of Example.roomy Example.roomy)) in
  let updates := [ (str "status", VStr (str "completed"));
                   (str "completedAt", VDate (Some 1736935260000%Z)) ] in
  fst (StorageManager.loadTasks (snd (StorageManager.updateTask Example.id0 updates w)))
  = Ret [merge (StorageManager.sanitizeTaskData Example.task0) updates].
Proof.
  intros w updates.
  destruct (X20_updateTask_then_loadTasks Example.id0 updates
              [StorageManager.sanitizeTaskData Example.task0] w
              (snd (StorageManager.updateTask Example.id0 updates w)))
    as (i & Hi & Hload).
  - reflexivity.
  - vm_compute. reflexivity.
  - constructor; [vm_compute; reflexivity|constructor].
  - intros t Ht. apply list_elem_of_singleton in Ht. subst t. vm_compute. reflexivity.
  - vm_compute. reflexivity.
  - vm_compute. reflexivity.
  - vm_compute in Hi. injection Hi as <-. exact Hload.
Defined.

(** X21: when [deleteTask] returns true, the stored list is of the stored
    form and the next call selects the same storage area, then the stored
    list had a record with the id and [loadTasks] returns it without the
    records with that id, the others in their order. *)
Theorem X21_deleteTask_then_loadTasks (taskId : jsstring)
  (old : list object) (w w1 : StorageManager.world) :
  keyed w →
  fst (StorageManager.loadTasks w) = Ret old →
  Forall (fun o => stored_form o = true) old →
  StorageManager.deleteTask taskId w = (Ret true, w1) →
  fst (StorageManager.getStorage w1) = fst (StorageManager.getStorage w) →
  fst (StorageManager.loadTasks w1)
  = Ret (filter (fun t => is_string (get t (str "id")) taskId = false) old)
  ∧ (∃ t, t ∈ old ∧ is_string (get t (str "id")) taskId = true).
Proof.
  intros Hk Hold Hs Hdel Hsame.
  destruct (deleteTask_saves taskId old w w1 Hold Hdel) as [Hsave Hne].
  split.
  - apply (written_then_loaded _ w w1); [done| |done|done].
    eapply sublist_Forall; [apply sublist_filter|done].
  - clear -Hne. induction old as [|t old IH]; [done|].
    destruct (is_string (get t (str "id")) taskId) eqn:Ht.
    + exists t. split; [by left|done].
    + rewrite filter_cons_True in Hne by done. cbn [length] in Hne.
      destruct IH as (u & Hu & Hid); [lia|]. exists u. split; [by right|done].
Qed.

Lemma X21_deleteTask_then_loadTasks_witness :
  let w := snd (StorageManager.saveTask Example.task0
                  (Example.world_of Example.roomy Example.roomy)) in
  fst (StorageManager.loadTasks (snd (StorageManager.deleteTask Example.id0 w))) = Ret [].
Proof.
  intros w.
  refine (proj1 (X21_deleteTask_then_loadTasks Example.id0
                   [StorageManager.sanitizeTaskData Example.task0] w
                   (snd (StorageManager.deleteTask Example.id0 w)) _ _ _ _ _)).
  - reflexivity.
  - vm_compute. reflexivity.
  - constructor; [vm_compute; reflexivity|constructor].
  - vm_compute. reflexivity.
  - vm_compute. reflexivity.
Defined.

(** X22: when [clearAllTasks] returns true and the next call selects the
    same storage area, [loadTasks] returns the empty list. *)
Theorem X22_clearAllTasks_then_loadTasks (w w1 : StorageManager.world) :
  keyed w →
  StorageManager.clearAllTasks w = (Ret true, w1) →
  fst (StorageManager.getStorage w1) = fst (StorageManager.getStorage w) →
  fst (StorageManager.loadTasks w1) = Ret [].
Proof.
  intros Hk Hclear Hsame. unfold StorageManager.clearAllTasks in Hclear.
  destruct (getStorage_content w Local Local Hk) as [_ Hk0].
  destruct (StorageManager.getStorage w) as [[a|e] w0] eqn:Hg; [|done].
  unfold removeItem in Hclear. destruct (negb _); [done|].
  injection Hclear as <-. cbn [fst snd] in *.
  assert (Hk1 : keyed (StorageManager.mkWorld (StorageManager.this w0)
                   (put a (with_items (the a (StorageManager.browser w0))
                      (delete (StorageManager.storageKey (StorageManager.this w0))
                         (items (the a (StorageManager.browser w0)))))
                      (StorageManager.browser w0)))) by done.
  rewrite (loadTasks_of _ a Hk1) by done.
  unfold content. cbn [StorageManager.browser StorageManager.this].
  assert (Hnone : items (the a (put a (with_items (the a (StorageManager.browser w0))
                      (delete (StorageManager.storageKey (StorageManager.this w0))
                         (items (the a (StorageManager.browser w0)))))
                      (StorageManager.browser w0)))
                  !! StorageManager.storageKey (StorageManager.this w0) = None).
  { destruct a; cbn [the put localStorage sessionStorage items with_items];
      apply lookup_delete_eq. }
  by rewrite Hnone.
Qed.

Lemma X22_clearAllTasks_then_loadTasks_witness :
  let w := snd (StorageManager.saveTask Example.task0
                  (Example.world_of Example.roomy Example.roomy)) in
  fst (StorageManager.loadTasks (snd (StorageManager.clearAllTasks w))) = Ret [].
Proof.
  intros w.
  apply (X22_clearAllTasks_then_loadTasks w).
  - reflexivity.
  - vm_compute. reflexivity.
  - vm_compute. reflexivity.
Defined.

(* ===================================================================== *)
(** * From [addTask] to the store and back                               *)
(* ===================================================================== *)

Section StoredRecords.

Lemma tame_string (s : jsstring) :
  Forall (fun c => tame c = true) s →
  trimmed s ∧ Forall (fun c => Stages.is_control c = false) s
  ∧ no_tag s = true ∧ single_spaced s = true.
Proof.
  intros H.
  assert (Hsp : Forall (fun c => is_space c = false) s).
  { eapply Forall_impl; [exact H|]. intros c Hc. unfold tame in Hc.
    by destruct (is_space c). }
  split; [|split; [|split]].
  - split.
    + apply drop_space_head. destruct s as [|c t]; [done|]. by inversion Hsp.
    + apply drop_space_head. destruct (rev s) as [|c t] eqn:Hr; [done|].
      apply (proj1 (Forall_forall _ _) Hsp). apply list_elem_of_In, in_rev.
      rewrite Hr. by left.
  - eapply Forall_impl; [exact H|]. intros c Hc. unfold tame in Hc.
    by destruct (Stages.is_control c), (is_space c).
  - clear Hsp. induction H as [|c t Hc Ht IH]; [done|]. cbn [no_tag]. rewrite IH.
    unfold tame in Hc. destruct (c =? 60); [by rewrite !andb_false_r in Hc|done].
  - clear H. induction Hsp as [|c t Hc Ht IH]; [done|]. cbn [single_spaced].
    by rewrite Hc, IH.
Qed.

Lemma sanitizeString_tame (s : jsstring) :
  Forall (fun c => tame c = true) s → StorageManager.sanitizeString (VStr s) = s.
Proof.
  intros H. destruct (tame_string s H) as (H1 & H2 & H3 & H4).
  by apply sanitizeString_clean.
Qed.


Lemma in_range_false (lo hi c : N) : c < lo ∨ hi < c → in_range lo hi c = false.
Proof.
  intros H. unfold in_range. apply andb_false_iff.
  destruct H; [left; by apply N.leb_gt|right; by apply N.leb_gt].
Qed.

Lemma tame_ascii (c : N) : 33 ≤ c ≤ 126 → c ≠ 60 → tame c = true.
Proof.
  intros H H60. unfold tame, is_space, Stages.is_control.
  rewrite !in_range_false by lia.
  repeat match goal with
  | |- context [c =? ?k] => rewrite (proj2 (N.eqb_neq c k)) by lia
  end.
  done.
Qed.

Lemma hex_tame (c : N) : is_hex c = true → tame c = true.
Proof.
  unfold is_hex. intros H. apply orb_true_iff in H.
  rewrite !in_range_spec in H. apply tame_ascii; lia.
Qed.

Lemma generateUUID_tame (e : env) : Forall (fun c => tame c = true) (Task.generateUUID e).
Proof.
  rewrite generateUUID_digits.
  repeat (constructor; [first [apply hex_tame, x_digit | done | idtac]|]); [|constructor].
  pose proof (y_digit (random e 15)) as H. cbv zeta in H.
  apply tame_ascii.
  - repeat (apply orb_true_iff in H as [H|H]); apply N.eqb_eq in H; lia.
  - repeat (apply orb_true_iff in H as [H|H]); apply N.eqb_eq in H; lia.
Qed.

Lemma task_escape_no_lt (s : jsstring) :
  Forall (fun c => c ≠ 60) (flat_map Stages.task_escape s).
Proof.
  induction s as [|c t IH]; cbn [flat_map]; [constructor|].
  apply Forall_app. split; [|done]. unfold Stages.task_escape.
  destruct (N.eqb_spec c 60); [by repeat constructor|].
  destruct (N.eqb_spec c 62); [by repeat constructor|].
  destruct (N.eqb_spec c 34); [by repeat constructor|].
  destruct (N.eqb_spec c 39); [by repeat constructor|].
  destruct (N.eqb_spec c 47); [by repeat constructor|].
  by repeat constructor.
Qed.

Lemma no_lt_no_tag (s : jsstring) : Forall (fun c => c ≠ 60) s → no_tag s = true.
Proof.
  induction 1 as [|c t Hc Ht IH]; [done|]. cbn [no_tag].
  by rewrite (proj2 (N.eqb_neq c 60)), IH.
Qed.

Lemma sanitizeString_sanitized (input : value) :
  StorageManager.sanitizeString (VStr (TaskValidator.sanitizeInput input))
  = Stages.collapse_spaces false (Stages.strip_control (TaskValidator.sanitizeInput input)).
Proof.
  rewrite sanitizeString_eq.
  assert (Ht : trim (TaskValidator.sanitizeInput input) = TaskValidator.sanitizeInput input).
  { destruct input; try done. apply sanitized_trimmed. }
  assert (Hlt : Forall (fun c => c ≠ 60) (TaskValidator.sanitizeInput input)).
  { destruct input; try (by constructor).
    rewrite TaskValidator_sanitizeInput_eq. apply task_escape_no_lt. }
  rewrite Ht. rewrite strip_tags_id; [done|].
  apply no_lt_no_tag. eapply Forall_impl.
  - apply (strip_control_Forall _ _ Hlt).
  - by intros c [? _].
Qed.

Lemma six_fields_stored (i b a st : jsstring) (t : Z) (d : value) :
  TimeClip (Some t) = Some t →
  is_null d || valid_date d = true →
  stored_form [ (str "id", VStr i); (str "bookTitle", VStr b); (str "author", VStr a);
                (str "status", VStr st); (str "createdAt", VDate (Some t));
                (str "completedAt", d) ] = true.
Proof.
  intros Ht Hd. unfold stored_form.
  assert (Hg1 : get [ (str "id", VStr i); (str "bookTitle", VStr b); (str "author", VStr a);
                (str "status", VStr st); (str "createdAt", VDate (Some t));
                (str "completedAt", d) ] (str "createdAt") = VDate (Some t))
    by (vm_compute; reflexivity).
  assert (Hg2 : get [ (str "id", VStr i); (str "bookTitle", VStr b); (str "author", VStr a);
                (str "status", VStr st); (str "createdAt", VDate (Some t));
                (str "completedAt", d) ] (str "completedAt") = d)
    by (vm_compute; reflexivity).
  rewrite Hg1, Hg2. cbn [valid_date]. rewrite (bool_decide_eq_true_2 _ Ht), Hd.
  cbn [map fst forallb snd plain]. rewrite !orb_true_r.
  rewrite (bool_decide_eq_true_2 (str "createdAt" = str "createdAt")) by done.
  cbn [orb andb]. rewrite !andb_true_r.
  vm_compute. reflexivity.
Qed.

(** What [sanitizeTaskData] makes of the record of a new task. *)
Lemma sanitizeTaskData_created (e : env) (bookTitle author : value) :
  let p := TaskValidator.prepareTaskData bookTitle author in
  StorageManager.sanitizeTaskData (Task.toJSON (Registry.created e p))
  = [ (str "id", VStr (Task.generateUUID e));
      (str "bookTitle",
       VStr (Stages.collapse_spaces false
               (Stages.strip_control (TaskValidator.data_bookTitle p))));
      (str "author",
       VStr (Stages.collapse_spaces false
               (Stages.strip_control (TaskValidator.data_author p))));
      (str "status", VStr (str "active"));
      (str "createdAt", VDate (TimeClip (Some (now e))));
      (str "completedAt", VNull) ].
Proof.
  cbn zeta. unfold StorageManager.sanitizeTaskData.
  destruct (get_toJSON (Registry.created e (TaskValidator.prepareTaskData bookTitle author)))
    as (-> & -> & -> & -> & -> & ->).
  cbn [Registry.created Task.new Task.id Task.bookTitle Task.author Task.status
       Task.createdAt Task.completedAt Task.or_empty truthy].
  rewrite (sanitizeString_tame _ (generateUUID_tame e)).
  cbn [TaskValidator.prepareTaskData TaskValidator.data_bookTitle TaskValidator.data_author].
  rewrite !sanitizeString_sanitized.
  assert (Ha : (match TaskValidator.sanitizeInput (Task.or_empty author) with
                | [] => false | _ :: _ => true end = false)
               → TaskValidator.sanitizeInput (Task.or_empty author) = []).
  { by destruct (TaskValidator.sanitizeInput (Task.or_empty author)). }
  destruct (match TaskValidator.sanitizeInput (Task.or_empty author) with
            | [] => false | _ :: _ => true end) eqn:Hm; [done|].
  by rewrite (Ha eq_refl).
Qed.

End StoredRecords.

(** X23: the record that [sanitizeTaskData] makes, and [saveTask] writes,
    for a task that [addTask] made: the id, the status and the two dates
    of the task, and its title and author, already escaped by
    [TaskValidator.sanitizeInput], without their control characters and
    with one space for every run of white space; the pattern for tags
    finds nothing to remove.  With a clock in the range of [Date] it is of
    the stored form. *)
Theorem X23_stored_record (e : env) (bookTitle author : value) :
  let p := TaskValidator.prepareTaskData bookTitle author in
  let stored := StorageManager.sanitizeTaskData (Task.toJSON (Registry.created e p)) in
  stored
  = [ (str "id", VStr (Task.generateUUID e));
      (str "bookTitle",
       VStr (Stages.collapse_spaces false
               (Stages.strip_control (TaskValidator.data_bookTitle p))));
      (str "author",
       VStr (Stages.collapse_spaces false
               (Stages.strip_control (TaskValidator.data_author p))));
      (str "status", VStr (str "active"));
      (str "createdAt", VDate (TimeClip (Some (now e))));
      (str "completedAt", VNull) ]
  ∧ (TimeClip (Some (now e)) = Some (now e) → stored_form stored = true).
Proof.
  cbn zeta. pose proof (sanitizeTaskData_created e bookTitle author) as H.
  cbn zeta in H. rewrite H. split; [done|].
  intros Hclock. rewrite Hclock. by apply six_fields_stored.
Qed.

Lemma X23_stored_record_witness :
  TimeClip (Some (now Example.e0)) = Some (now Example.e0)
  ∧ stored_form
      (StorageManager.sanitizeTaskData
         (Task.toJSON (Registry.created Example.e0
            (TaskValidator.prepareTaskData (VStr (str "Kokoro")) (VStr (str "Soseki"))))))
    = true.
Proof.
  assert (H : TimeClip (Some (now Example.e0)) = Some (now Example.e0))
    by (vm_compute; reflexivity).
  split; [exact H|].
  exact (proj2 (X23_stored_record Example.e0 (VStr (str "Kokoro")) (VStr (str "Soseki"))) H).
Defined.

(** X24: with the storage manager of js/storage-manager.js, which never
    throws, a call of [addTask], [completeTask] or [deleteTask] of
    js/task-manager.js that reports a failure ([null] or [false]) has left
    [this.tasks] as it was, whatever made it fail (for [addTask], when the
    id drawn is not the id of a record of the list). *)
Theorem X24_failed_call_keeps_the_list (e : env) (this : Registry.t)
  (w : StorageManager.world) :
  (∀ bookTitle author,
     (∀ t, t ∈ Registry.tasks this → Registry.has_id (Task.generateUUID e) t = false) →
     fst (fst (TaskManager.addTask storageManager e bookTitle author this w)) = None →
     snd (fst (TaskManager.addTask storageManager e bookTitle author this w)) = this)
  ∧ (∀ taskId,
     fst (fst (TaskManager.completeTask storageManager e taskId this w)) = None →
     snd (fst (TaskManager.completeTask storageManager e taskId this w)) = this)
  ∧ (∀ taskId,
     fst (fst (TaskManager.deleteTask storageManager taskId this w)) = false →
     snd (fst (TaskManager.deleteTask storageManager taskId this w)) = this).
Proof.
  split; [|split].
  - intros bookTitle author Hfresh. unfold TaskManager.addTask.
    destruct (negb _); [done|]. cbn zeta.
    cbn [Adapter.saveTask storageManager].
    destruct (saveTask_returns (Task.toJSON (Registry.created e
                (TaskValidator.prepareTaskData bookTitle (Task.or_empty author)))) w) as [b Hb].
    destruct (StorageManager.saveTask _ w) as [r w1]. cbn [fst] in Hb. subst r.
    destruct b; cbn [fst snd]; [done|]. intros _.
    destruct this as [l lg]. unfold Registry.with_tasks.
    cbn [Registry.tasks Registry.enableLogging] in *.
    rewrite filter_fresh; [done|done|apply has_id_created].
  - intros taskId.
    pose proof (findIndex_find taskId (Registry.tasks this)) as Hfind.
    destruct (Registry.findIndex taskId (Registry.tasks this)) as [i|] eqn:Hi.
    2: { unfold TaskManager.completeTask. by rewrite Hi. }
    destruct Hfind as (t & Ht & Hf & Hid).
    rewrite (completeTask_found storageManager e taskId this w i t Hi Ht).
    destruct (is_string _ _); [done|]. cbn zeta. cbn [Adapter.updateTask storageManager].
    destruct (updateTask_returns taskId (Registry.completion (Registry.completed e t)) w)
      as [b Hb].
    destruct (StorageManager.updateTask _ _ w) as [r w1]. cbn [fst] in Hb. subst r.
    by destruct b.
  - intros taskId.
    pose proof (findIndex_find taskId (Registry.tasks this)) as Hfind.
    destruct (Registry.findIndex taskId (Registry.tasks this)) as [i|] eqn:Hi.
    2: { unfold TaskManager.deleteTask. by rewrite Hi. }
    destruct Hfind as (t & Ht & Hf & Hid).
    rewrite (deleteTask_found storageManager taskId this w i t Hi Ht).
    cbn [Adapter.deleteTask storageManager].
    destruct (deleteTask_returns taskId w) as [b Hb].
    destruct (StorageManager.deleteTask _ w) as [r w1]. cbn [fst] in Hb. subst r.
    by destruct b.
Qed.

Lemma X24_failed_call_keeps_the_list_witness :
  let this := Example.manager_of [Example.task0] in
  let w := Example.world_of Example.tight Example.roomy in
  let r := TaskManager.addTask storageManager Example.e1 (VStr (str "Botchan")) VUndef this w in
  fst (fst r) = None ∧ snd (fst r) = this.
Proof.
  intros this w r.
  assert (H : fst (fst r) = None) by (vm_compute; reflexivity).
  split; [exact H|].
  apply (proj1 (X24_failed_call_keeps_the_list Example.e1 this w)
           (VStr (str "Botchan")) VUndef); [|exact H].
  intros t Ht. apply list_elem_of_singleton in Ht. subst t. vm_compute. reflexivity.
Defined.

(** X25: a task that [addTask] of js/task-manager.js returned is in the
    list of a task manager made afterwards, in the form in which the storage
    manager wrote it: when the stored list was of the stored form, the
    clock is in the range of [Date] and the next call selects the same
    storage area, the new manager's list is the stored list with the
    sanitized task at the end, or in the place of a stored record that had
    its id. *)
Theorem X25_added_task_survives_a_reload (e : env) (bookTitle author : value)
  (this this' : Registry.t) (w w' : StorageManager.world)
  (task : object) (old : list object) (logging : bool) :
  keyed w →
  fst (StorageManager.loadTasks w) = Ret old →
  Forall (fun o => stored_form o = true) old →
  TimeClip (Some (now e)) = Some (now e) →
  TaskManager.addTask storageManager e bookTitle author this w = (Some task, this', w') →
  fst (StorageManager.getStorage w') = fst (StorageManager.getStorage w) →
  let stored := StorageManager.sanitizeTaskData task in
  Registry.tasks (fst (Registry.new storageManager logging w'))
  = match StorageManager.findIndex (Task.generateUUID e) old with
    | Some i => <[i := stored]> old
    | None => old ++ [stored]
    end.
Proof.
  intros Hk Hold Hs Hclock Hadd Hsame stored.
  destruct (addTask_success storageManager e bookTitle author this this' w w' task Hadd)
    as (Htask & _ & Hsave).
  cbn [Adapter.saveTask storageManager] in Hsave.
  assert (Hstored : stored_form stored = true).
  { subst stored. rewrite Htask.
    pose proof (sanitizeTaskData_created e bookTitle (Task.or_empty author)) as H.
    cbn zeta in H. rewrite created_fields in H.
    cbn [TaskValidator.prepareTaskData TaskValidator.data_bookTitle
         TaskValidator.data_author] in H.
    rewrite or_empty_twice in H. rewrite H, Hclock. by apply six_fields_stored. }
  assert (Hid : StorageManager.id_string task = Task.generateUUID e).
  { rewrite Htask. vm_compute. reflexivity. }
  assert (Hload : fst (StorageManager.loadTasks w')
                  = Ret (match StorageManager.findIndex (Task.generateUUID e) old with
                         | Some i => <[i := stored]> old
                         | None => old ++ [stored]
                         end)).
  { pose proof (saveTask_saves task old w w' Hold Hsave) as Hsaves.
    rewrite Hid in Hsaves.
    apply (written_then_loaded _ w w'); [done| |done|done].
    destruct (StorageManager.findIndex _ old).
    - by apply Forall_insert.
    - apply Forall_app. split; [done|]. by constructor. }
  unfold Registry.new, Registry.loadTasks. cbn [Adapter.loadTasks storageManager].
  destruct (StorageManager.loadTasks w') as [r w1]. cbn [fst] in Hload. subst r.
  done.
Qed.

Lemma X25_added_task_survives_a_reload_witness :
  let this := Example.manager_of [] in
  let w := Example.world_of Example.roomy Example.roomy in
  let r := TaskManager.addTask storageManager Example.e0 (VStr (str "Kokoro"))
             (VStr (str "Soseki")) this w in
  r = (Some Example.task0, snd (fst r), snd r)
  ∧ Registry.tasks (fst (Registry.new storageManager true (snd r)))
    = [StorageManager.sanitizeTaskData Example.task0].
Proof.
  intros this w r.
  assert (H : r = (Some Example.task0, snd (fst r), snd r)) by (vm_compute; reflexivity).
  split; [exact H|].
  apply (X25_added_task_survives_a_reload Example.e0 (VStr (str "Kokoro")) (VStr (str "Soseki"))
           this (snd (fst r)) w (snd r) Example.task0 [] true).
  - reflexivity.
  - vm_compute. reflexivity.
  - constructor.
  - vm_compute. reflexivity.
  - exact H.
  - vm_compute. reflexivity.
Defined.

Section CompletionFacts.







End CompletionFacts.



(* ===================================================================== *)
(** * ShareManager: the texts that are shared                            *)
(* ===================================================================== *)

Section Share.

Lemma generateText_length (head tail : jsstring) (bookTitle author : value) :
  (length head + length tail + 4 ≤ ShareManager.maxTweetLength)%nat →
  (length (ShareManager.generateText head tail bookTitle author)
   ≤ ShareManager.maxTweetLength)%nat.
Proof.
  intros H. unfold ShareManager.generateText. cbv zeta.
  match goal with |- context [(ShareManager.maxTweetLength <? ?n)%nat] =>
    destruct (Nat.ltb_spec ShareManager.maxTweetLength n) as [H1|H1]; [|done] end.
  match goal with |- context [(ShareManager.maxTweetLength <? ?n)%nat] =>
    destruct (Nat.ltb_spec ShareManager.maxTweetLength n) as [H2|H2]; [|done] end.
  rewrite !length_app, length_take in *.
  change (length (str "...")) with 3%nat.
  change (length ShareManager.closing_bracket) with 1%nat in *. lia.
Qed.

End Share.

(** X27: whatever the title and the author, the text of
    [generateDeclarationText] and the text of [generateCompletionText] have
    at most 280 UTF-16 code units, the limit that [generateShareUrl] then
    checks: the author is dropped first, and the title is cut when that is
    not enough. *)
Theorem X27_share_texts_fit_a_post (bookTitle author : value) :
  (length (ShareManager.generateDeclarationText bookTitle author) ≤ 280)%nat
  ∧ (length (ShareManager.generateCompletionText bookTitle author) ≤ 280)%nat.
Proof.
  split; apply generateText_length; vm_compute; lia.
Qed.

Section ShareSanitize.

Lemma match_here_crlf (b : option N) (s : jsstring) :
  head s ≠ Some 13 → match_here false (Seq (Chr 13) (Chr 10)) (Pos b s) = None.
Proof.
  intros H. unfold match_here. cbn [rmatch]. unfold step_char at 1. cbn [rest canon andb].
  destruct s as [|c t]; [done|]. cbn [head] in H.
  by rewrite (proj2 (N.eqb_neq 13 c)) by congruence.
Qed.

Lemma replace_go_crlf (b : option N) (s : jsstring) :
  Forall (fun c => c ≠ 13) s →
  replace_go false (Seq (Chr 13) (Chr 10)) [10] O b s = s.
Proof.
  intros H. revert b. induction H as [|c t Hc Ht IH]; intros b; cbn [replace_go].
  - by rewrite match_here_crlf.
  - rewrite match_here_crlf by (cbn; congruence). by rewrite IH.
Qed.

Lemma replace_cr (s : jsstring) :
  Forall (fun c => c ≠ 13) s →
  fst (replace s (literal (Chr 13) false true) [10]) = s.
Proof.
  intros H. unfold replace. simpl.
  rewrite (replace_go_one_char _ _ (fun x => 13 =? x)) by apply one_char_Chr.
  induction H as [|c t Hc Ht IH]; cbn [flat_map]; [done|].
  by rewrite (proj2 (N.eqb_neq 13 c)), IH by congruence.
Qed.

Lemma fold_replace_sublist (pats : list regex) (s : jsstring) :
  fold_left (fun s pattern => fst (replace s (literal pattern true true) [])) pats s
  `sublist_of` s.
Proof.
  revert s. induction pats as [|r pats IH]; intros s; cbn [fold_left]; [done|].
  etrans; [apply IH|apply replace_sublist].
Qed.

End ShareSanitize.

(** X28: the string that [sanitizeForShare] returns holds no control
    character, so no line break, and no white space other than single
    spaces.  Its last two steps, which turn carriage returns into line
    feeds, never change anything: the result is the one of trimming,
    removing the control characters, removing the dangerous patterns and
    collapsing the white space. *)
Theorem X28_sanitizeForShare_result (text : value) :
  let r := ShareManager.sanitizeForShare text in
  Forall (fun c => Stages.is_control c = false) r
  ∧ single_spaced r = true
  ∧ ∀ s, text = VStr s →
      r = Stages.collapse_spaces false
            (fold_left (fun s pattern => fst (replace s (literal pattern true true) []))
               ShareManager.dangerous_sources (Stages.strip_control (trim s))).
Proof.
  destruct text as [| | | |s| | |];
    try (cbn; split; [constructor|]; split; [done|]; by intros).
  cbn zeta. unfold ShareManager.sanitizeForShare. cbv zeta.
  rewrite replace_control, replace_spaces.
  set (x := Stages.collapse_spaces false _).
  assert (Hctl : Forall (fun c => Stages.is_control c = false) x).
  { subst x. apply collapse_spaces_Forall; [done|].
    eapply sublist_Forall; [apply fold_replace_sublist|].
    eapply Forall_impl; [apply (strip_control_Forall (fun _ => True)), Forall_true; done|].
    by intros c [_ ?]. }
  assert (H13 : Forall (fun c => c ≠ 13) x).
  { eapply Forall_impl; [exact Hctl|]. intros c Hc ->. by vm_compute in Hc. }
  assert (Hcrlf : fst (replace x (literal (Seq (Chr 13) (Chr 10)) false true) [10]) = x).
  { unfold replace. simpl. by apply replace_go_crlf. }
  rewrite Hcrlf, replace_cr by done.
  split; [done|]. split; [apply collapse_spaces_single|]. by intros s' [= <-].
Qed.

Lemma X28_sanitizeForShare_result_witness :
  ShareManager.sanitizeForShare (VStr (str "War  and Peace "))
  = Stages.collapse_spaces false
      (fold_left (fun s pattern => fst (replace s (literal pattern true true) []))
         ShareManager.dangerous_sources
         (Stages.strip_control (trim (str "War  and Peace ")))).
Proof.
  exact (proj2 (proj2 (X28_sanitizeForShare_result (VStr (str "War  and Peace "))))
           (str "War  and Peace ") eq_refl).
Defined.
